(** * AutoDocGPT: a shallow embedding of the agent core

    The development follows the layout of the repository:

    - [Py]           the fragment of the Python runtime the code relies on
                     (dynamic values, exception classes, [try]/[except],
                     slices, insertion-ordered dictionaries, [repr] and
                     [strip]) and what the interpreter sets from outside
                     (its limits, its Unicode tables);
    - [Memory]       [agent_core/memory.py]    ([AgentMemory]);
    - [Registry]     [agent_core/registry.py]  (tool metadata, registries);
    - [Environment]  [agent_core/environment.py] ([execute_action]);
    - [Json]         the decoder behind [json.loads];
    - [Language]     [language.py]             ([parse_response]);
    - [Main]         [main.py]                 ([run_agent_loop]);
    - [FileTools]    [tools/file_tools.py]     ([find_todos]).

    Stateful code is written in a state-and-exception monad: a computation
    takes the current state and yields either a value or a raised exception,
    together with the state it leaves behind. *)

From Stdlib Require Import ZArith List String Ascii Bool Arith Lia.
From Stdlib Require Import DecimalString.
Import ListNotations.

Set Warnings "-register-all".

Local Open Scope string_scope.
Local Open Scope list_scope.

(* ====================================================================== *)
(** * The Python fragment *)
(* ====================================================================== *)

Module Py.

(** Dynamic values.  A float is carried as the literal it was read from
    (no floating-point arithmetic is performed anywhere in the agent core);
    [PObject] stands for any value outside the JSON data model. *)
Inductive pyval : Type :=
| PNone
| PBool (b : bool)
| PInt (z : Z)
| PFloat (literal : string)
| PStr (s : string)
| PList (items : list pyval)
| PDict (items : list (string * pyval))
| PObject (repr : string).

(** [isinstance(v, str)] and [isinstance(v, dict)]. *)
Definition is_str (v : pyval) : bool :=
  match v with PStr _ => true | _ => false end.

Definition is_dict (v : pyval) : bool :=
  match v with PDict _ => true | _ => false end.

(** ** Exception classes

    The part of the built-in hierarchy that the code can tell apart:
    [except Exception] lets the system-exiting classes through, and
    [except json.JSONDecodeError] catches that one class only: neither the
    [ValueError] of an integer text that is too long nor a
    [RecursionError]. *)
Inductive exc_class : Type :=
| BaseException
| KeyboardInterrupt
| SystemExit
| GeneratorExit
| Exception
| TypeError
| RuntimeError
| RecursionError
| ValueError
| JSONDecodeError
| AttributeError
| LookupError
| OSError
| FileNotFoundError
| FileExistsError.

Definition exc_class_eqb (c d : exc_class) : bool :=
  match c, d with
  | BaseException, BaseException
  | KeyboardInterrupt, KeyboardInterrupt
  | SystemExit, SystemExit
  | GeneratorExit, GeneratorExit
  | Exception, Exception
  | TypeError, TypeError
  | RuntimeError, RuntimeError
  | RecursionError, RecursionError
  | ValueError, ValueError
  | JSONDecodeError, JSONDecodeError
  | AttributeError, AttributeError
  | LookupError, LookupError
  | OSError, OSError
  | FileNotFoundError, FileNotFoundError
  | FileExistsError, FileExistsError => true
  | _, _ => false
  end.

(** The direct base class. *)
Definition base_of (c : exc_class) : option exc_class :=
  match c with
  | BaseException => None
  | KeyboardInterrupt | SystemExit | GeneratorExit | Exception => Some BaseException
  | TypeError | RuntimeError | ValueError | AttributeError | LookupError | OSError =>
      Some Exception
  | RecursionError => Some RuntimeError
  | JSONDecodeError => Some ValueError
  | FileNotFoundError | FileExistsError => Some OSError
  end.

Fixpoint issubclass_upto (height : nat) (c d : exc_class) : bool :=
  exc_class_eqb c d ||
  match height with
  | O => false
  | S h => match base_of c with
           | Some b => issubclass_upto h b d
           | None => false
           end
  end.

(** The hierarchy above is four levels deep. *)
Definition issubclass (c d : exc_class) : bool := issubclass_upto 4 c d.

(** A raised exception: its class, [str(exc)] and the text
    [traceback.format_exc()] renders for it. *)
Record exn : Type := mk_exn {
  exc_type : exc_class;
  exc_str : string;
  exc_traceback : string
}.

Definition isinstance (e : exn) (c : exc_class) : bool :=
  issubclass (exc_type e) c.

(** ** Outcomes and the state-and-exception monad *)
Inductive outcome (A : Type) : Type :=
| Returned (a : A)
| Raised (e : exn).

Arguments Returned {A} a.
Arguments Raised {A} e.

Definition M (S A : Type) : Type := S -> outcome A * S.

Definition ret {S A : Type} (a : A) : M S A := fun s => (Returned a, s).

Definition raise {S A : Type} (e : exn) : M S A := fun s => (Raised e, s).

Definition bind {S A B : Type} (m : M S A) (k : A -> M S B) : M S B :=
  fun s =>
    match m s with
    | (Returned a, s') => k a s'
    | (Raised e, s') => (Raised e, s')
    end.

(** [try: body  except cls as exc: handler exc]. *)
Definition try_except {S A : Type} (body : M S A) (cls : exc_class)
    (handler : exn -> M S A) : M S A :=
  fun s =>
    match body s with
    | (Returned a, s') => (Returned a, s')
    | (Raised e, s') =>
        if isinstance e cls then handler e s' else (Raised e, s')
    end.

Definition get {S : Type} : M S S := fun s => (Returned s, s).
Definition put {S : Type} (s : S) : M S unit := fun _ => (Returned tt, s).

(** Sequencing and mapping of pure computations that may raise. *)
Definition outcome_bind {A B : Type} (o : outcome A) (k : A -> outcome B)
    : outcome B :=
  match o with
  | Returned a => k a
  | Raised e => Raised e
  end.

Definition outcome_map {A B : Type} (f : A -> B) (o : outcome A) : outcome B :=
  outcome_bind o (fun a => Returned (f a)).

(** A pure computation that may raise, run inside a stateful one. *)
Definition lift_outcome {S A : Type} (o : outcome A) : M S A := fun s => (o, s).

(** ** The interpreter

    What the running interpreter decides and the code cannot see from the
    inside: the limits that make [json.loads] raise something else than
    [JSONDecodeError], the text of the [TypeError] it raises when a call
    passes a keyword argument under the name of a parameter that is already
    bound, and the characters its Unicode tables hold printable. *)
Class Interpreter : Type := mk_interpreter {
  (** [sys.get_int_max_str_digits()]: the longest decimal text [int]
      converts, [0] for no limit *)
  int_max_str_digits : nat;
  (** how many nested calls the interpreter still has room for when the
      decoder starts *)
  recursion_room : nat;
  (** [str(exc)] and the trace of the [TypeError] for a keyword argument
      that names a bound parameter *)
  keyword_clash_str : string;
  keyword_clash_traceback : string;
  (** [str.isprintable()] of the character of a code point beyond ASCII *)
  isprintable : N -> bool
}.

Definition keyword_clash {interp : Interpreter} : exn :=
  mk_exn TypeError keyword_clash_str keyword_clash_traceback.

(** ** Sequences: [l[start:]] *)
Definition slice_from {A : Type} (start : Z) (l : list A) : list A :=
  let len := Z.of_nat (List.length l) in
  let first :=
    if (start <? 0)%Z then Z.max (start + len) 0 else Z.min start len in
  skipn (Z.to_nat first) l.

(** The last [n] elements of a list (all of it when it is shorter). *)
Definition lastn {A : Type} (n : nat) (l : list A) : list A :=
  skipn (List.length l - n) l.

(** ** Insertion-ordered dictionaries with string keys *)
Definition pydict (V : Type) : Type := list (string * V).

Fixpoint dict_get {V : Type} (k : string) (d : pydict V) : option V :=
  match d with
  | [] => None
  | (k', v) :: rest => if String.eqb k k' then Some v else dict_get k rest
  end.

(** [k in d]. *)
Definition dict_mem {V : Type} (k : string) (d : pydict V) : bool :=
  match dict_get k d with Some _ => true | None => false end.

(** [d[k] = v]: an existing key keeps its position, a new one goes last. *)
Fixpoint dict_set {V : Type} (k : string) (v : V) (d : pydict V) : pydict V :=
  match d with
  | [] => [(k, v)]
  | (k', v') :: rest =>
      if String.eqb k k' then (k, v) :: rest else (k', v') :: dict_set k v rest
  end.

Definition dict_keys {V : Type} (d : pydict V) : list string := map fst d.
Definition dict_values {V : Type} (d : pydict V) : list V := map snd d.

(** [x in l] for a list of strings. *)
Definition list_mem (x : string) (l : list string) : bool :=
  existsb (String.eqb x) l.

(** ** Strings *)

Definition newline : ascii := "010"%char.
Definition dquote : ascii := "034"%char.
Definition squote : ascii := "039"%char.
Definition backslash : ascii := "092"%char.

(** A text between double quotes. *)
Definition quoted (s : string) : string :=
  String dquote (s ++ String dquote EmptyString).

(** [sep.join(parts)]. *)
Fixpoint join (sep : string) (parts : list string) : string :=
  match parts with
  | [] => ""
  | [p] => p
  | p :: rest => p ++ sep ++ join sep rest
  end.

(** [c in s] for a character. *)
Fixpoint str_contains (c : ascii) (s : string) : bool :=
  match s with
  | EmptyString => false
  | String c' s' => Ascii.eqb c c' || str_contains c s'
  end.

(** White space as [str.strip()] and [str.isspace()] see it.  In one byte:
    U+0009 to U+000D, U+001C to U+0020. *)
Definition is_space (c : ascii) : bool :=
  let n := nat_of_ascii c in
  ((9 <=? n)%nat && (n <=? 13)%nat) || ((28 <=? n)%nat && (n <=? 32)%nat).

(** In two bytes: U+0085 and U+00A0. *)
Definition is_space2 (a b : ascii) : bool :=
  let a := nat_of_ascii a in
  let b := nat_of_ascii b in
  ((a =? 194) && ((b =? 133) || (b =? 160)))%nat.

(** In three bytes: U+1680, U+2000 to U+200A, U+2028, U+2029, U+202F,
    U+205F and U+3000. *)
Definition is_space3 (a b c : ascii) : bool :=
  let a := nat_of_ascii a in
  let b := nat_of_ascii b in
  let c := nat_of_ascii c in
  (((a =? 225) && (b =? 154) && (c =? 128))
   || ((a =? 226) && (b =? 128)
       && (((128 <=? c) && (c <=? 138)) || (c =? 168) || (c =? 169)
           || (c =? 175)))
   || ((a =? 226) && (b =? 129) && (c =? 159))
   || ((a =? 227) && (b =? 128) && (c =? 128)))%nat.

Fixpoint lstrip (s : string) : string :=
  match s with
  | EmptyString => EmptyString
  | String a s1 =>
      if is_space a then lstrip s1
      else
        match s1 with
        | String b s2 =>
            if is_space2 a b then lstrip s2
            else
              match s2 with
              | String c s3 => if is_space3 a b c then lstrip s3 else s
              | EmptyString => s
              end
        | EmptyString => s
        end
  end.

(** A text backwards. *)
Fixpoint reversed_onto (acc s : string) : string :=
  match s with
  | EmptyString => acc
  | String c s' => reversed_onto (String c acc) s'
  end.

Definition reversed (s : string) : string := reversed_onto EmptyString s.

(** [lstrip] on a text that is read backwards: the last byte of a
    character comes first. *)
Fixpoint lstrip_backwards (s : string) : string :=
  match s with
  | EmptyString => EmptyString
  | String c s1 =>
      if is_space c then lstrip_backwards s1
      else
        match s1 with
        | String b s2 =>
            if is_space2 b c then lstrip_backwards s2
            else
              match s2 with
              | String a s3 =>
                  if is_space3 a b c then lstrip_backwards s3 else s
              | EmptyString => s
              end
        | EmptyString => s
        end
  end.

Definition rstrip (s : string) : string :=
  reversed (lstrip_backwards (reversed s)).

Definition strip (s : string) : string := rstrip (lstrip s).

Definition hex_digit (n : nat) : ascii :=
  ascii_of_nat (if (n <? 10)%nat then 48 + n else 87 + n).

(** The last [width] hexadecimal digits of [n], before [acc]. *)
Fixpoint hex_digits (width : nat) (n : N) (acc : string) : string :=
  match width with
  | O => acc
  | S w =>
      hex_digits w (n / 16)
                 (String (hex_digit (N.to_nat (n mod 16))) acc)
  end.

(** One ASCII character of [repr(s)], given the quote [repr] chose. *)
Definition repr_char (quote c : ascii) : string :=
  let n := nat_of_ascii c in
  if Ascii.eqb c backslash || Ascii.eqb c quote
  then String backslash (String c EmptyString)
  else if (n =? 9)%nat then String backslash "t"
  else if (n =? 10)%nat then String backslash "n"
  else if (n =? 13)%nat then String backslash "r"
  else if (n <? 32)%nat || (n =? 127)%nat
  then String backslash
         (String "x" (String (hex_digit (n / 16)) (String (hex_digit (n mod 16)) EmptyString)))
  else String c EmptyString.

(** The code points of the characters of two, three and four bytes. *)
Definition code2 (a b : ascii) : N :=
  ((N_of_ascii a - 192) * 64 + (N_of_ascii b - 128))%N.

Definition code3 (a b c : ascii) : N :=
  (((N_of_ascii a - 224) * 64 + (N_of_ascii b - 128)) * 64
   + (N_of_ascii c - 128))%N.

Definition code4 (a b c d : ascii) : N :=
  ((((N_of_ascii a - 240) * 64 + (N_of_ascii b - 128)) * 64
    + (N_of_ascii c - 128)) * 64 + (N_of_ascii d - 128))%N.

Section Repr.
Context {interp : Interpreter}.

(** A character beyond ASCII in [repr(s)]: as it is when it is printable,
    and otherwise escaped with two, four or eight hexadecimal digits. *)
Definition repr_code (cp : N) (bytes : string) : string :=
  if isprintable cp then bytes
  else if (cp <? 256)%N
  then String backslash (String "x" (hex_digits 2 cp EmptyString))
  else if (cp <? 65536)%N
  then String backslash (String "u" (hex_digits 4 cp EmptyString))
  else String backslash (String "U" (hex_digits 8 cp EmptyString)).

Fixpoint repr_chars (quote : ascii) (s : string) : string :=
  match s with
  | EmptyString => EmptyString
  | String a s1 =>
      if (nat_of_ascii a <? 128)%nat
      then repr_char quote a ++ repr_chars quote s1
      else
        match s1 with
        | String b s2 =>
            if (nat_of_ascii a <? 224)%nat
            then repr_code (code2 a b) (String a (String b EmptyString))
                 ++ repr_chars quote s2
            else
              match s2 with
              | String c s3 =>
                  if (nat_of_ascii a <? 240)%nat
                  then repr_code (code3 a b c)
                         (String a (String b (String c EmptyString)))
                       ++ repr_chars quote s3
                  else
                    match s3 with
                    | String d s4 =>
                        repr_code (code4 a b c d)
                          (String a (String b (String c (String d EmptyString))))
                        ++ repr_chars quote s4
                    | EmptyString => s
                    end
              | EmptyString => s
              end
        | EmptyString => s
        end
  end.

(** [repr(s)] of a string: single quotes, unless the string holds a single
    quote and no double quote. *)
Definition repr_str (s : string) : string :=
  let quote :=
    if str_contains squote s && negb (str_contains dquote s)
    then dquote else squote in
  String quote (repr_chars quote s ++ String quote EmptyString).

(** [repr(l)] of a list of strings, which is also [str(l)] and what an
    f-string prints for it. *)
Definition repr_str_list (l : list string) : string :=
  "[" ++ join ", " (map repr_str l) ++ "]".

End Repr.

(** [str(n)] of an integer. *)
Definition str_of_Z (z : Z) : string := NilZero.string_of_int (Z.to_int z).

(** ** Callables and the world they act on

    A callable takes keyword arguments and acts on the external state [S]
    (files, network, clock).  The world records every call that is made,
    which is what a call-counting stub observes. *)
Definition kwargs : Type := pydict pyval.

Record pycall : Type := mk_pycall {
  callee : string;
  call_args : kwargs
}.

Record world (S : Type) : Type := mk_world {
  invocations : list pycall;
  ext : S
}.

Arguments mk_world {S} _ _.
Arguments invocations {S} _.
Arguments ext {S} _.

(** Run a computation on the external state inside the world. *)
Definition on_ext {S A : Type} (m : M S A) : M (world S) A :=
  fun w =>
    match m (ext w) with
    | (o, s') => (o, mk_world (invocations w) s')
    end.

(** Calling a function object with keyword arguments: the call is
    recorded, then the function takes over, which is its body here: binding
    the arguments to its parameters (a [TypeError] when they do not fit) and
    running its statements. *)
Definition invoke {S : Type} (name : string) (body : kwargs -> M S pyval)
    (args : kwargs) : M (world S) pyval :=
  fun w =>
    on_ext (body args)
           (mk_world (invocations w ++ [mk_pycall name args]) (ext w)).

End Py.

Declare Scope py_scope.
Delimit Scope py_scope with py.
Notation "x <- m ;; k" := (Py.bind m (fun x => k))
  (at level 100, m at next level, right associativity) : py_scope.
Notation "m ;;; k" := (Py.bind m (fun _ => k))
  (at level 100, right associativity) : py_scope.

(* ====================================================================== *)
(** * agent_core/memory.py *)
(* ====================================================================== *)

Module Memory.
Import Py.

(** A stored message, [{"role": role, "content": content}]. *)
Record Message : Type := mk_message {
  role : string;
  content : string
}.

Record AgentMemory : Type := mk_memory {
  max_messages : Z;
  messages : list Message
}.

Definition type_error_add_message : exn :=
  mk_exn TypeError "Both 'role' and 'content' must be strings." "".

(** [AgentMemory.add_message]. *)
Definition add_message (role content : pyval) : M AgentMemory unit :=
  fun self =>
    match role, content with
    | PStr r, PStr c =>
        let appended := messages self ++ [mk_message r c] in
        if (Z.of_nat (List.length appended) >? max_messages self)%Z
        then (Returned tt,
              mk_memory (max_messages self)
                        (slice_from (- max_messages self) appended))
        else (Returned tt, mk_memory (max_messages self) appended)
    | _, _ => (Raised type_error_add_message, self)
    end.

(** [AgentMemory.clear] and [len(memory)]. *)
Definition clear : M AgentMemory unit :=
  fun self => (Returned tt, mk_memory (max_messages self) []).

Definition len (self : AgentMemory) : Z := Z.of_nat (List.length (messages self)).

(** A run of [add_message] calls, in order; an exception ends the run. *)
Fixpoint add_messages (calls : list (pyval * pyval)) : M AgentMemory unit :=
  match calls with
  | [] => ret tt
  | (r, c) :: rest => (add_message r c ;;; add_messages rest)%py
  end.

(** The calls whose role and content are both strings, as messages. *)
Definition text_call (m : Message) : pyval * pyval :=
  (PStr (role m), PStr (content m)).

End Memory.

(* ====================================================================== *)
(** * agent_core/registry.py *)
(* ====================================================================== *)

Module Registry.
Import Py.

(** The type objects a parameter can be annotated with: the six built-in
    classes [_get_json_type] compares against, and anything else (a
    [typing] generic such as [List[str]], a user class, ...). *)
Inductive pytype : Type :=
| Tstr
| Tint
| Tfloat
| Tbool
| Tlist
| Tdict
| Tother (name : string).

(** [_get_json_type]. *)
Definition _get_json_type (param_type : pytype) : string :=
  match param_type with
  | Tstr => "string"
  | Tint => "integer"
  | Tfloat => "number"
  | Tbool => "boolean"
  | Tlist => "array"
  | Tdict => "object"
  | Tother _ => "string"
  end.

(** A parameter schema, the dictionary
    [{"type": ..., "properties": {name: {"type": t}}, "required": [...]}].
    A key may be missing from a schema given as an override; the empty
    dictionary has none. *)
Record schema : Type := mk_schema {
  sch_type : option string;
  sch_properties : option (pydict string);
  sch_required : option (list string)
}.

Definition empty_schema : schema := mk_schema None None None.

(** Truth value of a schema dictionary: it has a key. *)
Definition schema_truthy (s : schema) : bool :=
  match sch_type s, sch_properties s, sch_required s with
  | None, None, None => false
  | _, _, _ => true
  end.

(** One entry of [inspect.signature(func).parameters], with the entry
    [get_type_hints(func)] has for it; [param_default = None] is
    [inspect.Parameter.empty]. *)
Record SigParameter : Type := mk_parameter {
  param_name : string;
  param_hint : option pytype;
  param_default : option pyval
}.

Section Tools.
Context {S : Type} {interp : Interpreter}.

(** A function object. *)
Record PyFunction : Type := mk_function {
  fn_name : string;
  fn_doc : option string;
  fn_signature : list SigParameter;
  fn_body : kwargs -> M S pyval
}.

(** The dictionary [_get_tool_metadata] returns. *)
Record ToolMeta : Type := mk_meta {
  meta_tool_name : string;
  meta_description : string;
  meta_parameters : schema;
  meta_function : PyFunction;
  meta_terminal : bool;
  meta_tags : list string
}.

(** The names of the injected parameters. *)
Definition injected_names : list string := ["action_context"; "action_agent"].

(** One round of the loop over the signature: the schema's properties and
    required list so far, and the parameter at hand. *)
Definition derive_step (acc : pydict string * list string) (p : SigParameter)
    : pydict string * list string :=
  let name := param_name p in
  if list_mem name injected_names then acc
  else
    let param_type :=
      match param_hint p with Some t => t | None => Tstr end in
    let properties := dict_set name (_get_json_type param_type) (fst acc) in
    match param_default p with
    | None => (properties, snd acc ++ [name])
    | Some _ => (properties, snd acc)
    end.

Definition derive_schema (signature : list SigParameter) : schema :=
  let '(properties, required) := fold_left derive_step signature ([], []) in
  mk_schema (Some "object") (Some properties) (Some required).

(** A parameter the loop does not skip, the type the loop reads for it
    ([type_hints.get(name, str)]), and whether it has no default. *)
Definition model_supplied (p : SigParameter) : bool :=
  negb (list_mem (param_name p) injected_names).

Definition declared_type (p : SigParameter) : pytype :=
  match param_hint p with Some t => t | None => Tstr end.

Definition has_no_default (p : SigParameter) : bool :=
  match param_default p with None => true | Some _ => false end.

(** The entry the loop writes into [properties] for a parameter. *)
Definition entry (p : SigParameter) : string * string :=
  (param_name p, _get_json_type (declared_type p)).

(** [x or default] for an optional string. *)
Definition str_or (x : option string) (default : string) : string :=
  match x with
  | Some (String c s) => String c s
  | _ => default
  end.

(** [_get_tool_metadata]. *)
Definition _get_tool_metadata (func : PyFunction)
    (tool_name description : option string)
    (parameters_override : option schema)
    (terminal : bool) (tags : option (list string)) : ToolMeta :=
  let tool_name := str_or tool_name (fn_name func) in
  let description :=
    str_or description
      match fn_doc func with
      | Some (String c s) => strip (String c s)
      | _ => "No description provided."
      end in
  let tags := match tags with Some t => t | None => [] end in
  let args_schema :=
    match parameters_override with
    | Some override =>
        if schema_truthy override then override
        else derive_schema (fn_signature func)
    | None => derive_schema (fn_signature func)
    end in
  mk_meta tool_name description args_schema func terminal tags.

(** The process-wide tables [TOOLS] and [TOOLS_BY_TAG]. *)
Record Catalog : Type := mk_catalog {
  TOOLS : pydict ToolMeta;
  TOOLS_BY_TAG : pydict (list string)
}.

Definition empty_catalog : Catalog := mk_catalog [] [].

(** [TOOLS_BY_TAG.setdefault(tag, []).append(name)]. *)
Definition tag_append (name : string) (by_tag : pydict (list string))
    (tag : string) : pydict (list string) :=
  match dict_get tag by_tag with
  | Some names => dict_set tag (names ++ [name]) by_tag
  | None => dict_set tag [name] by_tag
  end.

(** [register_tool(...)(func)]: the decorator's effect on the tables. *)
Definition register_tool (tool_name description : option string)
    (parameters_override : option schema)
    (terminal : bool) (tags : option (list string))
    (func : PyFunction) (c : Catalog) : Catalog :=
  let metadata :=
    _get_tool_metadata func tool_name description parameters_override
                       terminal tags in
  mk_catalog
    (dict_set (meta_tool_name metadata) metadata (TOOLS c))
    (fold_left (tag_append (meta_tool_name metadata)) (meta_tags metadata)
               (TOOLS_BY_TAG c)).

(** [Action]. *)
Record Action : Type := mk_action {
  name : string;
  function : PyFunction;
  description : string;
  parameters : schema;
  terminal : bool
}.

(** [Action.execute], called with the arguments as keywords.  Its own
    first parameter is [self], so a key [self] among the arguments cannot
    be bound: the call raises [TypeError] and the function is not called. *)
Definition execute (self : Action) (args : kwargs) : M (world S) pyval :=
  if dict_mem "self" args then raise keyword_clash
  else invoke (fn_name (function self)) (fn_body (function self)) args.

(** [PythonActionRegistry]: the actions of [ActionRegistry] and the
    terminate tool's metadata. *)
Record PythonActionRegistry : Type := mk_registry {
  actions : pydict Action;
  terminate_tool : option ToolMeta
}.

(** [ActionRegistry.register], [get_action] and [get_actions]. *)
Definition register (action : Action) (self : PythonActionRegistry)
    : PythonActionRegistry :=
  mk_registry (dict_set (name action) action (actions self))
              (terminate_tool self).

Definition get_action (self : PythonActionRegistry) (n : string)
    : option Action :=
  dict_get n (actions self).

Definition get_actions (self : PythonActionRegistry) : list Action :=
  dict_values (actions self).

Definition action_of_meta (n : string) (meta : ToolMeta) : Action :=
  mk_action n (meta_function meta) (meta_description meta)
            (meta_parameters meta) (meta_terminal meta).

(** Truth value of an optional list: present and not empty. *)
Definition list_truthy {A : Type} (l : option (list A)) : bool :=
  match l with
  | Some (_ :: _) => true
  | _ => false
  end.

Definition opt_list {A : Type} (l : option (list A)) : list A :=
  match l with Some l => l | None => [] end.

(** One round of the loop of [PythonActionRegistry.__init__]. *)
Definition init_step (tags tool_names : option (list string))
    (self : PythonActionRegistry) (item : string * ToolMeta)
    : PythonActionRegistry :=
  let '(n, meta) := item in
  let self :=
    if String.eqb n "terminate"
    then mk_registry (actions self) (Some meta)
    else self in
  if list_truthy tool_names && negb (list_mem n (opt_list tool_names))
  then self
  else if list_truthy tags
          && negb (existsb (fun tag => list_mem tag (meta_tags meta))
                           (opt_list tags))
  then self
  else register (action_of_meta n meta) self.

(** [PythonActionRegistry(tags, tool_names)], reading the table [TOOLS]. *)
Definition PythonActionRegistry_init (tags tool_names : option (list string))
    (tools : pydict ToolMeta) : PythonActionRegistry :=
  fold_left (init_step tags tool_names) tools (mk_registry [] None).

Definition terminate_not_found : exn :=
  mk_exn RuntimeError "Terminate tool not found in registry." "".

(** [PythonActionRegistry.register_terminate_tool].  A metadata dictionary
    always has its six keys, so it is false only when it is [None]. *)
Definition register_terminate_tool : M PythonActionRegistry unit :=
  fun self =>
    match terminate_tool self with
    | None => (Raised terminate_not_found, self)
    | Some meta =>
        (Returned tt,
         register (mk_action "terminate" (meta_function meta)
                             (meta_description meta) (meta_parameters meta)
                             (meta_terminal meta))
                  self)
    end.

(** The two filters of [__init__], as one test on an entry of [TOOLS]:
    the entry is registered when neither [continue] is taken. *)
Definition selected (tags tool_names : option (list string))
    (item : string * ToolMeta) : bool :=
  negb (list_truthy tool_names
        && negb (list_mem (fst item) (opt_list tool_names)))
  && negb (list_truthy tags
           && negb (existsb (fun tag => list_mem tag (meta_tags (snd item)))
                            (opt_list tags))).

(** The entry of [actions] made from an entry of [TOOLS]. *)
Definition action_entry (item : string * ToolMeta) : string * Action :=
  (fst item, action_of_meta (fst item) (snd item)).

End Tools.

Arguments PyFunction S : clear implicits.
Arguments ToolMeta S : clear implicits.
Arguments Catalog S : clear implicits.
Arguments Action S : clear implicits.
Arguments PythonActionRegistry S : clear implicits.

(** [Goal]. *)
Record Goal : Type := mk_goal {
  goal_name : string;
  goal_description : string
}.

End Registry.

(* ====================================================================== *)
(** * agent_core/environment.py *)
(* ====================================================================== *)

Module Environment.
Import Py Registry.

Section Env.
Context {S : Type} {interp : Interpreter}.

(** The optional callback [on_post_execute(action, args, result)]. *)
Definition post_hook : Type := Action S -> kwargs -> pyval -> M S pyval.

Record Environment : Type := mk_environment {
  dry_run : bool;
  on_post_execute : option post_hook;
  default_max_message_length : Z
}.

(** The execution record.  [result = PNone] and [error = None],
    [traceback = None] are the initial [None] entries. *)
Record ExecutionRecord : Type := mk_record {
  tool_executed : bool;
  action_name : string;
  args_used : kwargs;
  result : pyval;
  error : option string;
  traceback : option string;
  timestamp : string
}.

Definition set_error (e : option string) (r : ExecutionRecord) : ExecutionRecord :=
  mk_record (tool_executed r) (action_name r) (args_used r) (result r)
            e (traceback r) (timestamp r).

Definition set_traceback (t : option string) (r : ExecutionRecord) : ExecutionRecord :=
  mk_record (tool_executed r) (action_name r) (args_used r) (result r)
            (error r) t (timestamp r).

Definition set_tool_executed (b : bool) (r : ExecutionRecord) : ExecutionRecord :=
  mk_record b (action_name r) (args_used r) (result r)
            (error r) (traceback r) (timestamp r).

Definition set_result (v : pyval) (r : ExecutionRecord) : ExecutionRecord :=
  mk_record (tool_executed r) (action_name r) (args_used r) v
            (error r) (traceback r) (timestamp r).

(** [time.strftime] reads the clock, a part of the external state. *)
Variable strftime : S -> string.

Definition _now_iso : M (world S) string :=
  fun w => (Returned (strftime (ext w)), w).

(** The names the schema requires: [params_schema.get("required", [])]
    where [params_schema = action.parameters or {}]. *)
Definition required_of (action : Action S) : list string :=
  match sch_required (parameters action) with
  | Some required => required
  | None => []
  end.

(** [[p for p in required if p not in args]]. *)
Definition missing_of (action : Action S) (args : kwargs) : list string :=
  filter (fun p => negb (dict_mem p args)) (required_of action).

(** [Environment._validate_args]. *)
Definition _validate_args (action : Action S) (args : kwargs) : option string :=
  match missing_of action args with
  | [] => None
  | missing =>
      Some ("Missing required parameters: " ++ repr_str_list missing)%string
  end.

(** Truth value of an optional string: present and not empty. *)
Definition str_truthy (s : option string) : bool :=
  match s with
  | Some (String _ _) => true
  | _ => false
  end.

(** The callback, with its own [try]/[except Exception]: a failure of the
    callback is logged and dropped. *)
Definition run_post_hook (self : Environment) (action : Action S)
    (args : kwargs) (res : pyval) : M (world S) unit :=
  match on_post_execute self with
  | Some hook =>
      try_except
        (_ <- on_ext (hook action args res) ;; ret tt)%py
        Exception
        (fun _ => ret tt)
  | None => ret tt
  end.

(** [Environment.execute_action].  The record is created first; the [try]
    body calls the action before it touches the record, so the handler sees
    the record as created. *)
Definition execute_action (self : Environment) (action : Action S)
    (args : kwargs) : M (world S) ExecutionRecord :=
  (ts <- _now_iso ;;
   let record := mk_record false (name action) args PNone None None ts in
   let validation_err := _validate_args action args in
   if str_truthy validation_err
   then ret (set_error validation_err record)
   else if dry_run self
   then ret (set_result PNone (set_tool_executed false record))
   else
     try_except
       (res <- execute action args ;;
        let record := set_result res (set_tool_executed true record) in
        run_post_hook self action args res ;;;
        ret record)
       Exception
       (fun exc =>
          ret (set_traceback (Some (exc_traceback exc))
                 (set_error (Some (exc_str exc)) record))))%py.

(** The record as created at the top of [execute_action]. *)
Definition fresh_record (action : Action S) (args : kwargs) (w : world S)
    : ExecutionRecord :=
  mk_record false (name action) args PNone None None (strftime (ext w)).

(** The world after the callable was invoked with [args]. *)
Definition after_call (action : Action S) (args : kwargs) (w : world S) (s' : S)
    : world S :=
  mk_world (invocations w ++ [mk_pycall (fn_name (function action)) args]) s'.

(** The invariant of a record, as the data model states it. *)
Definition record_invariant (r : ExecutionRecord) : Prop :=
  (tool_executed r = true -> error r = None)
  /\ (error r <> None -> tool_executed r = false).

End Env.

Arguments Environment S : clear implicits.

End Environment.

(* ====================================================================== *)
(** * json.loads

    The decoder of the standard library's [json] package, with its default
    settings: [scan_once], [JSONObject], [JSONArray], [scanstring] (strict)
    and the number pattern.  A text is the sequence of its UTF-8 bytes; a
    [\uXXXX] escape decodes to the bytes of its code point.  Two limits of
    the interpreter end a decoding with another exception than
    [JSONDecodeError]: entering an object or an array takes one level of the
    room for nested calls ([RecursionError] when there is none left), and
    [int] refuses a text of more digits than the interpreter allows
    ([ValueError]). *)
(* ====================================================================== *)

Module Json.
Import Py.

Local Open Scope char_scope.

(** What scanning a text gives: a value and the rest of the text, a
    [JSONDecodeError], or the exception that interrupted the decoder. *)
Inductive scan (A : Type) : Type :=
| Scanned (a : A) (rest : string)
| Malformed
| Interrupted (e : exn)
| OutOfFuel.

Arguments Scanned {A} a rest.
Arguments Malformed {A}.
Arguments Interrupted {A} e.
Arguments OutOfFuel {A}.

(** A result that is a value or a [JSONDecodeError]. *)
Definition is_plain {A : Type} (r : scan A) : Prop :=
  match r with
  | Scanned _ _ | Malformed => True
  | Interrupted _ | OutOfFuel => False
  end.

Definition scan_map {A B : Type} (f : A -> B) (r : scan A) : scan B :=
  match r with
  | Scanned a rest => Scanned (f a) rest
  | Malformed => Malformed
  | Interrupted e => Interrupted e
  | OutOfFuel => OutOfFuel
  end.

(** The characters of [WHITESPACE]: space, tab, line feed, carriage return. *)
Definition is_ws (c : ascii) : bool :=
  Ascii.eqb c " " || Ascii.eqb c "009" || Ascii.eqb c "010" || Ascii.eqb c "013".

Fixpoint skip_ws (s : string) : string :=
  match s with
  | String c s' => if is_ws c then skip_ws s' else s
  | EmptyString => s
  end.

Definition is_digit (c : ascii) : bool :=
  let n := nat_of_ascii c in ((48 <=? n) && (n <=? 57))%nat.

Definition hex_value (c : ascii) : option N :=
  let n := nat_of_ascii c in
  if ((48 <=? n) && (n <=? 57))%nat then Some (N.of_nat (n - 48))
  else if ((65 <=? n) && (n <=? 70))%nat then Some (N.of_nat (n - 55))
  else if ((97 <=? n) && (n <=? 102))%nat then Some (N.of_nat (n - 87))
  else None.

(** The four hexadecimal digits of a [\uXXXX] escape. *)
Definition hex4 (a b c d : ascii) : option N :=
  match hex_value a, hex_value b, hex_value c, hex_value d with
  | Some x, Some y, Some z, Some w => Some (((x * 16 + y) * 16 + z) * 16 + w)%N
  | _, _, _, _ => None
  end.

Definition byte (n : N) : ascii := ascii_of_N n.

(** The UTF-8 bytes of a code point (a lone surrogate is encoded like any
    other three-byte code point). *)
Definition utf8 (cp : N) : string :=
  (if cp <? 128 then String (byte cp) EmptyString
   else if cp <? 2048 then
     String (byte (192 + cp / 64)) (String (byte (128 + cp mod 64)) EmptyString)
   else if cp <? 65536 then
     String (byte (224 + cp / 4096))
       (String (byte (128 + (cp / 64) mod 64))
          (String (byte (128 + cp mod 64)) EmptyString))
   else
     String (byte (240 + cp / 262144))
       (String (byte (128 + (cp / 4096) mod 64))
          (String (byte (128 + (cp / 64) mod 64))
             (String (byte (128 + cp mod 64)) EmptyString))))%N.

Definition is_high_surrogate (u : N) : bool := ((55296 <=? u) && (u <=? 56319))%N.
Definition is_low_surrogate (u : N) : bool := ((56320 <=? u) && (u <=? 57343))%N.

Definition join_surrogates (hi lo : N) : N :=
  (65536 + (((hi - 55296) * 1024) + (lo - 56320)))%N.

(** The [BACKSLASH] table. *)
Definition unescape (esc : ascii) : option ascii :=
  if Ascii.eqb esc dquote then Some dquote
  else if Ascii.eqb esc backslash then Some backslash
  else if Ascii.eqb esc "/" then Some "/"
  else if Ascii.eqb esc "b" then Some "008"
  else if Ascii.eqb esc "f" then Some "012"
  else if Ascii.eqb esc "n" then Some "010"
  else if Ascii.eqb esc "r" then Some "013"
  else if Ascii.eqb esc "t" then Some "009"
  else None.

Definition emit (chunk : string) (r : scan string) : scan string :=
  scan_map (String.append chunk) r.

(** [scanstring], from the character after the opening quote. *)
Fixpoint scanstring (s : string) : scan string :=
  match s with
  | EmptyString => Malformed
  | String c rest =>
      if Ascii.eqb c dquote then Scanned EmptyString rest
      else if Ascii.eqb c backslash then
        match rest with
        | EmptyString => Malformed
        | String esc rest1 =>
            if Ascii.eqb esc "u" then
              match rest1 with
              | String h1 (String h2 (String h3 (String h4 rest2))) =>
                  match hex4 h1 h2 h3 h4 with
                  | None => Malformed
                  | Some uni =>
                      if is_high_surrogate uni then
                        match rest2 with
                        | String b (String u rest3) =>
                            if Ascii.eqb b backslash && Ascii.eqb u "u" then
                              match rest3 with
                              | String g1 (String g2 (String g3 (String g4 rest4))) =>
                                  match hex4 g1 g2 g3 g4 with
                                  | None => Malformed
                                  | Some uni2 =>
                                      if is_low_surrogate uni2
                                      then emit (utf8 (join_surrogates uni uni2))
                                                (scanstring rest4)
                                      else emit (utf8 uni) (scanstring rest2)
                                  end
                              | _ => Malformed
                              end
                            else emit (utf8 uni) (scanstring rest2)
                        | _ => emit (utf8 uni) (scanstring rest2)
                        end
                      else emit (utf8 uni) (scanstring rest2)
                  end
              | _ => Malformed
              end
            else
              match unescape esc with
              | Some ch => emit (String ch EmptyString) (scanstring rest1)
              | None => Malformed
              end
        end
      else if (nat_of_ascii c <? 32)%nat then Malformed
      else emit (String c EmptyString) (scanstring rest)
  end.

(** The longest prefix of digits, and what follows it. *)
Fixpoint span_digits (s : string) : string * string :=
  match s with
  | String c s' =>
      if is_digit c
      then let '(ds, rest) := span_digits s' in (String c ds, rest)
      else (EmptyString, s)
  | EmptyString => (EmptyString, EmptyString)
  end.

(** The digits of the integer part of the number pattern: a single zero,
    or a digit string with no leading zero. *)
Definition match_digits (body : string) : option (string * string) :=
  match body with
  | String c rest =>
      if Ascii.eqb c "0" then Some (String c EmptyString, rest)
      else if is_digit c then Some (span_digits body)
      else None
  | EmptyString => None
  end.

(** The integer part of the number pattern, with its optional minus sign,
    and the rest. *)
Definition match_integer (s : string) : option (string * string) :=
  match s with
  | String c s' =>
      if Ascii.eqb c "-"
      then match match_digits s' with
           | Some (ds, rest) => Some (String c ds, rest)
           | None => None
           end
      else match_digits s
  | EmptyString => None
  end.

(** The optional fraction: a dot and at least one digit. *)
Definition match_frac (s : string) : string * string :=
  match s with
  | String "." s' =>
      match span_digits s' with
      | (EmptyString, _) => (EmptyString, s)
      | (ds, rest) => (String "." ds, rest)
      end
  | _ => (EmptyString, s)
  end.

(** The optional exponent: [e] or [E], an optional sign, at least one digit. *)
Definition match_exp (s : string) : string * string :=
  match s with
  | String e s' =>
      if Ascii.eqb e "e" || Ascii.eqb e "E" then
        let '(sign, body) :=
          match s' with
          | String c s'' =>
              if Ascii.eqb c "-" || Ascii.eqb c "+"
              then (String c EmptyString, s'')
              else (EmptyString, s')
          | EmptyString => (EmptyString, s')
          end in
        match span_digits body with
        | (EmptyString, _) => (EmptyString, s)
        | (ds, rest) => (String e (sign ++ ds), rest)
        end
      else (EmptyString, s)
  | EmptyString => (EmptyString, s)
  end.

(** [int(text)] for the text of an integer part. *)
Fixpoint digits_value (acc : Z) (s : string) : Z :=
  match s with
  | String c s' => digits_value (10 * acc + Z.of_nat (nat_of_ascii c - 48)) s'
  | EmptyString => acc
  end.

Definition int_of (text : string) : Z :=
  match text with
  | String "-" ds => (- digits_value 0 ds)%Z
  | _ => digits_value 0 text
  end.

(** The digits of the text of an integer part, its sign apart. *)
Definition digits_of (text : string) : nat :=
  match text with
  | String "-" ds => String.length ds
  | _ => String.length text
  end.

(** The [ValueError] of [int] for a text of [digits] digits, more than the
    [limit]. *)
Definition digits_error (limit digits : nat) : exn :=
  mk_exn ValueError
    ("Exceeds the limit (" ++ str_of_Z (Z.of_nat limit)
     ++ " digits) for integer string conversion: value has "
     ++ str_of_Z (Z.of_nat digits)
     ++ " digits; use sys.set_int_max_str_digits() to increase the limit")%string
    "".

(** The [RecursionError] of the decoder, on entering an object or an
    array. *)
Definition recursion_error (container : string) : exn :=
  mk_exn RecursionError
    ("maximum recursion depth exceeded while decoding a JSON " ++ container
     ++ " from a unicode string")%string
    "".

Section Decoder.
Context {interp : Interpreter}.

(** [int(text)]: texts of up to 640 digits are always converted; a longer
    one is refused when a limit is set and the text exceeds it. *)
Definition int_conversion (text : string) : outcome Z :=
  let digits := digits_of text in
  if ((640 <? digits) && (0 <? int_max_str_digits)
      && (int_max_str_digits <? digits))%nat
  then Raised (digits_error int_max_str_digits digits)
  else Returned (int_of text).

(** The number branch of [scan_once]: [None] when the pattern does not
    match. *)
Definition match_number (s : string) : option (scan pyval) :=
  match match_integer s with
  | None => None
  | Some (integer, rest) =>
      let '(frac, rest1) := match_frac rest in
      let '(exp, rest2) := match_exp rest1 in
      match frac, exp with
      | EmptyString, EmptyString =>
          match int_conversion integer with
          | Returned z => Some (Scanned (PInt z) rest2)
          | Raised e => Some (Interrupted e)
          end
      | _, _ => Some (Scanned (PFloat (integer ++ frac ++ exp)%string) rest2)
      end
  end.

(** [s[idx:idx + len(word)] == word], giving what follows the word. *)
Fixpoint strip_prefix (word s : string) : option string :=
  match word, s with
  | EmptyString, _ => Some s
  | String a word', String b s' =>
      if Ascii.eqb a b then strip_prefix word' s' else None
  | String _ _, EmptyString => None
  end.

(** The branches of [scan_once] for atoms: the three literals, a number,
    and the constants [NaN], [Infinity] and [-Infinity]. *)
Definition scan_atom (s : string) : scan pyval :=
  match strip_prefix "null" s with
  | Some rest => Scanned PNone rest
  | None =>
  match strip_prefix "true" s with
  | Some rest => Scanned (PBool true) rest
  | None =>
  match strip_prefix "false" s with
  | Some rest => Scanned (PBool false) rest
  | None =>
  match match_number s with
  | Some scanned => scanned
  | None =>
  match strip_prefix "NaN" s with
  | Some rest => Scanned (PFloat "NaN") rest
  | None =>
  match strip_prefix "Infinity" s with
  | Some rest => Scanned (PFloat "Infinity") rest
  | None =>
  match strip_prefix "-Infinity" s with
  | Some rest => Scanned (PFloat "-Infinity") rest
  | None => Malformed
  end end end end end end end.

(** [dict(pairs)]. *)
Definition dict_of_pairs (pairs : list (string * pyval)) : pydict pyval :=
  fold_left (fun d kv => dict_set (fst kv) (snd kv) d) pairs [].

(** [scan_once] with [JSONObject] and [JSONArray]; each call spends one
    unit of fuel, and entering an object or an array takes one level of
    [room]. *)
Fixpoint scan_once (fuel room : nat) (s : string) {struct fuel} : scan pyval :=
  match fuel with
  | O => OutOfFuel
  | S fuel' =>
      match s with
      | EmptyString => Malformed
      | String nextchar rest =>
          if Ascii.eqb nextchar dquote then scan_map PStr (scanstring rest)
          else if Ascii.eqb nextchar "{" then
            match room with
            | O => Interrupted (recursion_error "object")
            | S room' => JSONObject fuel' room' rest
            end
          else if Ascii.eqb nextchar "[" then
            match room with
            | O => Interrupted (recursion_error "array")
            | S room' => JSONArray fuel' room' rest
            end
          else scan_atom s
      end
  end

with JSONObject (fuel room : nat) (s : string) {struct fuel} : scan pyval :=
  match fuel with
  | O => OutOfFuel
  | S fuel' =>
      match skip_ws s with
      | String c rest =>
          if Ascii.eqb c "}" then Scanned (PDict []) rest
          else if Ascii.eqb c dquote then object_pairs fuel' room [] rest
          else Malformed
      | EmptyString => Malformed
      end
  end

with object_pairs (fuel room : nat) (pairs : list (string * pyval))
    (s : string) {struct fuel} : scan pyval :=
  match fuel with
  | O => OutOfFuel
  | S fuel' =>
      match scanstring s with
      | Scanned key after_key =>
          match skip_ws after_key with
          | String colon after_colon =>
              if Ascii.eqb colon ":" then
                match scan_once fuel' room (skip_ws after_colon) with
                | Scanned value after_value =>
                    let pairs := pairs ++ [(key, value)] in
                    match skip_ws after_value with
                    | String c rest =>
                        if Ascii.eqb c "}"
                        then Scanned (PDict (dict_of_pairs pairs)) rest
                        else if Ascii.eqb c "," then
                          match skip_ws rest with
                          | String q rest' =>
                              if Ascii.eqb q dquote
                              then object_pairs fuel' room pairs rest'
                              else Malformed
                          | EmptyString => Malformed
                          end
                        else Malformed
                    | EmptyString => Malformed
                    end
                | Malformed => Malformed
                | Interrupted e => Interrupted e
                | OutOfFuel => OutOfFuel
                end
              else Malformed
          | EmptyString => Malformed
          end
      | Malformed => Malformed
      | Interrupted e => Interrupted e
      | OutOfFuel => OutOfFuel
      end
  end

with JSONArray (fuel room : nat) (s : string) {struct fuel} : scan pyval :=
  match fuel with
  | O => OutOfFuel
  | S fuel' =>
      match skip_ws s with
      | String c rest =>
          if Ascii.eqb c "]" then Scanned (PList []) rest
          else array_values fuel' room [] (skip_ws s)
      | EmptyString => Malformed
      end
  end

with array_values (fuel room : nat) (values : list pyval) (s : string)
    {struct fuel} : scan pyval :=
  match fuel with
  | O => OutOfFuel
  | S fuel' =>
      match scan_once fuel' room s with
      | Scanned value after_value =>
          let values := values ++ [value] in
          match skip_ws after_value with
          | String c rest =>
              if Ascii.eqb c "]" then Scanned (PList values) rest
              else if Ascii.eqb c ","
              then array_values fuel' room values (skip_ws rest)
              else Malformed
          | EmptyString => Malformed
          end
      | Malformed => Malformed
      | Interrupted e => Interrupted e
      | OutOfFuel => OutOfFuel
      end
  end.

(** Fuel that is enough for any text of the given length. *)
Definition fuel_for (s : string) : nat := 3 * String.length s + 3.

Definition json_decode_error : exn := mk_exn JSONDecodeError "" "".

(** What the model raises if the fuel ran out, which it never does. *)
Definition out_of_fuel : exn := mk_exn BaseException "" "".

(** The byte order mark U+FEFF, as UTF-8. *)
Definition bom : string := String "239" (String "187" (String "191" EmptyString)).

(** [json.loads(s)] for a string [s]: no byte order mark, one value between
    optional white space, and nothing after it. *)
Definition loads (s : string) : outcome pyval :=
  match strip_prefix bom s with
  | Some _ => Raised json_decode_error
  | None =>
      match scan_once (fuel_for s) recursion_room (skip_ws s) with
      | Scanned obj rest =>
          match skip_ws rest with
          | EmptyString => Returned obj
          | String _ _ => Raised json_decode_error
          end
      | Malformed => Raised json_decode_error
      | Interrupted e => Raised e
      | OutOfFuel => Raised out_of_fuel
      end
  end.

End Decoder.

(** The exceptions the limits raise. *)
Definition is_limit_error {interp : Interpreter} (e : exn) : Prop :=
  e = recursion_error "object"
  \/ e = recursion_error "array"
  \/ exists digits,
       e = digits_error int_max_str_digits digits
       /\ 640 < digits /\ 0 < int_max_str_digits
       /\ int_max_str_digits < digits.

(** ** Texts that stay within the limits

    The decoder enters at most as many objects and arrays as the text has
    opening brackets and braces, and an integer has at most as many digits as
    the text has. *)
Fixpoint count_chars (p : ascii -> bool) (s : string) : nat :=
  match s with
  | EmptyString => 0
  | String c s' => (if p c then 1 else 0) + count_chars p s'
  end.

Definition is_open (c : ascii) : bool := Ascii.eqb c "{" || Ascii.eqb c "[".

(** [rest] has no more characters of any kind than [s], as what is left of
    [s] after scanning a part of it. *)
Definition shrinks (rest s : string) : Prop :=
  forall p, count_chars p rest <= count_chars p s.

(** A text the decoder can scan with [room] levels left. *)
Definition fits {interp : Interpreter} (room : nat) (s : string) : Prop :=
  count_chars is_open s <= room
  /\ (count_chars is_digit s <= 640
      \/ int_max_str_digits = 0
      \/ count_chars is_digit s <= int_max_str_digits).

Definition within_limits {interp : Interpreter} (s : string) : bool :=
  ((count_chars is_open s <=? recursion_room)
   && ((count_chars is_digit s <=? 640)
       || (int_max_str_digits =? 0)
       || (count_chars is_digit s <=? int_max_str_digits)))%nat.

(** The number of characters held in the strings of a value (dictionary
    keys apart): a measure of how much text a value carries. *)
Fixpoint weight (v : pyval) : nat :=
  match v with
  | PStr s => String.length s
  | PList items => list_sum (map weight items)
  | PDict items => list_sum (map (fun kv => weight (snd kv)) items)
  | _ => 0
  end.

Definition weight_items (items : list (string * pyval)) : nat :=
  list_sum (map (fun kv => weight (snd kv)) items).

(** Scanning [s] gave [v] and left [rest]: the text of [v], beyond what the
    caller already [carried], was taken from [s], and at least one more
    character with it. *)
Definition consumes (s : string) (v : pyval) (rest : string) (carried : nat) : Prop :=
  weight v + String.length rest + 1 <= carried + String.length s.

End Json.

(* ====================================================================== *)
(** * agent_core/base_agent.py *)
(* ====================================================================== *)

Module BaseAgent.
Import Py Memory Registry.

(** An entry of [Prompt.tools]. *)
Record ToolSpec : Type := mk_toolspec {
  spec_type : string;
  spec_name : string;
  spec_description : string;
  spec_parameters : schema
}.

(** [Prompt]. *)
Record Prompt : Type := mk_prompt {
  prompt_messages : list Message;
  prompt_tools : list ToolSpec;
  prompt_metadata : pydict pyval
}.

(** [OpenRouterClient], seen through its one operation:
    [complete(prompt, model, max_tokens)] consults the provider, a part of
    the external state, and returns the reply's text or raises. *)
Record OpenRouterClient (S : Type) : Type := mk_client {
  complete : Prompt -> string -> Z -> M S string
}.

Arguments complete {S} _ _ _ _.

End BaseAgent.

(* ====================================================================== *)
(** * language.py *)
(* ====================================================================== *)

Module Language.
Import Py Memory Registry BaseAgent.

Definition sep : string :=
  String newline ("-------------------" ++ String newline EmptyString).

(** [FunctionCallingLanguage.format_goals]. *)
Definition format_goals (goals : list Goal) : list Message :=
  let content :=
    join (String newline (String newline EmptyString))
         (map (fun g => (goal_name g ++ ":" ++ sep ++ goal_description g ++ sep)%string)
              goals) in
  [mk_message "system" content].

(** [FunctionCallingLanguage.format_memory]. *)
Definition format_memory (memory : AgentMemory) : list Message :=
  map (fun msg => mk_message (role msg) (content msg)) (messages memory).

(** [FunctionCallingLanguage.format_actions]. *)
Definition format_actions {S : Type} (actions : list (Action S)) : list ToolSpec :=
  map (fun action =>
         mk_toolspec "function" (name action)
                     (substring 0 1024 (description action))
                     (parameters action))
      actions.

(** [FunctionCallingLanguage.construct_prompt]. *)
Definition construct_prompt {S : Type} (actions : list (Action S))
    (goals : list Goal) (memory : AgentMemory) : Prompt :=
  mk_prompt (format_goals goals ++ format_memory memory)
            (format_actions actions) [].

(** The fallback intent, [{"tool": "terminate", "args": {"message": response}}]. *)
Definition terminate_intent (response : string) : pyval :=
  PDict [("tool", PStr "terminate");
         ("args", PDict [("message", PStr response)])].

(** [FunctionCallingLanguage.parse_response]. *)
Definition parse_response {S : Type} {interp : Interpreter}
    (response : string) : M S pyval :=
  try_except
    (lift_outcome (Json.loads response))
    JSONDecodeError
    (fun _ => ret (terminate_intent response)).

End Language.

(* ====================================================================== *)
(** * main.py *)
(* ====================================================================== *)

Module Main.
Import Py Memory Registry Environment BaseAgent Language.

Section Loop.
Context {S : Type} {interp : Interpreter}.

(** What the library gives the loop: the clock's rendering, [json.dumps]
    with [ensure_ascii=False] (it raises on a value it cannot serialise),
    and [str] of the values whose text is not spelled out below. *)
Variable strftime : S -> string.
Variable json_dumps : pyval -> outcome string.
Variable str_other : pyval -> string.

(** [str(v)]. *)
Definition py_str (v : pyval) : string :=
  match v with
  | PStr s => s
  | PNone => "None"
  | PBool true => "True"
  | PBool false => "False"
  | PInt z => str_of_Z z
  | other => str_other other
  end.

(** The lines [run_agent_loop] writes to its logger, by their content. *)
Inductive log_entry : Type :=
| LogStarting (task : string)
| LogIteration (iteration max_iterations : Z)
| LogLLMFailed (e : exn)
| LogRawResponse (raw_response : string)
| LogTermination (message : pyval)
| LogRequested (tool_name : pyval) (args : kwargs)
| LogNotFound (err_msg : string)
| LogExecution (exec_record : ExecutionRecord)
| LogTerminal
| LogFinished (memory_length : Z).

(** The [components] dictionary. *)
Record Components : Type := mk_components {
  language : unit;
  registry : PythonActionRegistry S;
  env : Environment S;
  client : OpenRouterClient S
}.

(** What a run changes: the memory object, the world, the log. *)
Record agent_state : Type := mk_state {
  st_memory : AgentMemory;
  st_world : world S;
  st_log : list log_entry
}.

Definition in_memory {A : Type} (m : M AgentMemory A) : M agent_state A :=
  fun st =>
    match m (st_memory st) with
    | (o, mem') => (o, mk_state mem' (st_world st) (st_log st))
    end.

Definition in_world {A : Type} (m : M (world S) A) : M agent_state A :=
  fun st =>
    match m (st_world st) with
    | (o, w') => (o, mk_state (st_memory st) w' (st_log st))
    end.

Definition logger (entry : log_entry) : M agent_state unit :=
  fun st =>
    (Returned tt, mk_state (st_memory st) (st_world st) (st_log st ++ [entry])).

(** The two fixed goals. *)
Definition goals : list Goal :=
  [mk_goal "Gather Information" "Read project files and build a README.";
   mk_goal "Terminate" "Call terminate when the README is ready."].

Definition attribute_error : exn :=
  mk_exn AttributeError "object has no attribute 'get'" "".
Definition unhashable : exn := mk_exn TypeError "unhashable type" "".

(** [parsed.get(key)] on whatever [parse_response] returned. *)
Definition parsed_get (parsed : pyval) (key : string) : outcome pyval :=
  match parsed with
  | PDict d =>
      Returned match dict_get key d with Some v => v | None => PNone end
  | _ => Raised attribute_error
  end.

(** [registry.get_action(tool_name)] for a decoded name: a dictionary
    lookup hashes its key, and a string key equals no number. *)
Definition lookup_action (reg : PythonActionRegistry S) (tool_name : pyval)
    : outcome (option (Action S)) :=
  match tool_name with
  | PStr n => Returned (get_action reg n)
  | PList _ | PDict _ => Raised unhashable
  | _ => Returned None
  end.

Definition opt_str (s : option string) : pyval :=
  match s with Some s => PStr s | None => PNone end.

(** The execution record as the dictionary it is. *)
Definition record_dict (r : ExecutionRecord) : pyval :=
  PDict [("tool_executed", PBool (tool_executed r));
         ("action_name", PStr (action_name r));
         ("args_used", PDict (args_used r));
         ("result", result r);
         ("error", opt_str (error r));
         ("traceback", opt_str (traceback r));
         ("timestamp", PStr (timestamp r))].

(** [tool_name is None or tool_name == "terminate"]. *)
Definition requests_termination (tool_name : pyval) : bool :=
  match tool_name with
  | PNone => true
  | PStr n => String.eqb n "terminate"
  | _ => false
  end.

(** [f"Requested tool '{tool_name}' not found in registry."]. *)
Definition not_found_message (tool_name : string) : string :=
  ("Requested tool '" ++ tool_name ++ "' not found in registry.")%string.

Inductive flow : Type := Next | Break.

(** The body of the [for] loop; [Next] is both [continue] and falling off
    the end of the body. *)
Definition iteration_body (components : Components) (model : string)
    (max_iterations iteration : Z) : M agent_state flow :=
  (logger (LogIteration iteration max_iterations) ;;;
   st <- get ;;
   let actions := get_actions (registry components) in
   let prompt := construct_prompt actions goals (st_memory st) in
   reply <-
     try_except
       (raw <- in_world (on_ext (complete (client components) prompt model 1024)) ;;
        ret (Some raw))
       Exception
       (fun e =>
          logger (LogLLMFailed e) ;;;
          in_memory (add_message (PStr "assistant")
                       (PStr ("[error] LLM call failed: " ++ exc_str e)%string)) ;;;
          ret None) ;;
   match reply with
   | None => ret Break
   | Some raw_response =>
       logger (LogRawResponse raw_response) ;;;
       parsed <- parse_response raw_response ;;
       tool_name <- lift_outcome (parsed_get parsed "tool") ;;
       parsed_args <- lift_outcome (parsed_get parsed "args") ;;
       let args := match parsed_args with PDict a => a | _ => [] end in
       if requests_termination tool_name
       then
         let message :=
           match dict_get "message" args with Some v => v | None => PNone end in
         logger (LogTermination message) ;;;
         in_memory (add_message (PStr "assistant") (PStr (py_str message))) ;;;
         ret Break
       else
           logger (LogRequested tool_name args) ;;;
           action <- lift_outcome (lookup_action (registry components) tool_name) ;;
           match action with
           | None =>
               let err_msg := not_found_message (py_str tool_name) in
               logger (LogNotFound err_msg) ;;;
               in_memory (add_message (PStr "assistant") (PStr err_msg)) ;;;
               ret Next
           | Some action =>
               exec_record <-
                 in_world (execute_action strftime (env components) action args) ;;
               logger (LogExecution exec_record) ;;;
               assistant_content <-
                 lift_outcome
                   (json_dumps (PDict [("tool", tool_name);
                                       ("args", PDict args);
                                       ("result", record_dict exec_record)])) ;;
               in_memory (add_message (PStr "assistant") (PStr assistant_content)) ;;;
               if terminal action
               then (logger LogTerminal ;;; ret Break)
               else ret Next
           end
   end)%py.

(** [for iteration in iterations: body]. *)
Fixpoint for_each (iterations : list Z) (body : Z -> M agent_state flow)
    : M agent_state unit :=
  match iterations with
  | [] => ret tt
  | iteration :: rest =>
      (f <- body iteration ;;
       match f with
       | Break => ret tt
       | Next => for_each rest body
       end)%py
  end.

(** [range(lo, hi)]. *)
Definition range (lo hi : Z) : list Z :=
  map (fun k => (lo + Z.of_nat k)%Z) (seq 0 (Z.to_nat (hi - lo))).

(** [run_agent_loop]; the memory it returns is the one of the final state. *)
Definition run_agent_loop (task : string) (components : Components)
    (model : string) (max_iterations : Z) : M agent_state unit :=
  (in_memory (add_message (PStr "user") (PStr task)) ;;;
   logger (LogStarting task) ;;;
   for_each (range 1 (max_iterations + 1))
            (iteration_body components model max_iterations) ;;;
   st <- get ;;
   logger (LogFinished (len (st_memory st))))%py.

(** Readings of a log: the iteration numbers announced, the diagnostics
    for unknown tools, and the replies received, each in order. *)
Definition logged_iterations (log : list log_entry) : list Z :=
  flat_map (fun e => match e with LogIteration i _ => [i] | _ => [] end) log.

Definition logged_not_found (log : list log_entry) : list string :=
  flat_map (fun e => match e with LogNotFound m => [m] | _ => [] end) log.

Definition logged_replies (log : list log_entry) : list string :=
  flat_map (fun e => match e with LogRawResponse r => [r] | _ => [] end) log.

(** The reply [raw] decodes to a tool call that names [tool_name], which is
    neither the terminate tool nor an action of the registry. *)
Definition requests_unknown_tool (reg : PythonActionRegistry S)
    (raw tool_name : string) : Prop :=
  exists d,
    Json.loads raw = Returned (PDict d)
    /\ dict_get "tool" d = Some (PStr tool_name)
    /\ tool_name <> "terminate"
    /\ get_action reg tool_name = None.

(** The stub of the ceiling property: whatever the prompt and the state of
    the provider, [complete] succeeds with a reply that requests an unknown
    tool. *)
Definition always_requests_unknown_tool (components : Components)
    (model : string) : Prop :=
  forall prompt s, exists raw s' tool_name,
    complete (client components) prompt model 1024 s = (Returned raw, s')
    /\ requests_unknown_tool (registry components) raw tool_name.

(** The stored form of an assistant message. *)
Definition assistant (text : string) : Message := mk_message "assistant" text.

(** The state in which the loop starts: the task is stored as a user
    message and the opening line is logged. *)
Definition started (task : string) (st : agent_state) : agent_state :=
  mk_state (snd (add_message (PStr "user") (PStr task) (st_memory st)))
           (st_world st) (st_log st ++ [LogStarting task]).

(** What a round reads off an intent [parsed]: [parsed.get("tool")], the
    [args] it uses (the empty dictionary unless [parsed.get("args", {})] is
    a dictionary) and [args.get("message")]. *)
Definition intent_tool (intent : list (string * pyval)) : pyval :=
  match dict_get "tool" intent with Some v => v | None => PNone end.

Definition intent_args (intent : list (string * pyval))
    : list (string * pyval) :=
  match
    match dict_get "args" intent with Some v => v | None => PNone end
  with
  | PDict a => a
  | _ => []
  end.

Definition intent_message (intent : list (string * pyval)) : pyval :=
  match dict_get "message" (intent_args intent) with
  | Some v => v
  | None => PNone
  end.

(** A round that asks for an unknown tool: the reply received, the tool it
    names and the arguments read off it. *)
Record unknown_round : Type := mk_round {
  round_reply : string;
  round_tool : string;
  round_args : kwargs
}.

(** The round's reply is one the client gave, it decodes to an intent that
    names the round's tool and holds the round's arguments, and the tool is
    neither [terminate] nor registered. *)
Definition unknown_tool_round (components : Components) (model : string)
    (r : unknown_round) : Prop :=
  exists prompt s s' d,
    complete (client components) prompt model 1024 s
    = (Returned (round_reply r), s')
    /\ Json.loads (round_reply r) = Returned (PDict d)
    /\ dict_get "tool" d = Some (PStr (round_tool r))
    /\ round_args r = intent_args d
    /\ round_tool r <> "terminate"
    /\ get_action (registry components) (round_tool r) = None.

(** The prompt a round sends when it starts in state [st]. *)
Definition prompt_of (components : Components) (st : agent_state) : Prompt :=
  construct_prompt (get_actions (registry components)) goals (st_memory st).

(** What one round of the loop does to the state, whatever the reply: it
    logs its own iteration number and no other, adds at most one invocation
    and keeps the capacity of the memory. *)
Definition round_effect (max_iterations iteration : Z)
    (st st' : agent_state) : Prop :=
  (exists tail,
     st_log st' = st_log st ++ LogIteration iteration max_iterations :: tail
     /\ logged_iterations tail = [])
  /\ (exists calls,
        invocations (st_world st') = invocations (st_world st) ++ calls
        /\ List.length calls <= 1)
  /\ max_messages (st_memory st') = max_messages (st_memory st).

(** What a run of rounds does to the state: the rounds announced are a
    prefix of the iterations in hand, with at most one invocation each. *)
Definition rounds_effect (iterations : list Z) (st st' : agent_state) : Prop :=
  exists added k calls,
    st_log st' = st_log st ++ added
    /\ logged_iterations added = firstn k iterations
    /\ invocations (st_world st') = invocations (st_world st) ++ calls
    /\ List.length calls <= List.length (logged_iterations added)
    /\ max_messages (st_memory st') = max_messages (st_memory st).

End Loop.

Arguments Components S : clear implicits.
Arguments agent_state S : clear implicits.

End Main.

(* ====================================================================== *)
(** * tools/file_tools.py: [find_todos]

    The search reads the file system and changes nothing in it, so the file
    system is the table of answers its calls give, exceptions included.
    Reading a file is the one step the code guards: a read that fails does
    so with an [OSError] or a [UnicodeDecodeError], which the
    [except Exception] clauses catch, and is [None] here.  Nothing else is
    guarded, so what [os.path.abspath], [os.walk], [os.listdir] or
    [os.path.relpath] raise leaves [find_todos]. *)
(* ====================================================================== *)

Module FileTools.
Import Py.

(** [needle in hay]. *)
Fixpoint str_in (needle hay : string) : bool :=
  String.prefix needle hay
  || match hay with
     | EmptyString => false
     | String _ rest => str_in needle rest
     end.

Record FileSystem : Type := mk_fs {
  (** [os.path.abspath(p)], which asks for the current directory and
      raises when there is none *)
  abspath : string -> outcome string;
  (** [os.path.join] *)
  path_join : string -> string -> string;
  (** [os.path.relpath(p, os.getcwd())] *)
  relpath : string -> outcome string;
  (** [os.path.isfile], which is [False] for a path it cannot examine *)
  isfile : string -> bool;
  (** [os.walk(root)], a generator: the directories it yields, each with
      the names of its files, and the exception that ends it if it does not
      end by itself (a root that holds a null character, for one) *)
  walk : string -> list (string * list string) * option exn;
  (** [os.listdir(root)], which raises when [root] is no directory *)
  listdir : string -> outcome (list string);
  (** [io.open(p, "r", encoding=...).readlines()] *)
  readlines_utf8 : string -> option (list string);
  readlines_latin1 : string -> option (list string)
}.

Section Todos.
Variable fs : FileSystem.

(** The variables [scan_file] shares with [find_todos]. *)
Record scan_state : Type := mk_scan {
  results : list pyval;
  checked : Z
}.

(** [len(results) >= max_results]. *)
Definition full (max_results : Z) (st : scan_state) : bool :=
  (max_results <=? Z.of_nat (List.length (results st)))%Z.

(** ["TODO" in line or "FIXME" in line]. *)
Definition mentions (line : string) : bool :=
  str_in "TODO" line || str_in "FIXME" line.

(** The dictionary of a match; its first entry is computed first and may
    raise. *)
Definition hit (file_path : string) (i : Z) (line : string) : outcome pyval :=
  outcome_bind (relpath fs file_path)
    (fun relative =>
       Returned (PDict [("file", PStr relative);
                        ("line_no", PInt i);
                        ("line", PStr (strip line))])).

(** The [for] loop of [scan_file] from line number [i] on; the flag tells
    whether it left through [return]. *)
Fixpoint scan_lines (max_results : Z) (file_path : string) (i : Z)
    (lines : list string) (st : scan_state) : outcome (bool * scan_state) :=
  match lines with
  | [] => Returned (false, st)
  | line :: rest =>
      if mentions line
      then
        outcome_bind (hit file_path i line)
          (fun found =>
             let st' := mk_scan (results st ++ [found]) (checked st) in
             if full max_results st' then Returned (true, st')
             else scan_lines max_results file_path (i + 1) rest st')
      else scan_lines max_results file_path (i + 1) rest st
  end.

(** The lines of a file, read as UTF-8 and, failing that, as Latin-1. *)
Definition read_lines (file_path : string) : option (list string) :=
  match readlines_utf8 fs file_path with
  | Some lines => Some lines
  | None => readlines_latin1 fs file_path
  end.

Definition scan_file (max_results : Z) (file_path : string)
    (st : scan_state) : outcome scan_state :=
  if full max_results st then Returned st
  else
    match read_lines file_path with
    | None => Returned st
    | Some lines =>
        outcome_bind (scan_lines max_results file_path 1 lines st)
          (fun r =>
             match r with
             | (true, st') => Returned st'
             | (false, st') => Returned (mk_scan (results st') (checked st' + 1))
             end)
    end.

(** [for fn in filenames: ...] of the recursive search. *)
Fixpoint scan_filenames (max_results : Z) (dirpath : string)
    (filenames : list string) (st : scan_state) : outcome scan_state :=
  match filenames with
  | [] => Returned st
  | fn :: rest =>
      let full_path := path_join fs dirpath fn in
      outcome_bind (scan_file max_results full_path st)
        (fun st' =>
           if full max_results st' then Returned st'
           else scan_filenames max_results dirpath rest st')
  end.

(** [for dirpath, _, filenames in os.walk(root): ...]: the generator is
    asked for the next directory only when the loop has not left through
    [break], and it is then that it can raise. *)
Fixpoint scan_walk (max_results : Z)
    (walked : list (string * list string)) (ending : option exn)
    (st : scan_state) : outcome scan_state :=
  match walked with
  | [] =>
      match ending with
      | Some e => Raised e
      | None => Returned st
      end
  | (dirpath, filenames) :: rest =>
      outcome_bind (scan_filenames max_results dirpath filenames st)
        (fun st' =>
           if full max_results st' then Returned st'
           else scan_walk max_results rest ending st')
  end.

(** [for fn in os.listdir(root): ...] of the flat search. *)
Fixpoint scan_listing (max_results : Z) (root : string)
    (names : list string) (st : scan_state) : outcome scan_state :=
  match names with
  | [] => Returned st
  | fn :: rest =>
      let full_path := path_join fs root fn in
      if isfile fs full_path
      then
        outcome_bind (scan_file max_results full_path st)
          (fun st' =>
             if full max_results st' then Returned st'
             else scan_listing max_results root rest st')
      else scan_listing max_results root rest st
  end.

Definition find_todos (path : string) (recursive : bool) (max_results : Z)
    : outcome (list pyval) :=
  outcome_bind (abspath fs path)
    (fun root =>
       let st := mk_scan [] 0 in
       if isfile fs root
       then outcome_map results (scan_file max_results root st)
       else if recursive
       then
         outcome_map results
           (scan_walk max_results (fst (walk fs root)) (snd (walk fs root)) st)
       else
         outcome_bind (listdir fs root)
           (fun names =>
              outcome_map results (scan_listing max_results root names st))).

(** ** What a search without a limit would meet *)

(** An annotated line: the file, the line number, the line. *)
Definition mark : Type := string * Z * string.

(** The annotated lines of a file, in order, numbered from [i]. *)
Fixpoint marks_from (file_path : string) (i : Z) (lines : list string)
    : list mark :=
  match lines with
  | [] => []
  | line :: rest =>
      (if mentions line then [(file_path, i, line)] else [])
      ++ marks_from file_path (i + 1) rest
  end.

(** The annotated lines of a file; one that cannot be read has none. *)
Definition marks (file_path : string) : list mark :=
  match read_lines file_path with
  | None => []
  | Some lines => marks_from file_path 1 lines
  end.

(** The dictionaries of a run of annotated lines, made in order; the first
    one that cannot be made ends the run. *)
Fixpoint report (ms : list mark) : outcome (list pyval) :=
  match ms with
  | [] => Returned []
  | (file_path, i, line) :: rest =>
      outcome_bind (hit file_path i line)
        (fun found =>
           outcome_bind (report rest) (fun others => Returned (found :: others)))
  end.

(** [r] topped up with the reports of [ms] until it holds [max_results]
    entries. *)
Definition top_up (max_results : Z) (r : list pyval) (ms : list mark)
    : outcome (list pyval) :=
  outcome_bind
    (report (firstn (Z.to_nat (max_results - Z.of_nat (List.length r))) ms))
    (fun found => Returned (r ++ found)).

(** The files a walk looks at, in the order it does. *)
Definition walked_files (walked : list (string * list string)) : list string :=
  flat_map (fun d => map (path_join fs (fst d)) (snd d)) walked.

(** What the generator's exception does to a search that made [found]: it
    is raised unless the search had its fill and left the loop before. *)
Definition end_of_walk (max_results : Z) (ending : option exn)
    (found : list pyval) : outcome (list pyval) :=
  match ending with
  | Some e =>
      if (max_results <=? Z.of_nat (List.length found))%Z
      then Returned found else Raised e
  | None => Returned found
  end.

(** The first [max_results] annotated lines of the files a search looks
    at, in its order, as it reports them. *)
Definition first_matches (path : string) (recursive : bool) (max_results : Z)
    : outcome (list pyval) :=
  let limit := Z.to_nat max_results in
  outcome_bind (abspath fs path)
    (fun root =>
       if isfile fs root then report (firstn limit (marks root))
       else if recursive
       then
         match walk fs root with
         | ([], Some e) => Raised e
         | (walked, ending) =>
             outcome_bind
               (report (firstn limit (flat_map marks (walked_files walked))))
               (end_of_walk max_results ending)
         end
       else
         outcome_bind (listdir fs root)
           (fun names =>
              report
                (firstn limit
                   (flat_map marks
                      (filter (isfile fs) (map (path_join fs root) names)))))).

End Todos.

End FileTools.

(* ====================================================================== *)
(** * Fixtures

    The actions of the demonstration at the end of [environment.py], a
    callable that exits the interpreter, the tools of [system_tools.py] and
    a world to run them in. *)
(* ====================================================================== *)

Module Demo.
Import Py Registry Environment.

(** An interpreter with the default limit of 4300 digits, room for 900
    nested calls, its wording of the keyword clash, and Unicode tables cut
    down to the controls and separators of Latin-1 and of the general
    punctuation, the surrogates and the private use area. *)
#[export] Instance cpython : Interpreter :=
  mk_interpreter 4300 900
    "Action.execute() got multiple values for argument 'self'"
    "TypeError: Action.execute() got multiple values for argument 'self'"
    (fun cp =>
       negb ((cp <=? 160) || (cp =? 173)
             || ((8192 <=? cp) && (cp <=? 8207))
             || ((8232 <=? cp) && (cp <=? 8239))
             || ((8287 <=? cp) && (cp <=? 8303))
             || (cp =? 12288)
             || ((55296 <=? cp) && (cp <=? 63743))
             || (cp =? 65279))%N).

Definition clock (_ : unit) : string := "2025-01-01T00:00:00+0000".

Definition w0 : world unit := mk_world [] tt.

Definition bad_arguments : exn := mk_exn TypeError "unsupported operand" "".

(** [def sample_action(x: int, y: int = 1) -> int: return x + y]. *)
Definition sample_action : PyFunction unit :=
  mk_function "sample_action" (Some "Sample action that returns x + y")
    [mk_parameter "x" (Some Tint) None;
     mk_parameter "y" (Some Tint) (Some (PInt 1))]
    (fun args s =>
       match dict_get "x" args, dict_get "y" args with
       | Some (PInt x), Some (PInt y) => (Returned (PInt (x + y)), s)
       | Some (PInt x), None => (Returned (PInt (x + 1)), s)
       | _, _ => (Raised bad_arguments, s)
       end).

Definition example_action : Action unit :=
  mk_action "sample_add" sample_action "Add two numbers"
    (mk_schema (Some "object")
               (Some [("x", "integer"); ("y", "integer")])
               (Some ["x"]))
    false.

Definition boom : exn := mk_exn RuntimeError "boom" "RuntimeError: boom".

(** [def bad_action(): raise RuntimeError("boom")]. *)
Definition bad_action : PyFunction unit :=
  mk_function "bad_action" None [] (fun _ s => (Raised boom, s)).

Definition bad : Action unit :=
  mk_action "bad" bad_action "Always fails"
    (mk_schema (Some "object") (Some []) (Some [])) false.

Definition exit_request : exn := mk_exn SystemExit "1" "SystemExit: 1".

(** [def quitting_action(): sys.exit(1)]. *)
Definition quitting_action : PyFunction unit :=
  mk_function "quitting_action" None [] (fun _ s => (Raised exit_request, s)).

Definition quitting : Action unit :=
  mk_action "quitting" quitting_action "Exits the interpreter"
    (mk_schema (Some "object") (Some []) (Some [])) false.

(** [tools/system_tools.py]: [terminate] and [get_current_time]. *)
Definition terminate : PyFunction unit :=
  mk_function "terminate" (Some "Terminate the agent with a final message.")
    [mk_parameter "message" (Some Tstr) None]
    (fun args s =>
       match dict_get "message" args with
       | Some (PStr message) =>
           (Returned (PStr (message ++ String newline "[Agent terminated]")), s)
       | _ => (Raised bad_arguments, s)
       end).

Definition get_current_time : PyFunction unit :=
  mk_function "get_current_time" (Some "Return the current system time in ISO format.")
    [] (fun _ s => (Returned (PStr (clock s)), s)).

(** [tools/file_tools.py]: the signature of [write_project_file]. *)
Definition write_project_file : PyFunction unit :=
  mk_function "write_project_file" (Some "Write content to a file.")
    [mk_parameter "name" (Some Tstr) None;
     mk_parameter "content" (Some Tstr) None;
     mk_parameter "overwrite" (Some Tbool) (Some (PBool false))]
    (fun _ s => (Returned (PDict []), s)).

(** A tool that takes the injected context besides its own parameters. *)
Definition lookup_note : PyFunction unit :=
  mk_function "lookup_note" None
    [mk_parameter "action_context" None None;
     mk_parameter "key" None None;
     mk_parameter "limit" (Some Tint) (Some (PInt 10));
     mk_parameter "labels" (Some (Tother "List[str]")) None]
    (fun _ s => (Returned PNone, s)).

(** The tables after the two system tools registered themselves. *)
Definition system_catalog : Catalog unit :=
  register_tool None None None false (Some ["system"; "info"]) get_current_time
    (register_tool None None None true (Some ["system"]) terminate
       empty_catalog).

(** The reply [{"tool":"read_project_file","args":{"name":"a.py"}}]. *)
Definition tool_call_text : string :=
  "{" ++ quoted "tool" ++ ":" ++ quoted "read_project_file" ++ ","
      ++ quoted "args" ++ ":{" ++ quoted "name" ++ ":" ++ quoted "a.py" ++ "}}".

(** A text of [n] copies of a character. *)
Fixpoint replicate (n : nat) (c : ascii) : string :=
  match n with
  | O => EmptyString
  | S n' => String c (replicate n' c)
  end.

(** Two replies beyond the limits of the interpreter above: an integer of
    4301 digits, and 901 opening brackets. *)
Definition long_integer : string := replicate 4301 "7".
Definition deep_array : string := replicate 901 "[".

(** The reply [{"tool":"no_such_tool","args":{}}]. *)
Definition unknown_tool_text : string :=
  "{" ++ quoted "tool" ++ ":" ++ quoted "no_such_tool" ++ ","
      ++ quoted "args" ++ ":{}}".

Definition live : Environment unit := mk_environment false None 2000.

(** A client whose every reply requests [no_such_tool], and the components
    built around it: the registry of the system tools, a live environment. *)
Definition stub_client : BaseAgent.OpenRouterClient unit :=
  BaseAgent.mk_client unit (fun _ _ _ s => (Returned unknown_tool_text, s)).

Definition stub_components : Main.Components unit :=
  Main.mk_components tt
    (PythonActionRegistry_init None None (TOOLS system_catalog))
    live stub_client.

Definition no_dumps (_ : pyval) : outcome string := Returned EmptyString.
Definition no_str (_ : pyval) : string := EmptyString.

Definition fresh_state : Main.agent_state unit :=
  Main.mk_state (Memory.mk_memory 20 []) w0 [].
Definition dry : Environment unit := mk_environment true None 2000.

(** A live environment whose callback always fails. *)
Definition failing_hook : Environment unit :=
  mk_environment false (Some (fun _ _ _ s => (Raised boom, s))) 2000.

(** Clients that give one fixed reply, or fail as [complete] does on a
    status other than 200, and the components around them. *)
Definition replying (text : string) : BaseAgent.OpenRouterClient unit :=
  BaseAgent.mk_client unit (fun _ _ _ s => (Returned text, s)).

Definition api_error : exn :=
  mk_exn RuntimeError "OpenRouter API Error 500: upstream" "".

Definition failing_client : BaseAgent.OpenRouterClient unit :=
  BaseAgent.mk_client unit (fun _ _ _ s => (Raised api_error, s)).

(** The system tools, and [terminate] once more under the name [finish]. *)
Definition finish_catalog : Catalog unit :=
  register_tool (Some "finish") None None true (Some ["system"]) terminate
    system_catalog.

Definition components_of (client : BaseAgent.OpenRouterClient unit)
    : Main.Components unit :=
  Main.mk_components tt
    (PythonActionRegistry_init None None (TOOLS finish_catalog))
    live client.

(** The reply [{"tool":"terminate","args":{"message":"README written"}}]. *)
Definition terminate_text : string :=
  "{" ++ quoted "tool" ++ ":" ++ quoted "terminate" ++ ","
      ++ quoted "args" ++ ":{" ++ quoted "message" ++ ":"
      ++ quoted "README written" ++ "}}".

(** The reply [{"tool":"finish","args":{"message":"bye"}}]. *)
Definition finish_text : string :=
  "{" ++ quoted "tool" ++ ":" ++ quoted "finish" ++ ","
      ++ quoted "args" ++ ":{" ++ quoted "message" ++ ":"
      ++ quoted "bye" ++ "}}".

Definition not_serializable : exn :=
  mk_exn TypeError "Object of type set is not JSON serializable" "".

Definition failing_dumps (_ : pyval) : outcome string :=
  Raised not_serializable.

(** A project of two files for [find_todos]. *)
Definition project_files : list (string * list string) :=
  [("/p/a.py", ["# TODO: one"; "x = 1"; "  # FIXME two  "]);
   ("/p/b.py", ["todo"; "y = 2  # TODO three"])].

Definition project_lines (p : string) : option (list string) :=
  dict_get p project_files.

Definition embedded_null : exn :=
  mk_exn ValueError "embedded null byte" "".

(** Every path is taken as absolute and shown as it is; a root that holds
    a null character ends the walk with [ValueError]. *)
Definition project : FileTools.FileSystem :=
  FileTools.mk_fs
    (fun p => Returned (if String.eqb p "." then "/p" else p))
    (fun d fn => (d ++ "/" ++ fn)%string)
    (fun p => Returned p)
    (fun p => dict_mem p project_files)
    (fun root =>
       if String.eqb root "/p" then ([("/p", ["a.py"; "b.py"])], None)
       else if str_contains "000"%char root then ([], Some embedded_null)
       else ([], None))
    (fun root =>
       if String.eqb root "/p" then Returned ["a.py"; "b.py"]
       else Raised (mk_exn FileNotFoundError "No such file or directory" ""))
    project_lines
    project_lines.

End Demo.

(* ====================================================================== *)
(** * Verification *)
(* ====================================================================== *)

(** Case analysis on the first [match] of a hypothesis. *)
Ltac break_hyp H :=
  match type of H with
  | context [match ?x with _ => _ end] => destruct x eqn:?
  end.

(** ** The Python fragment *)

Section SliceFacts.
Import Py.
Context {A : Type}.

Lemma lastn_all (n : nat) (l : list A) :
  List.length l <= n -> lastn n l = l.
Proof.
  intros Hle. unfold lastn.
  replace (List.length l - n) with 0 by lia. reflexivity.
Qed.

Lemma lastn_length (n : nat) (l : list A) :
  List.length (lastn n l) = Nat.min n (List.length l).
Proof.
  unfold lastn. rewrite length_skipn. lia.
Qed.

(** A negative start counts from the end. *)
Lemma slice_from_neg (k : Z) (l : list A) :
  (0 < k)%Z -> slice_from (- k) l = lastn (Z.to_nat k) l.
Proof.
  intros Hk. unfold slice_from, lastn.
  replace (- k <? 0)%Z with true by (symmetry; apply Z.ltb_lt; lia).
  f_equal. lia.
Qed.

(** [l[-0:]] is [l[0:]], the whole list. *)
Lemma slice_from_zero (l : list A) : slice_from (- 0) l = l.
Proof.
  unfold slice_from. simpl.
  replace (Z.to_nat (Z.min 0 (Z.of_nat (List.length l)))) with 0 by lia.
  reflexivity.
Qed.

(** Skipping more than there is skips all. *)
Lemma skipn_min_length_nat (k : nat) (l : list A) :
  skipn (Nat.min k (List.length l)) l = skipn k l.
Proof.
  destruct (Nat.le_gt_cases k (List.length l)) as [Hle | Hgt].
  - rewrite Nat.min_l by exact Hle. reflexivity.
  - rewrite Nat.min_r by lia. rewrite skipn_all.
    symmetry. apply skipn_all2. lia.
Qed.

(** Appending to the last [n] and keeping the last [n] again is keeping the
    last [n] of the whole. *)
Lemma lastn_snoc (n : nat) (l : list A) (x : A) :
  1 <= n -> lastn n (lastn n l ++ [x]) = lastn n (l ++ [x]).
Proof.
  intros Hn.
  destruct (Nat.le_gt_cases (List.length l) n) as [Hle | Hgt].
  - rewrite (lastn_all n l Hle). reflexivity.
  - unfold lastn at 1 3.
    rewrite !length_app, lastn_length. simpl.
    replace (Nat.min n (List.length l) + 1 - n) with 1 by lia.
    rewrite !skipn_app.
    unfold lastn. rewrite skipn_skipn, length_skipn.
    replace (1 + (List.length l - n)) with (List.length l + 1 - n) by lia.
    replace (1 - (List.length l - (List.length l - n))) with 0 by lia.
    replace (List.length l + 1 - n - List.length l) with 0 by lia.
    reflexivity.
Qed.

End SliceFacts.

(** ** agent_core/memory.py *)

Section MemoryFacts.
Import Py Memory.

(** What [add_message] does with two strings. *)
Lemma add_message_text (self : AgentMemory) (r c : string) :
  add_message (PStr r) (PStr c) self =
  (Returned tt,
   mk_memory (max_messages self)
     (if (Z.of_nat (List.length (messages self ++ [mk_message r c]))
          >? max_messages self)%Z
      then slice_from (- max_messages self) (messages self ++ [mk_message r c])
      else messages self ++ [mk_message r c])).
Proof.
  unfold add_message.
  destruct (Z.of_nat _ >? max_messages self)%Z; reflexivity.
Qed.

(** With a capacity of at least one, a call keeps the last [max_messages]
    of what was stored plus the new message. *)
Lemma add_message_keeps_last (self : AgentMemory) (r c : string) :
  (1 <= max_messages self)%Z ->
  add_message (PStr r) (PStr c) self =
  (Returned tt,
   mk_memory (max_messages self)
     (lastn (Z.to_nat (max_messages self)) (messages self ++ [mk_message r c]))).
Proof.
  intros Hcap. rewrite add_message_text. do 2 f_equal.
  destruct (Z.gtb_spec (Z.of_nat (List.length (messages self ++ [mk_message r c])))
                       (max_messages self)) as [Hgt | Hle].
  - apply slice_from_neg. lia.
  - symmetry. apply lastn_all. lia.
Qed.

Lemma add_messages_snoc (calls : list (pyval * pyval)) (r c : pyval)
    (self mid : AgentMemory) :
  add_messages calls self = (Returned tt, mid) ->
  add_messages (calls ++ [(r, c)]) self = add_message r c mid.
Proof.
  revert self. induction calls as [| [r0 c0] calls IH]; intros self Hrun; simpl in *.
  - unfold ret in Hrun. inversion Hrun; subst.
    unfold bind. destruct (add_message r c mid) as [[[] | e] m']; reflexivity.
  - unfold bind in *.
    destruct (add_message r0 c0 self) as [[[] | e] m'].
    + apply IH. exact Hrun.
    + discriminate.
Qed.

(** A run of calls keeps the capacity. *)
Lemma add_messages_capacity (calls : list (pyval * pyval))
    (self self' : AgentMemory) :
  add_messages calls self = (Returned tt, self') ->
  max_messages self' = max_messages self.
Proof.
  revert self. induction calls as [| [r c] calls IH]; intros self Hrun.
  - simpl in Hrun. unfold ret in Hrun. inversion Hrun. reflexivity.
  - simpl in Hrun. unfold bind in Hrun.
    destruct (add_message r c self) as [[[] | e] mid] eqn:Hcall;
      [| discriminate].
    rewrite (IH mid Hrun).
    unfold add_message in Hcall.
    destruct r; try discriminate; destruct c; try discriminate.
    destruct (Z.of_nat _ >? _)%Z; inversion Hcall; reflexivity.
Qed.

(** With a capacity of at least one, a run of at least one text call
    leaves the last [max_messages] of the stored and appended messages. *)
Lemma add_messages_keep_last (self : AgentMemory) (appended : list Message) :
  (1 <= max_messages self)%Z ->
  appended <> [] ->
  add_messages (map text_call appended) self =
  (Returned tt,
   mk_memory (max_messages self)
     (lastn (Z.to_nat (max_messages self)) (messages self ++ appended))).
Proof.
  intros Hcap.
  induction appended as [| m appended IH] using rev_ind; [congruence |].
  intros _. destruct m as [r c]. rewrite map_app.
  change (map text_call [mk_message r c]) with [(PStr r, PStr c)].
  destruct appended as [| m0 appended].
  - simpl. unfold bind. rewrite add_message_keeps_last by exact Hcap.
    reflexivity.
  - rewrite (add_messages_snoc _ _ _ _ _ (IH ltac:(discriminate))).
    rewrite add_message_keeps_last by (simpl; lia).
    simpl. rewrite lastn_snoc by lia. rewrite <- app_assoc. reflexivity.
Qed.

(** At capacity zero a run of text calls keeps everything. *)
Lemma add_messages_keep_all (self : AgentMemory) (appended : list Message) :
  max_messages self = 0%Z ->
  add_messages (map text_call appended) self =
  (Returned tt, mk_memory 0 (messages self ++ appended)).
Proof.
  intros Hzero.
  induction appended as [| m appended IH] using rev_ind.
  - simpl. rewrite app_nil_r. destruct self as [cap l]. simpl in Hzero.
    subst cap. reflexivity.
  - rewrite map_app. destruct m as [r c].
    change (map text_call [mk_message r c]) with [(PStr r, PStr c)].
    rewrite (add_messages_snoc _ _ _ _ _ IH).
    rewrite add_message_text. simpl max_messages. simpl messages.
    rewrite slice_from_zero. rewrite <- app_assoc.
    destruct (Z.of_nat _ >? 0)%Z; reflexivity.
Qed.

(** Positive capacity: after any run of text calls on a memory that starts
    within its capacity, the memory holds the last [max_messages] of all
    that was ever stored or appended, in order, and is within capacity. *)
Theorem add_messages_bounded (self : AgentMemory) (appended : list Message) :
  (1 <= max_messages self)%Z ->
  (Z.of_nat (List.length (messages self)) <= max_messages self)%Z ->
  exists self',
    add_messages (map text_call appended) self = (Returned tt, self')
    /\ max_messages self' = max_messages self
    /\ messages self' =
       lastn (Z.to_nat (max_messages self)) (messages self ++ appended)
    /\ (len self' <= max_messages self')%Z.
Proof.
  intros Hcap Hstart.
  induction appended as [| m appended IH] using rev_ind.
  - exists self. simpl. rewrite app_nil_r. repeat split; try reflexivity.
    + symmetry. apply lastn_all. lia.
    + exact Hstart.
  - destruct IH as (mid & Hrun & Hmax & Hmsgs & Hlen).
    rewrite map_app. destruct m as [r c].
    change (map text_call [mk_message r c]) with [(PStr r, PStr c)].
    rewrite (add_messages_snoc _ _ _ _ _ Hrun).
    rewrite add_message_keeps_last by lia.
    eexists. split; [reflexivity |]. simpl.
    rewrite Hmax, Hmsgs. repeat split.
    + rewrite lastn_snoc by lia. rewrite app_assoc. reflexivity.
    + unfold len. simpl. rewrite lastn_length. lia.
Qed.

(** C1, at capacity zero: the test [len > 0] holds after every append and
    the slice [messages[-0:]] is the whole list, so nothing is ever evicted
    and the memory grows with every call. *)
Theorem add_messages_zero_capacity_keeps_all (appended : list Message) :
  add_messages (map text_call appended) (mk_memory 0 []) =
  (Returned tt, mk_memory 0 appended).
Proof.
  induction appended as [| m appended IH] using rev_ind.
  - reflexivity.
  - rewrite map_app. destruct m as [r c].
    change (map text_call [mk_message r c]) with [(PStr r, PStr c)].
    rewrite (add_messages_snoc _ _ _ _ _ IH).
    rewrite add_message_text. simpl max_messages. simpl messages.
    rewrite slice_from_zero.
    destruct (Z.of_nat _ >? 0)%Z; reflexivity.
Qed.

(** The smallest instance: one message in a memory of capacity zero. *)
Example add_message_zero_capacity_overflow :
  exists self',
    add_message (PStr "user") (PStr "hi") (mk_memory 0 []) = (Returned tt, self')
    /\ messages self' = [mk_message "user" "hi"]
    /\ (len self' > max_messages self')%Z.
Proof.
  eexists. split; [reflexivity |]. split; reflexivity.
Qed.

(** C9, for every memory: a role or content that is not a string raises
    [TypeError] and leaves the memory as it was.  Two strings are appended
    and the capacity is kept; what is stored then depends on the capacity
    alone.  While the list is within capacity it is kept whole; beyond a
    capacity of at least one it is cut from the front to its last
    [max_messages] entries, so to exactly the capacity; at capacity zero
    the list exceeds the capacity and is kept whole all the same, which is
    where the code leaves the contract; and a negative capacity [-k] drops
    the first [k] entries. *)
Theorem add_message_type_contract (self : AgentMemory) (role content : pyval) :
  (is_str role && is_str content = false ->
     add_message role content self = (Raised type_error_add_message, self)
     /\ exc_type type_error_add_message = TypeError)
  /\
  (forall r c, role = PStr r -> content = PStr c ->
     let appended := messages self ++ [mk_message r c] in
     exists self',
       add_message role content self = (Returned tt, self')
       /\ max_messages self' = max_messages self
       /\ ((Z.of_nat (List.length appended) <= max_messages self)%Z ->
           messages self' = appended)
       /\ ((1 <= max_messages self < Z.of_nat (List.length appended))%Z ->
           messages self' = lastn (Z.to_nat (max_messages self)) appended
           /\ len self' = max_messages self)
       /\ (max_messages self = 0%Z ->
           messages self' = appended
           /\ (len self' > max_messages self')%Z)
       /\ ((max_messages self < 0)%Z ->
           messages self' = skipn (Z.to_nat (- max_messages self)) appended)).
Proof.
  split.
  - intros Hnot. split; [| reflexivity].
    destruct role; try reflexivity; destruct content; try reflexivity.
    discriminate Hnot.
  - intros r c -> -> appended. rewrite add_message_text. fold appended.
    assert (1 <= List.length appended) as Hone
      by (unfold appended; rewrite length_app; simpl; lia).
    destruct (Z.gtb_spec (Z.of_nat (List.length appended)) (max_messages self))
      as [Hgt | Hle].
    + eexists. split; [reflexivity |]. cbn [max_messages messages].
      split; [reflexivity |].
      split; [intros Hfit; lia |].
      split; [| split].
      * intros [Hcap _]. rewrite slice_from_neg by lia.
        split; [reflexivity |].
        unfold len. cbn [messages]. rewrite lastn_length. lia.
      * intros Hzero. rewrite Hzero. rewrite slice_from_zero.
        split; [reflexivity |]. unfold len. cbn [messages max_messages]. lia.
      * intros Hneg. unfold slice_from.
        replace (- max_messages self <? 0)%Z with false
          by (symmetry; apply Z.ltb_ge; lia).
        rewrite <- (skipn_min_length_nat (Z.to_nat (- max_messages self))).
        f_equal. lia.
    + eexists. split; [reflexivity |]. cbn [max_messages messages].
      split; [reflexivity |].
      split; [reflexivity |].
      split; [intros Hcap; lia |].
      split; [intros Hzero; lia | intros Hneg; lia].
Qed.

End MemoryFacts.

(** ** agent_core/environment.py *)

Section EnvironmentFacts.
Import Py Registry Environment.
Context {S : Type} {interp : Interpreter}.
Variable strftime : S -> string.

Lemma missing_of_spec (action : Action S) (args : kwargs) (p : string) :
  In p (missing_of action args) <->
  In p (required_of action) /\ dict_mem p args = false.
Proof.
  unfold missing_of. rewrite filter_In.
  destruct (dict_mem p args); simpl; intuition congruence.
Qed.

Lemma missing_of_nil (action : Action S) (args : kwargs) :
  missing_of action args = [] <->
  forall p, In p (required_of action) -> dict_mem p args = true.
Proof.
  split.
  - intros Hnil p Hin.
    destruct (dict_mem p args) eqn:Hmem; [reflexivity |].
    assert (In p (missing_of action args)) as Hp
      by (apply missing_of_spec; split; assumption).
    rewrite Hnil in Hp. destruct Hp.
  - intros Hall.
    destruct (missing_of action args) as [| p rest] eqn:Hmiss; [reflexivity |].
    assert (In p (missing_of action args)) as Hp by (rewrite Hmiss; left; reflexivity).
    apply missing_of_spec in Hp. destruct Hp as [Hin Hmem].
    rewrite (Hall p Hin) in Hmem. discriminate.
Qed.

(** Step 1: a missing required name ends the call before anything runs. *)
Lemma execute_action_invalid (self : Environment S) (action : Action S)
    (args : kwargs) (w : world S) :
  missing_of action args <> [] ->
  execute_action strftime self action args w =
  (Returned
     (set_error
        (Some ("Missing required parameters: "
                 ++ repr_str_list (missing_of action args))%string)
        (fresh_record strftime action args w)),
   w).
Proof.
  intros Hmiss. unfold execute_action, _now_iso, bind, _validate_args.
  destruct (missing_of action args) as [| p rest]; [congruence |].
  reflexivity.
Qed.

(** Step 2: with valid arguments, dry-run returns the record as created. *)
Lemma execute_action_dry (self : Environment S) (action : Action S)
    (args : kwargs) (w : world S) :
  missing_of action args = [] ->
  dry_run self = true ->
  execute_action strftime self action args w =
  (Returned (fresh_record strftime action args w), w).
Proof.
  intros Hmiss Hdry. unfold execute_action, _now_iso, bind, _validate_args.
  rewrite Hmiss, Hdry. reflexivity.
Qed.

(** Step 3: otherwise the callable runs, under [except Exception]. *)
Lemma execute_action_run (self : Environment S) (action : Action S)
    (args : kwargs) (w : world S) :
  missing_of action args = [] ->
  dry_run self = false ->
  execute_action strftime self action args w =
  try_except
    (res <- execute action args ;;
     run_post_hook self action args res ;;;
     ret (set_result res (set_tool_executed true (fresh_record strftime action args w))))%py
    Exception
    (fun exc =>
       ret (set_traceback (Some (exc_traceback exc))
              (set_error (Some (exc_str exc)) (fresh_record strftime action args w))))
    w.
Proof.
  intros Hmiss Hdry. unfold execute_action, _now_iso, bind at 1, _validate_args.
  rewrite Hmiss, Hdry. reflexivity.
Qed.

Lemma execute_raises (action : Action S) (args : kwargs) (w : world S)
    (e : exn) (s' : S) :
  dict_mem "self" args = false ->
  fn_body (function action) args (ext w) = (Raised e, s') ->
  execute action args w = (Raised e, after_call action args w s').
Proof.
  intros Hself Hbody. unfold execute, invoke, on_ext. rewrite Hself. simpl.
  rewrite Hbody. reflexivity.
Qed.

Lemma execute_returns (action : Action S) (args : kwargs) (w : world S)
    (v : pyval) (s' : S) :
  dict_mem "self" args = false ->
  fn_body (function action) args (ext w) = (Returned v, s') ->
  execute action args w = (Returned v, after_call action args w s').
Proof.
  intros Hself Hbody. unfold execute, invoke, on_ext. rewrite Hself. simpl.
  rewrite Hbody. reflexivity.
Qed.

(** A key [self] among the arguments: the call is refused before the
    function is reached. *)
Lemma execute_clash (action : Action S) (args : kwargs) (w : world S) :
  dict_mem "self" args = true ->
  execute action args w = (Raised keyword_clash, w).
Proof.
  intros Hself. unfold execute. rewrite Hself. reflexivity.
Qed.

Lemma keyword_clash_caught : isinstance keyword_clash Exception = true.
Proof. reflexivity. Qed.

(** With valid arguments and no dry-run, a key [self] gives the record of
    the [TypeError], and nothing has run. *)
Lemma execute_action_clash (self : Environment S) (action : Action S)
    (args : kwargs) (w : world S) :
  missing_of action args = [] ->
  dry_run self = false ->
  dict_mem "self" args = true ->
  execute_action strftime self action args w =
  (Returned
     (mk_record false (name action) args PNone
                (Some keyword_clash_str) (Some keyword_clash_traceback)
                (strftime (ext w))),
   w).
Proof.
  intros Hmiss Hdry Hself.
  rewrite execute_action_run by assumption.
  unfold try_except, bind.
  rewrite (execute_clash action args w Hself), keyword_clash_caught.
  reflexivity.
Qed.

(** The callback never raises an [Exception] into [execute_action]. *)
Lemma run_post_hook_outcome (self : Environment S) (action : Action S)
    (args : kwargs) (res : pyval) (w : world S) :
  match fst (run_post_hook self action args res w) with
  | Returned _ => True
  | Raised e => isinstance e Exception = false
  end.
Proof.
  unfold run_post_hook. destruct (on_post_execute self) as [hook |]; [| exact I].
  unfold try_except, bind, on_ext, ret.
  destruct (hook action args res (ext w)) as [[v | e] s']; simpl; [exact I |].
  destruct (isinstance e Exception) eqn:He; simpl; [exact I | exact He].
Qed.

(** Every outcome of [execute_action]: a record that satisfies the
    invariant, or an exception outside the [Exception] hierarchy. *)
Lemma execute_action_outcome (self : Environment S) (action : Action S)
    (args : kwargs) (w : world S) :
  match fst (execute_action strftime self action args w) with
  | Returned r => record_invariant r
  | Raised e => isinstance e Exception = false
  end.
Proof.
  destruct (missing_of action args) as [| p rest] eqn:Hmiss.
  - destruct (dry_run self) eqn:Hdry.
    + rewrite execute_action_dry by assumption. simpl.
      split; [reflexivity | intros H; reflexivity].
    + rewrite execute_action_run by assumption.
      unfold try_except, bind.
      destruct (execute action args w) as [[res | e] w1].
      * pose proof (run_post_hook_outcome self action args res w1) as Hhook.
        destruct (run_post_hook self action args res w1) as [[[] | e] w2];
          simpl in Hhook |- *.
        -- split; [reflexivity | intros H; exfalso; apply H; reflexivity].
        -- rewrite Hhook. exact Hhook.
      * destruct (isinstance e Exception) eqn:He; simpl.
        -- split; [discriminate | reflexivity].
        -- exact He.
  - rewrite execute_action_invalid by (rewrite Hmiss; discriminate). simpl.
    split; [discriminate | reflexivity].
Qed.

End EnvironmentFacts.

Section EnvironmentClaims.
Import Py Registry Environment.
Context {S : Type} {interp : Interpreter}.
Variable strftime : S -> string.

(** C2, as the code has it: in dry-run mode [execute_action] returns a
    record and leaves the world as it was (the callable is not invoked and
    nothing else runs), with [tool_executed = false]; the arguments are
    validated first, so [error] is [None] exactly when every required name
    is a key of the arguments, and is the missing-parameters message
    otherwise. *)
Theorem dry_run_never_invokes (self : Environment S) (action : Action S)
    (args : kwargs) (w : world S) :
  dry_run self = true ->
  exists r,
    execute_action strftime self action args w = (Returned r, w)
    /\ tool_executed r = false
    /\ (error r = None <->
        forall p, In p (required_of action) -> dict_mem p args = true)
    /\ (error r <> None ->
        error r = Some ("Missing required parameters: "
                          ++ repr_str_list (missing_of action args))%string).
Proof.
  intros Hdry.
  destruct (missing_of action args) as [| p rest] eqn:Hmiss.
  - exists (fresh_record strftime action args w).
    rewrite execute_action_dry by assumption.
    split; [reflexivity |]. split; [reflexivity |]. split.
    + split; [intros _; apply missing_of_nil; exact Hmiss | reflexivity].
    + intros H. exfalso. apply H. reflexivity.
  - eexists. rewrite execute_action_invalid by (rewrite Hmiss; discriminate).
    split; [reflexivity |]. split; [reflexivity |]. split.
    + simpl. split; [discriminate |].
      intros Hall. apply missing_of_nil in Hall. congruence.
    + intros _. simpl. rewrite Hmiss. reflexivity.
Qed.

(** C3, as the code has it: whatever [execute_action] returns satisfies
    the record invariant, and the only exceptions it lets through are those
    outside the [Exception] hierarchy.  When the callable raises an
    [Exception], the call returns a record with [tool_executed = false],
    the exception's text as [error] and its trace as [traceback]; when the
    callable raises anything else ([KeyboardInterrupt], [SystemExit],
    [GeneratorExit], ...), that exception leaves [execute_action] and no
    record is returned; and when the arguments cannot be passed because one
    of them is named [self], the [TypeError] of the call is recorded the
    same way and the callable is not reached. *)
Theorem execute_action_returns_record (self : Environment S)
    (action : Action S) (args : kwargs) (w : world S) :
  match fst (execute_action strftime self action args w) with
  | Returned r => record_invariant r
  | Raised e => isinstance e Exception = false
  end
  /\
  (forall e s',
     missing_of action args = [] ->
     dry_run self = false ->
     dict_mem "self" args = false ->
     fn_body (function action) args (ext w) = (Raised e, s') ->
     (isinstance e Exception = true ->
      execute_action strftime self action args w =
      (Returned
         (mk_record false (name action) args PNone
                    (Some (exc_str e)) (Some (exc_traceback e))
                    (strftime (ext w))),
       after_call action args w s'))
     /\ (isinstance e Exception = false ->
         execute_action strftime self action args w =
         (Raised e, after_call action args w s')))
  /\
  (missing_of action args = [] ->
   dry_run self = false ->
   dict_mem "self" args = true ->
   execute_action strftime self action args w =
   (Returned
      (mk_record false (name action) args PNone
                 (Some keyword_clash_str) (Some keyword_clash_traceback)
                 (strftime (ext w))),
    w)).
Proof.
  split; [apply execute_action_outcome |]. split.
  - intros e s' Hmiss Hdry Hself Hbody.
    rewrite execute_action_run by assumption.
    unfold try_except, bind.
    rewrite (execute_raises action args w e s' Hself Hbody).
    split; intros He; rewrite He; reflexivity.
  - apply execute_action_clash.
Qed.

(** C4: when a required name is missing from the arguments, the call
    returns a record and leaves the world as it was (the callable is not
    invoked), with [tool_executed = false] and an error that lists exactly
    the required names that are missing; this holds whatever [dry_run] is. *)
Theorem missing_required_is_rejected (self : Environment S)
    (action : Action S) (args : kwargs) (w : world S) :
  (exists p, In p (required_of action) /\ dict_mem p args = false) ->
  exists r,
    execute_action strftime self action args w = (Returned r, w)
    /\ tool_executed r = false
    /\ error r = Some ("Missing required parameters: "
                         ++ repr_str_list (missing_of action args))%string
    /\ missing_of action args <> []
    /\ (forall p, In p (missing_of action args) <->
                  In p (required_of action) /\ dict_mem p args = false).
Proof.
  intros (p & Hin & Hmem).
  assert (missing_of action args <> []) as Hmiss.
  { intros Hnil. apply missing_of_nil with (p := p) in Hnil; [| exact Hin].
    congruence. }
  eexists. rewrite execute_action_invalid by exact Hmiss.
  split; [reflexivity |]. split; [reflexivity |]. split; [reflexivity |].
  split; [exact Hmiss |]. intros q. apply missing_of_spec.
Qed.

End EnvironmentClaims.

Section EnvironmentExamples.
Import Py Registry Environment Demo.

(** C2 as stated fails: in dry-run mode, arguments that lack the required
    [x] give a record whose [error] is not [None]. *)
Lemma dry_run_reports_missing_arguments :
  dry_run dry = true
  /\ exists r,
       execute_action clock dry example_action [("y", PInt 4)] w0 = (Returned r, w0)
       /\ error r = Some "Missing required parameters: ['x']".
Proof.
  split; [reflexivity |]. eexists. split; reflexivity.
Qed.

Lemma dry_run_never_invokes_witness :
  exists r,
    execute_action clock dry example_action [("x", PInt 3); ("y", PInt 4)] w0
    = (Returned r, w0)
    /\ tool_executed r = false
    /\ (error r = None <->
        forall p, In p (required_of example_action) ->
                  dict_mem p [("x", PInt 3); ("y", PInt 4)] = true)
    /\ (error r <> None ->
        error r = Some ("Missing required parameters: "
                          ++ repr_str_list
                               (missing_of example_action
                                           [("x", PInt 3); ("y", PInt 4)]))%string).
Proof.
  apply (dry_run_never_invokes clock dry example_action
           [("x", PInt 3); ("y", PInt 4)] w0).
  reflexivity.
Defined.

(** C3 as stated fails: a callable that calls [sys.exit] raises
    [SystemExit], which [except Exception] does not catch, and the call
    raises instead of returning a record. *)
Lemma execute_action_propagates_system_exit :
  isinstance exit_request Exception = false
  /\ execute_action clock live quitting [] w0 =
     (Raised exit_request, mk_world [mk_pycall "quitting_action" []] tt).
Proof.
  split; reflexivity.
Qed.

Lemma missing_required_is_rejected_witness :
  exists r,
    execute_action clock live example_action [("y", PInt 4)] w0 = (Returned r, w0)
    /\ tool_executed r = false
    /\ error r = Some ("Missing required parameters: "
                         ++ repr_str_list
                              (missing_of example_action [("y", PInt 4)]))%string
    /\ missing_of example_action [("y", PInt 4)] <> []
    /\ (forall p, In p (missing_of example_action [("y", PInt 4)]) <->
                  In p (required_of example_action)
                  /\ dict_mem p [("y", PInt 4)] = false).
Proof.
  apply (missing_required_is_rejected clock live example_action [("y", PInt 4)] w0).
  exists "x". split; [left; reflexivity | reflexivity].
Defined.

(** An argument named [self] cannot be passed on: the record holds the
    [TypeError] of the call, and the function has not been called. *)
Example argument_named_self_is_refused :
  execute_action clock live example_action
                 [("x", PInt 3); ("self", PInt 1)] w0 =
  (Returned (mk_record false "sample_add" [("x", PInt 3); ("self", PInt 1)]
               PNone
               (Some "Action.execute() got multiple values for argument 'self'")
               (Some "TypeError: Action.execute() got multiple values for argument 'self'")
               "2025-01-01T00:00:00+0000"),
   w0).
Proof. reflexivity. Qed.

(** The demonstration's three runs. *)
Example run_valid_call :
  execute_action clock live example_action [("x", PInt 3); ("y", PInt 4)] w0 =
  (Returned (mk_record true "sample_add" [("x", PInt 3); ("y", PInt 4)]
                       (PInt 7) None None "2025-01-01T00:00:00+0000"),
   mk_world [mk_pycall "sample_action" [("x", PInt 3); ("y", PInt 4)]] tt).
Proof. reflexivity. Qed.

Example run_with_error_in_function :
  execute_action clock live bad [] w0 =
  (Returned (mk_record false "bad" [] PNone (Some "boom")
                       (Some "RuntimeError: boom") "2025-01-01T00:00:00+0000"),
   mk_world [mk_pycall "bad_action" []] tt).
Proof. reflexivity. Qed.

End EnvironmentExamples.

(** ** Dictionaries *)

Section DictFacts.
Import Py.
Context {V : Type}.

Lemma dict_get_app (k : string) (d e : pydict V) :
  dict_get k (d ++ e) =
  match dict_get k d with Some v => Some v | None => dict_get k e end.
Proof.
  induction d as [| [k' v'] d IH]; simpl; [reflexivity |].
  destruct (String.eqb k k'); [reflexivity | exact IH].
Qed.

Lemma dict_set_fresh (k : string) (v : V) (d : pydict V) :
  dict_get k d = None -> dict_set k v d = d ++ [(k, v)].
Proof.
  induction d as [| [k' v'] d IH]; simpl; [reflexivity |].
  destruct (String.eqb k k'); [discriminate |].
  intros Hnone. rewrite IH by exact Hnone. reflexivity.
Qed.

Lemma dict_get_set_same (k : string) (v : V) (d : pydict V) :
  dict_get k (dict_set k v d) = Some v.
Proof.
  induction d as [| [k' v'] d IH]; simpl.
  - rewrite String.eqb_refl. reflexivity.
  - destruct (String.eqb k k') eqn:Hk; simpl.
    + rewrite String.eqb_refl. reflexivity.
    + rewrite Hk. exact IH.
Qed.

Lemma dict_get_none (k : string) (d : pydict V) :
  dict_get k d = None <-> ~ In k (dict_keys d).
Proof.
  induction d as [| [k' v'] d IH]; simpl.
  - split; [intros _ [] | reflexivity].
  - destruct (String.eqb_spec k k') as [-> | Hne].
    + split; [discriminate | intros H; exfalso; apply H; left; reflexivity].
    + rewrite IH. split.
      * intros H [Heq | Hin]; [congruence | exact (H Hin)].
      * intros H Hin. apply H. right. exact Hin.
Qed.

Lemma dict_get_unique (k : string) (v : V) (d : pydict V) :
  NoDup (dict_keys d) -> In (k, v) d -> dict_get k d = Some v.
Proof.
  induction d as [| [k' v'] d IH]; simpl; intros Hnd Hin; [destruct Hin |].
  inversion Hnd as [| ? ? Hfresh Hrest]; subst.
  destruct Hin as [Heq | Hin].
  - inversion Heq; subst. rewrite String.eqb_refl. reflexivity.
  - destruct (String.eqb_spec k k') as [-> | Hne].
    + exfalso. apply Hfresh. change k' with (fst (k', v)).
      apply in_map. exact Hin.
    + apply IH; assumption.
Qed.

Lemma dict_get_in (k : string) (v : V) (d : pydict V) :
  dict_get k d = Some v -> In (k, v) d.
Proof.
  induction d as [| [k' v'] d IH]; simpl; [discriminate |].
  destruct (String.eqb_spec k k') as [-> | Hne].
  - intros Heq. inversion Heq. left. reflexivity.
  - intros Hget. right. apply IH. exact Hget.
Qed.

End DictFacts.

Lemma list_mem_In (x : string) (l : list string) :
  Py.list_mem x l = true <-> In x l.
Proof.
  unfold Py.list_mem. rewrite existsb_exists. split.
  - intros (y & Hin & Heq). apply String.eqb_eq in Heq. subst. exact Hin.
  - intros Hin. exists x. split; [exact Hin | apply String.eqb_refl].
Qed.

Lemma NoDup_map_filter {A B : Type} (f : A -> B) (g : A -> bool) (l : list A) :
  NoDup (map f l) -> NoDup (map f (filter g l)).
Proof.
  induction l as [| a l IH]; simpl; intros Hnd; [constructor |].
  inversion Hnd as [| ? ? Hfresh Hrest]; subst.
  destruct (g a); simpl; [| apply IH; exact Hrest].
  constructor; [| apply IH; exact Hrest].
  intros Hin. apply Hfresh. apply in_map_iff in Hin.
  destruct Hin as (b & Heq & Hb). apply filter_In in Hb.
  apply in_map_iff. exists b. split; [exact Heq | apply Hb].
Qed.

(** ** agent_core/registry.py *)

Section RegistryFacts.
Import Py Registry.
Context {S : Type} {interp : Interpreter}.

Lemma derive_step_cases (acc : pydict string * list string) (p : SigParameter) :
  derive_step acc p =
  if model_supplied p
  then (dict_set (param_name p) (_get_json_type (declared_type p)) (fst acc),
        if has_no_default p then snd acc ++ [param_name p] else snd acc)
  else acc.
Proof.
  unfold derive_step, model_supplied, has_no_default, declared_type.
  destruct (list_mem (param_name p) injected_names); simpl; [reflexivity |].
  destruct (param_default p); reflexivity.
Qed.

(** The loop over a signature with distinct names, started on tables that
    hold none of them, appends in signature order. *)
Lemma derive_fold (signature : list SigParameter) :
  forall (properties : pydict string) (required : list string),
    NoDup (map param_name signature) ->
    (forall p, In p signature -> dict_get (param_name p) properties = None) ->
    fold_left derive_step signature (properties, required) =
    (properties ++ map entry (filter model_supplied signature),
     required ++ map param_name
                  (filter (fun p => model_supplied p && has_no_default p) signature)).
Proof.
  induction signature as [| p signature IH]; intros properties required Hnd Hfresh.
  - simpl. rewrite !app_nil_r. reflexivity.
  - inversion Hnd as [| ? ? Hp Hrest]; subst.
    simpl fold_left. rewrite derive_step_cases. simpl filter. simpl fst. simpl snd.
    destruct (model_supplied p) eqn:Hsup.
    + rewrite (dict_set_fresh _ _ properties)
        by (apply Hfresh; left; reflexivity).
      assert (forall q, In q signature ->
                dict_get (param_name q)
                  (properties ++ [(param_name p, _get_json_type (declared_type p))])
                = None) as Hfresh'.
      { intros q Hq. rewrite dict_get_app.
        rewrite (Hfresh q) by (right; exact Hq). simpl.
        destruct (String.eqb_spec (param_name q) (param_name p)) as [Heq | Hne];
          [| reflexivity].
        exfalso. apply Hp. rewrite <- Heq. apply in_map. exact Hq. }
      rewrite (IH _ _ Hrest Hfresh').
      destruct (has_no_default p); simpl;
        rewrite <- ?app_assoc; reflexivity.
    + simpl. apply IH; [exact Hrest |].
      intros q Hq. apply Hfresh. right. exact Hq.
Qed.

Lemma derive_schema_closed (signature : list SigParameter) :
  NoDup (map param_name signature) ->
  derive_schema signature =
  mk_schema (Some "object")
    (Some (map entry (filter model_supplied signature)))
    (Some (map param_name
             (filter (fun p => model_supplied p && has_no_default p) signature))).
Proof.
  intros Hnd. unfold derive_schema.
  pose proof (derive_fold signature [] [] Hnd (fun _ _ => eq_refl)) as Hfold.
  simpl in Hfold. unfold pydict in *. rewrite Hfold. reflexivity.
Qed.

(** C6: for a function registered with no override, the schema has type
    ["object"]; its properties are the parameters other than
    [action_context] and [action_agent], in signature order, each with the
    JSON type of its declared type ([str] when it has none); its required
    list holds exactly those of them that have no default; and the type map
    is the stated one, with ["string"] for any other type. *)
Theorem derived_schema_contract (func : PyFunction S)
    (tool_name description : option string) (terminal : bool)
    (tags : option (list string)) :
  NoDup (map param_name (fn_signature func)) ->
  exists properties required,
    meta_parameters
      (_get_tool_metadata func tool_name description None terminal tags)
    = mk_schema (Some "object") (Some properties) (Some required)
    /\ (forall p, In p (fn_signature func) ->
          list_mem (param_name p) injected_names = false ->
          dict_get (param_name p) properties
          = Some (_get_json_type
                    (match param_hint p with Some t => t | None => Tstr end)))
    /\ (forall n, In n (dict_keys properties) <->
          exists p, In p (fn_signature func) /\ param_name p = n
                    /\ ~ In n ["action_context"; "action_agent"])
    /\ (forall n, In n required <->
          exists p, In p (fn_signature func) /\ param_name p = n
                    /\ param_default p = None
                    /\ ~ In n ["action_context"; "action_agent"])
    /\ (_get_json_type Tstr = "string" /\ _get_json_type Tint = "integer"
        /\ _get_json_type Tfloat = "number" /\ _get_json_type Tbool = "boolean"
        /\ _get_json_type Tlist = "array" /\ _get_json_type Tdict = "object"
        /\ forall other, _get_json_type (Tother other) = "string").
Proof.
  intros Hnd. unfold _get_tool_metadata. simpl meta_parameters.
  rewrite (derive_schema_closed _ Hnd).
  eexists. eexists. split; [reflexivity |].
  assert (forall p, model_supplied p = true <->
                    ~ In (param_name p) ["action_context"; "action_agent"])
    as Hsupplied.
  { intros p. unfold model_supplied. rewrite negb_true_iff.
    rewrite <- (list_mem_In (param_name p)).
    fold injected_names.
    destruct (list_mem (param_name p) injected_names); intuition congruence. }
  repeat split.
  - intros p Hin Hinj. apply dict_get_unique.
    + unfold dict_keys. rewrite map_map. simpl.
      apply NoDup_map_filter. exact Hnd.
    + apply (in_map entry _ p). apply filter_In. split; [exact Hin |].
      unfold model_supplied. rewrite Hinj. reflexivity.
  - unfold dict_keys. rewrite map_map. simpl. intros Hin.
    apply in_map_iff in Hin. destruct Hin as (p & Hname & Hp).
    apply filter_In in Hp. destruct Hp as [Hin Hsup].
    exists p. repeat split; [exact Hin | exact Hname |].
    rewrite <- Hname. apply Hsupplied. exact Hsup.
  - unfold dict_keys. rewrite map_map. simpl.
    intros (p & Hin & Hname & Hfree). apply in_map_iff.
    exists p. split; [exact Hname |]. apply filter_In. split; [exact Hin |].
    apply Hsupplied. rewrite Hname. exact Hfree.
  - intros Hin. apply in_map_iff in Hin. destruct Hin as (p & Hname & Hp).
    apply filter_In in Hp. destruct Hp as [Hin Hboth].
    apply andb_true_iff in Hboth. destruct Hboth as [Hsup Hdef].
    exists p. repeat split; [exact Hin | exact Hname | |].
    + unfold has_no_default in Hdef.
      destruct (param_default p); [discriminate | reflexivity].
    + rewrite <- Hname. apply Hsupplied. exact Hsup.
  - intros (p & Hin & Hname & Hdef & Hfree). apply in_map_iff.
    exists p. split; [exact Hname |]. apply filter_In. split; [exact Hin |].
    apply andb_true_iff. split.
    + apply Hsupplied. rewrite Hname. exact Hfree.
    + unfold has_no_default. rewrite Hdef. reflexivity.
Qed.

(** One round of [__init__] tracks an entry named ["terminate"], whatever
    the filters decide, and touches the tracked entry in no other case. *)
Lemma init_step_terminate_tool (tags tool_names : option (list string))
    (self : PythonActionRegistry S) (n : string) (meta : ToolMeta S) :
  terminate_tool (init_step tags tool_names self (n, meta)) =
  if String.eqb n "terminate" then Some meta else terminate_tool self.
Proof.
  unfold init_step.
  destruct (list_truthy tool_names && negb (list_mem n (opt_list tool_names)));
    [destruct (String.eqb n "terminate"); reflexivity |].
  destruct (list_truthy tags && negb (existsb _ (opt_list tags)));
    destruct (String.eqb n "terminate"); reflexivity.
Qed.

Lemma init_fold_untracked (tags tool_names : option (list string))
    (tools : pydict (ToolMeta S)) :
  forall self,
    ~ In "terminate" (dict_keys tools) ->
    terminate_tool (fold_left (init_step tags tool_names) tools self)
    = terminate_tool self.
Proof.
  induction tools as [| [n meta] tools IH]; intros self Hnot; [reflexivity |].
  cbn [fold_left]. rewrite IH.
  - rewrite init_step_terminate_tool.
    destruct (String.eqb_spec n "terminate") as [-> | Hne]; [| reflexivity].
    exfalso. apply Hnot. left. reflexivity.
  - intros Hin. apply Hnot. right. exact Hin.
Qed.

Lemma init_fold_tracked (tags tool_names : option (list string))
    (tools : pydict (ToolMeta S)) (meta : ToolMeta S) :
  forall self,
    NoDup (dict_keys tools) ->
    In ("terminate", meta) tools ->
    terminate_tool (fold_left (init_step tags tool_names) tools self) = Some meta.
Proof.
  induction tools as [| [n m] tools IH]; intros self Hnd Hin; [destruct Hin |].
  inversion Hnd as [| ? ? Hfresh Hrest]; subst.
  cbn [fold_left]. destruct Hin as [Heq | Hin].
  - inversion Heq; subst.
    rewrite init_fold_untracked by exact Hfresh.
    rewrite init_step_terminate_tool. reflexivity.
  - apply IH; assumption.
Qed.

(** C7: the entry of [TOOLS] named ["terminate"] is tracked whatever the
    tag and name filters are, so [register_terminate_tool] registers the
    action made from it; and [register_terminate_tool] raises (a
    [RuntimeError], leaving the registry as it was) exactly when [TOOLS] has
    no entry of that name. *)
Theorem terminate_tool_tracked (tags tool_names : option (list string))
    (tools : pydict (ToolMeta S)) :
  NoDup (dict_keys tools) ->
  let reg := PythonActionRegistry_init tags tool_names tools in
  (forall meta,
     dict_get "terminate" tools = Some meta ->
     exists reg',
       register_terminate_tool reg = (Returned tt, reg')
       /\ get_action reg' "terminate" = Some (action_of_meta "terminate" meta))
  /\ (dict_get "terminate" tools = None ->
      register_terminate_tool reg = (Raised terminate_not_found, reg)
      /\ exc_type terminate_not_found = RuntimeError)
  /\ ((exists e, fst (register_terminate_tool reg) = Raised e) <->
      dict_get "terminate" tools = None).
Proof.
  intros Hnd reg.
  assert (forall meta, dict_get "terminate" tools = Some meta ->
            terminate_tool reg = Some meta) as Htracked.
  { intros meta Hget. apply init_fold_tracked; [exact Hnd |].
    apply dict_get_in. exact Hget. }
  assert (dict_get "terminate" tools = None -> terminate_tool reg = None)
    as Huntracked.
  { intros Hget. unfold reg, PythonActionRegistry_init.
    rewrite init_fold_untracked; [reflexivity |].
    apply dict_get_none. exact Hget. }
  split; [| split].
  - intros meta Hget. unfold register_terminate_tool.
    rewrite (Htracked meta Hget). eexists. split; [reflexivity |].
    unfold get_action, register. simpl. apply dict_get_set_same.
  - intros Hget. unfold register_terminate_tool.
    rewrite (Huntracked Hget). split; reflexivity.
  - split.
    + intros [e He].
      destruct (dict_get "terminate" tools) as [meta |] eqn:Hget; [| reflexivity].
      unfold register_terminate_tool in He.
      rewrite (Htracked meta eq_refl) in He. discriminate.
    + intros Hget. exists terminate_not_found.
      unfold register_terminate_tool. rewrite (Huntracked Hget). reflexivity.
Qed.

End RegistryFacts.

Section RegistryExamples.
Import Py Registry Demo.

Lemma derived_schema_contract_witness :
  exists properties required,
    meta_parameters (_get_tool_metadata lookup_note None None None false None)
    = mk_schema (Some "object") (Some properties) (Some required)
    /\ (forall p, In p (fn_signature lookup_note) ->
          list_mem (param_name p) injected_names = false ->
          dict_get (param_name p) properties
          = Some (_get_json_type
                    (match param_hint p with Some t => t | None => Tstr end)))
    /\ (forall n, In n (dict_keys properties) <->
          exists p, In p (fn_signature lookup_note) /\ param_name p = n
                    /\ ~ In n ["action_context"; "action_agent"])
    /\ (forall n, In n required <->
          exists p, In p (fn_signature lookup_note) /\ param_name p = n
                    /\ param_default p = None
                    /\ ~ In n ["action_context"; "action_agent"])
    /\ (_get_json_type Tstr = "string" /\ _get_json_type Tint = "integer"
        /\ _get_json_type Tfloat = "number" /\ _get_json_type Tbool = "boolean"
        /\ _get_json_type Tlist = "array" /\ _get_json_type Tdict = "object"
        /\ forall other, _get_json_type (Tother other) = "string").
Proof.
  apply (derived_schema_contract lookup_note None None false None).
  simpl. repeat constructor; simpl; intuition discriminate.
Defined.

(** The schema derived for [lookup_note]: the injected context is left
    out, the unannotated [key] and the [List[str]] of [labels] both read
    ["string"], and [limit], which has a default, is not required. *)
Example lookup_note_schema :
  meta_parameters (_get_tool_metadata lookup_note None None None false None) =
  mk_schema (Some "object")
    (Some [("key", "string"); ("limit", "integer"); ("labels", "string")])
    (Some ["key"; "labels"]).
Proof. reflexivity. Qed.

Example write_project_file_schema :
  meta_parameters (_get_tool_metadata write_project_file None None None false None) =
  mk_schema (Some "object")
    (Some [("name", "string"); ("content", "string"); ("overwrite", "boolean")])
    (Some ["name"; "content"]).
Proof. reflexivity. Qed.

Lemma terminate_tool_tracked_witness :
  let reg := PythonActionRegistry_init (Some ["info"]) None (TOOLS system_catalog) in
  (forall meta,
     dict_get "terminate" (TOOLS system_catalog) = Some meta ->
     exists reg',
       register_terminate_tool reg = (Returned tt, reg')
       /\ get_action reg' "terminate" = Some (action_of_meta "terminate" meta))
  /\ (dict_get "terminate" (TOOLS system_catalog) = None ->
      register_terminate_tool reg = (Raised terminate_not_found, reg)
      /\ exc_type terminate_not_found = RuntimeError)
  /\ ((exists e, fst (register_terminate_tool reg) = Raised e) <->
      dict_get "terminate" (TOOLS system_catalog) = None).
Proof.
  apply (terminate_tool_tracked (Some ["info"]) None (TOOLS system_catalog)).
  simpl. repeat constructor; simpl; intuition discriminate.
Defined.

(** The tag filter [info] leaves [terminate] out of the registry, and
    [register_terminate_tool] still brings it in. *)
Example filtered_registry_registers_terminate :
  let reg := PythonActionRegistry_init (Some ["info"]) None (TOOLS system_catalog) in
  dict_keys (actions reg) = ["get_current_time"]
  /\ exists reg',
       register_terminate_tool reg = (Returned tt, reg')
       /\ dict_keys (actions reg') = ["get_current_time"; "terminate"]
       /\ option_map terminal (get_action reg' "terminate") = Some true.
Proof.
  split; [reflexivity |]. eexists. split; [reflexivity |]. split; reflexivity.
Qed.

(** A catalog without a tool named [terminate], even one whose tool is
    marked terminal, makes [register_terminate_tool] raise. *)
Example no_terminate_tool_raises :
  let tools :=
    TOOLS (register_tool (Some "finish") None None true None terminate
                         empty_catalog) in
  register_terminate_tool (PythonActionRegistry_init None None tools) =
  (Raised terminate_not_found, PythonActionRegistry_init None None tools).
Proof. reflexivity. Qed.

End RegistryExamples.

(** ** json.loads *)

Section JsonFacts.
Import Py Json.
Context {interp : Interpreter}.

Lemma str_length_append (a b : string) :
  String.length (a ++ b)%string = String.length a + String.length b.
Proof.
  induction a as [| c a IH]; simpl; [reflexivity | rewrite IH; reflexivity].
Qed.

Lemma skip_ws_length (s : string) :
  String.length (skip_ws s) <= String.length s.
Proof.
  induction s as [| c s IH]; simpl; [lia |].
  destruct (is_ws c); simpl; lia.
Qed.

Lemma utf8_length (cp : N) : String.length (utf8 cp) <= 4.
Proof.
  unfold utf8.
  destruct (cp <? 128)%N; [simpl; lia |].
  destruct (cp <? 2048)%N; [simpl; lia |].
  destruct (cp <? 65536)%N; simpl; lia.
Qed.

Lemma emit_scanned (chunk : string) (r : scan string) (k rest : string) :
  emit chunk r = Scanned k rest ->
  exists k', r = Scanned k' rest /\ k = (chunk ++ k')%string.
Proof.
  unfold emit, scan_map. destruct r as [k' rest' | | e |]; try discriminate.
  intros H. inversion H; subst. exists k'. split; reflexivity.
Qed.

Lemma scanstring_consumes (n : nat) :
  forall s k rest,
    String.length s <= n ->
    scanstring s = Scanned k rest ->
    String.length k + String.length rest + 1 <= String.length s.
Proof.
  induction n as [| n IH]; intros s k rest Hlen Hscan.
  - destruct s; [discriminate | simpl in Hlen; lia].
  - destruct s as [| c s]; [discriminate |].
    simpl in Hlen. cbn [scanstring] in Hscan.
    repeat (break_hyp Hscan; try discriminate);
      try (inversion Hscan; subst; simpl; lia);
      apply emit_scanned in Hscan; destruct Hscan as (k' & Hrec & ->);
      apply IH in Hrec; subst; simpl in *; rewrite ?str_length_append; simpl;
      try lia.
    all: match goal with
         | |- context [String.length (utf8 ?u)] => pose proof (utf8_length u); lia
         end.
Qed.

(** Scanning a string literal gives a string or a [JSONDecodeError]. *)
Lemma emit_plain (chunk : string) (r : scan string) :
  is_plain r -> is_plain (emit chunk r).
Proof.
  destruct r; simpl; trivial.
Qed.

Lemma scanstring_plain_upto (n : nat) :
  forall s, String.length s <= n -> is_plain (scanstring s).
Proof.
  induction n as [| n IH]; intros s Hlen.
  - destruct s; [exact I | simpl in Hlen; lia].
  - destruct s as [| c s]; [exact I |].
    simpl in Hlen. cbn [scanstring].
    repeat match goal with
           | |- is_plain (emit _ _) => apply emit_plain; apply IH; simpl in *; lia
           | |- is_plain (match ?x with _ => _ end) => destruct x eqn:?
           | |- is_plain Malformed => exact I
           | |- is_plain (Scanned _ _) => exact I
           end.
Qed.

Lemma scanstring_plain (s : string) : is_plain (scanstring s).
Proof.
  apply (scanstring_plain_upto (String.length s)). lia.
Qed.

Lemma strip_prefix_length (word s rest : string) :
  strip_prefix word s = Some rest ->
  String.length s = String.length word + String.length rest.
Proof.
  revert s. induction word as [| a word IH]; intros s H; simpl in H.
  - inversion H. reflexivity.
  - destruct s as [| b s]; [discriminate |].
    destruct (Ascii.eqb a b); [| discriminate].
    simpl. rewrite (IH s H). reflexivity.
Qed.

Lemma span_digits_length (s : string) :
  String.length (snd (span_digits s)) <= String.length s.
Proof.
  induction s as [| c s IH]; simpl; [lia |].
  destruct (is_digit c); simpl; [| lia].
  destruct (span_digits s) as [ds rest]. simpl in *. lia.
Qed.

Lemma match_digits_consumes (s ds rest : string) :
  match_digits s = Some (ds, rest) ->
  String.length rest + 1 <= String.length s.
Proof.
  unfold match_digits. destruct s as [| c s]; [discriminate |].
  destruct (Ascii.eqb c "0").
  - intros H. inversion H; subst. simpl. lia.
  - destruct (is_digit c) eqn:Hd; [| discriminate].
    intros H. inversion H as [Hspan]. simpl in Hspan. rewrite Hd in Hspan.
    pose proof (span_digits_length s) as Hlen.
    destruct (span_digits s) as [ds' rest']. inversion Hspan; subst.
    simpl in *. lia.
Qed.

Lemma match_integer_consumes (s integer rest : string) :
  match_integer s = Some (integer, rest) ->
  String.length rest + 1 <= String.length s.
Proof.
  unfold match_integer. destruct s as [| c s]; [discriminate |].
  destruct (Ascii.eqb c "-").
  - destruct (match_digits s) as [[ds r] |] eqn:Hd; [| discriminate].
    intros H. inversion H; subst. apply match_digits_consumes in Hd.
    simpl. lia.
  - apply match_digits_consumes.
Qed.

Lemma match_frac_length (s : string) :
  String.length (snd (match_frac s)) <= String.length s.
Proof.
  unfold match_frac. destruct s as [| c s]; [simpl; lia |].
  pose proof (span_digits_length s) as Hlen.
  repeat match goal with
         | |- context [match ?x with _ => _ end] => destruct x; simpl in *
         end; lia.
Qed.

Lemma match_exp_length (s : string) :
  String.length (snd (match_exp s)) <= String.length s.
Proof.
  unfold match_exp. destruct s as [| e s]; [simpl; lia |].
  destruct (Ascii.eqb e "e" || Ascii.eqb e "E"); [| simpl; lia].
  destruct s as [| c s].
  - simpl. lia.
  - pose proof (span_digits_length s) as Hs.
    pose proof (span_digits_length (String c s)) as Hcs.
    destruct (Ascii.eqb c "-" || Ascii.eqb c "+").
    + destruct (span_digits s) as [[| d ds] rest]; simpl in *; lia.
    + destruct (span_digits (String c s)) as [[| d ds] rest]; simpl in *; lia.
Qed.

Lemma int_conversion_cases (text : string) :
  int_conversion text = Returned (int_of text)
  \/ (int_conversion text = Raised (digits_error int_max_str_digits (digits_of text))
      /\ 640 < digits_of text /\ 0 < int_max_str_digits
      /\ int_max_str_digits < digits_of text).
Proof.
  unfold int_conversion.
  destruct (640 <? digits_of text)%nat eqn:H1; [| left; reflexivity].
  destruct (0 <? int_max_str_digits)%nat eqn:H2; [| left; reflexivity].
  destruct (int_max_str_digits <? digits_of text)%nat eqn:H3; [| left; reflexivity].
  right. apply Nat.ltb_lt in H1, H2, H3. simpl. repeat split; assumption.
Qed.

(** What the number branch gives when the pattern matches: the integer
    part and its conversion, and what follows the number. *)
Lemma match_number_cases (s : string) (r : scan pyval) :
  match_number s = Some r ->
  exists integer rest0,
    match_integer s = Some (integer, rest0)
    /\ ((exists v, r = Scanned v (snd (match_exp (snd (match_frac rest0))))
                   /\ weight v = 0)
        \/ (exists e, r = Interrupted e
                      /\ int_conversion integer = Raised e)).
Proof.
  unfold match_number. intros H.
  destruct (match_integer s) as [[integer r0] |] eqn:Hint; [| discriminate].
  exists integer, r0. split; [reflexivity |].
  destruct (match_frac r0) as [frac r1]. cbn [snd].
  destruct (match_exp r1) as [exp r2]. simpl in *.
  destruct frac; destruct exp;
    try (inversion H; subst; left; eexists; split; reflexivity).
  destruct (int_conversion integer) as [z | e] eqn:Hconv;
    inversion H; subst.
  - left. eexists. split; reflexivity.
  - right. exists e. split; reflexivity.
Qed.

Lemma match_number_consumes (s rest : string) (v : pyval) :
  match_number s = Some (Scanned v rest) ->
  weight v = 0 /\ String.length rest + 1 <= String.length s.
Proof.
  intros H. apply match_number_cases in H.
  destruct H as (integer & r0 & Hint & [(v' & Heq & Hw) | (e & Heq & _)]);
    [| discriminate].
  inversion Heq; subst. apply match_integer_consumes in Hint.
  pose proof (match_frac_length r0). 
  pose proof (match_exp_length (snd (match_frac r0))).
  split; [exact Hw | lia].
Qed.

(** The branches of [scan_atom]: a literal word, no match, or a number. *)
Lemma scan_atom_cases (s : string) (r : scan pyval) :
  scan_atom s = r ->
  (exists v rest word,
     r = Scanned v rest /\ weight v = 0
     /\ strip_prefix word s = Some rest /\ 1 <= String.length word)
  \/ r = Malformed
  \/ match_number s = Some r.
Proof.
  unfold scan_atom. intros H.
  repeat match type of H with
         | context [match strip_prefix ?w s with _ => _ end] =>
             let Hp := fresh "Hp" in
             destruct (strip_prefix w s) eqn:Hp;
             [subst r; left; eexists; eexists; exists w;
              split; [reflexivity |]; split; [reflexivity |];
              split; [exact Hp | simpl; lia] |]
         | context [match match_number s with _ => _ end] =>
             let Hn := fresh "Hn" in
             destruct (match_number s) as [r' |] eqn:Hn;
             [subst r'; right; right; reflexivity |]
         end.
  right. left. symmetry. exact H.
Qed.

Lemma scan_atom_consumes (s rest : string) (v : pyval) :
  scan_atom s = Scanned v rest ->
  weight v = 0 /\ String.length rest + 1 <= String.length s.
Proof.
  intros H. destruct (scan_atom_cases s _ H)
    as [(v' & rest' & word & Heq & Hw & Hp & Hlen) | [Heq | Hnum]].
  - inversion Heq; subst. apply strip_prefix_length in Hp.
    split; [exact Hw | lia].
  - discriminate.
  - apply match_number_consumes. exact Hnum.
Qed.

Lemma scan_atom_fuel_free (s : string) : scan_atom s <> OutOfFuel.
Proof.
  intros H. destruct (scan_atom_cases s _ H)
    as [(v' & rest' & word & Heq & _) | [Heq | Hnum]]; try discriminate.
  apply match_number_cases in Hnum.
  destruct Hnum as (integer & r0 & _ & [(v' & Heq & _) | (e & Heq & _)]);
    discriminate.
Qed.

(** An atom interrupts the decoder only through [int]. *)
Lemma scan_atom_interrupted (s : string) (e : exn) :
  scan_atom s = Interrupted e ->
  exists integer rest0,
    match_integer s = Some (integer, rest0)
    /\ e = digits_error int_max_str_digits (digits_of integer)
    /\ 640 < digits_of integer /\ 0 < int_max_str_digits
    /\ int_max_str_digits < digits_of integer.
Proof.
  intros H. destruct (scan_atom_cases s _ H)
    as [(v' & rest' & word & Heq & _) | [Heq | Hnum]]; try discriminate.
  apply match_number_cases in Hnum.
  destruct Hnum as (integer & r0 & Hint & [(v' & Heq & _) | (e' & Heq & Hconv)]);
    [discriminate |].
  inversion Heq; subst e'.
  exists integer, r0. split; [exact Hint |].
  destruct (int_conversion_cases integer) as [Hok | (Hbad & Hlimits)].
  - rewrite Hok in Hconv. discriminate.
  - rewrite Hbad in Hconv. inversion Hconv. split; [reflexivity | exact Hlimits].
Qed.

Lemma weight_items_app (a b : list (string * pyval)) :
  weight_items (a ++ b) = weight_items a + weight_items b.
Proof.
  unfold weight_items. rewrite map_app, list_sum_app. reflexivity.
Qed.

Lemma weight_dict_set (k : string) (v : pyval) (d : pydict pyval) :
  weight_items (dict_set k v d) <= weight_items d + weight v.
Proof.
  induction d as [| [k' v'] d IH]; simpl.
  - unfold weight_items. simpl. lia.
  - destruct (String.eqb k k'); unfold weight_items in *; simpl in *; lia.
Qed.

Lemma weight_dict_of_pairs (pairs : list (string * pyval)) :
  weight_items (dict_of_pairs pairs) <= weight_items pairs.
Proof.
  unfold dict_of_pairs.
  assert (forall d, weight_items (fold_left (fun d kv => dict_set (fst kv) (snd kv) d) pairs d)
                    <= weight_items d + weight_items pairs) as Hgen.
  { induction pairs as [| [k v] pairs IH]; intros d; simpl.
    - unfold weight_items at 3. simpl. lia.
    - specialize (IH (dict_set k v d)).
      pose proof (weight_dict_set k v d).
      unfold weight_items at 3. simpl. fold (weight_items pairs). lia. }
  specialize (Hgen []). unfold weight_items at 2 in Hgen. simpl in Hgen. exact Hgen.
Qed.

Lemma scan_consumes (fuel : nat) :
  (forall room s v rest,
     scan_once fuel room s = Scanned v rest -> consumes s v rest 0)
  /\ (forall room s v rest,
        JSONObject fuel room s = Scanned v rest -> consumes s v rest 0)
  /\ (forall room pairs s v rest,
        object_pairs fuel room pairs s = Scanned v rest ->
        consumes s v rest (weight_items pairs))
  /\ (forall room s v rest,
        JSONArray fuel room s = Scanned v rest -> consumes s v rest 0)
  /\ (forall room values s v rest,
        array_values fuel room values s = Scanned v rest ->
        consumes s v rest (list_sum (map weight values))).
Proof.
  unfold consumes.
  induction fuel as [| fuel (IHonce & IHobj & IHpairs & IHarr & IHvalues)].
  - repeat split; intros; discriminate.
  - repeat split.
    + intros room s v rest H. destruct s as [| c s]; [discriminate |].
      cbn [scan_once] in H.
      destruct (Ascii.eqb c dquote).
      { destruct (scanstring s) as [k r | | e |] eqn:Hs; try discriminate.
        inversion H; subst.
        apply (scanstring_consumes (String.length s)) in Hs; [| lia].
        simpl. lia. }
      destruct (Ascii.eqb c "{").
      { destruct room as [| room]; [discriminate |].
        apply IHobj in H. simpl. lia. }
      destruct (Ascii.eqb c "[").
      { destruct room as [| room]; [discriminate |].
        apply IHarr in H. simpl. lia. }
      apply scan_atom_consumes in H. lia.
    + intros room s v rest H. cbn [JSONObject] in H.
      pose proof (skip_ws_length s) as Hws.
      destruct (skip_ws s) as [| c r]; [discriminate |].
      destruct (Ascii.eqb c "}"); [inversion H; subst; simpl in *; lia |].
      destruct (Ascii.eqb c dquote); [| discriminate].
      apply IHpairs in H. unfold weight_items in H. simpl in *. lia.
    + intros room pairs s v rest H. cbn [object_pairs] in H.
      destruct (scanstring s) as [key after_key | | e |] eqn:Hkey;
        try discriminate.
      apply (scanstring_consumes (String.length s)) in Hkey; [| lia].
      pose proof (skip_ws_length after_key) as Hws1.
      destruct (skip_ws after_key) as [| colon after_colon]; [discriminate |].
      destruct (Ascii.eqb colon ":"); [| discriminate].
      pose proof (skip_ws_length after_colon) as Hws2.
      destruct (scan_once fuel room (skip_ws after_colon))
        as [value after_value | | e |] eqn:Hvalue; try discriminate.
      apply IHonce in Hvalue.
      pose proof (skip_ws_length after_value) as Hws3.
      destruct (skip_ws after_value) as [| c r]; [discriminate |].
      destruct (Ascii.eqb c "}").
      { inversion H; subst.
        pose proof (weight_dict_of_pairs (pairs ++ [(key, value)])) as Hw.
        rewrite weight_items_app in Hw. unfold weight_items at 3 in Hw.
        simpl in *. fold (weight_items (dict_of_pairs (pairs ++ [(key, value)]))).
        lia. }
      destruct (Ascii.eqb c ","); [| discriminate].
      pose proof (skip_ws_length r) as Hws4.
      destruct (skip_ws r) as [| q r']; [discriminate |].
      destruct (Ascii.eqb q dquote); [| discriminate].
      apply IHpairs in H. rewrite weight_items_app in H.
      unfold weight_items at 2 in H. simpl in *. lia.
    + intros room s v rest H. cbn [JSONArray] in H.
      pose proof (skip_ws_length s) as Hws.
      destruct (skip_ws s) as [| c r] eqn:Hskip; [discriminate |].
      destruct (Ascii.eqb c "]"); [inversion H; subst; simpl in *; lia |].
      apply IHvalues in H. simpl in *. lia.
    + intros room values s v rest H. cbn [array_values] in H.
      destruct (scan_once fuel room s) as [value after_value | | e |] eqn:Hvalue;
        try discriminate.
      apply IHonce in Hvalue.
      pose proof (skip_ws_length after_value) as Hws.
      destruct (skip_ws after_value) as [| c r]; [discriminate |].
      destruct (Ascii.eqb c "]").
      { inversion H; subst. simpl. rewrite map_app, list_sum_app. simpl in *. lia. }
      destruct (Ascii.eqb c ","); [| discriminate].
      pose proof (skip_ws_length r) as Hws2.
      apply IHvalues in H. rewrite map_app, list_sum_app in H. simpl in *. lia.
Qed.

Lemma scanstring_fuel_free (s : string) : scanstring s <> OutOfFuel.
Proof.
  pose proof (scanstring_plain s) as H. intros Heq. rewrite Heq in H. exact H.
Qed.

Lemma scanstring_uninterrupted (s : string) (e : exn) :
  scanstring s <> Interrupted e.
Proof.
  pose proof (scanstring_plain s) as H. intros Heq. rewrite Heq in H. exact H.
Qed.

Lemma scan_fuel_enough (fuel : nat) :
  (forall room s,
     3 * String.length s + 1 <= fuel -> scan_once fuel room s <> OutOfFuel)
  /\ (forall room s,
        3 * String.length s + 3 <= fuel -> JSONObject fuel room s <> OutOfFuel)
  /\ (forall room pairs s,
        3 * String.length s + 2 <= fuel ->
        object_pairs fuel room pairs s <> OutOfFuel)
  /\ (forall room s,
        3 * String.length s + 3 <= fuel -> JSONArray fuel room s <> OutOfFuel)
  /\ (forall room values s,
        3 * String.length s + 2 <= fuel ->
        array_values fuel room values s <> OutOfFuel).
Proof.
  induction fuel as [| fuel (IHonce & IHobj & IHpairs & IHarr & IHvalues)].
  - repeat split; intros; lia.
  - repeat split.
    + intros room s Hfuel. destruct s as [| c s]; [discriminate |].
      cbn [scan_once]. simpl in Hfuel.
      destruct (Ascii.eqb c dquote).
      { pose proof (scanstring_fuel_free s) as Hs.
        destruct (scanstring s); simpl; congruence. }
      destruct (Ascii.eqb c "{").
      { destruct room as [| room]; [discriminate | apply IHobj; lia]. }
      destruct (Ascii.eqb c "[").
      { destruct room as [| room]; [discriminate | apply IHarr; lia]. }
      apply scan_atom_fuel_free.
    + intros room s Hfuel. cbn [JSONObject].
      pose proof (skip_ws_length s) as Hws.
      destruct (skip_ws s) as [| c r]; [discriminate |].
      destruct (Ascii.eqb c "}"); [discriminate |].
      destruct (Ascii.eqb c dquote); [| discriminate].
      apply IHpairs. simpl in *. lia.
    + intros room pairs s Hfuel. cbn [object_pairs].
      pose proof (scanstring_fuel_free s) as Hs.
      destruct (scanstring s) as [key after_key | | e |] eqn:Hkey;
        [| discriminate | discriminate | congruence].
      apply (scanstring_consumes (String.length s)) in Hkey; [| lia].
      pose proof (skip_ws_length after_key) as Hws1.
      destruct (skip_ws after_key) as [| colon after_colon]; [discriminate |].
      destruct (Ascii.eqb colon ":"); [| discriminate].
      pose proof (skip_ws_length after_colon) as Hws2.
      assert (scan_once fuel room (skip_ws after_colon) <> OutOfFuel) as Honce
        by (apply IHonce; simpl in *; lia).
      destruct (scan_once fuel room (skip_ws after_colon))
        as [value after_value | | e |] eqn:Hvalue;
        [| discriminate | discriminate | congruence].
      apply scan_consumes in Hvalue. unfold consumes in Hvalue.
      pose proof (skip_ws_length after_value) as Hws3.
      destruct (skip_ws after_value) as [| c r]; [discriminate |].
      destruct (Ascii.eqb c "}"); [discriminate |].
      destruct (Ascii.eqb c ","); [| discriminate].
      pose proof (skip_ws_length r) as Hws4.
      destruct (skip_ws r) as [| q r']; [discriminate |].
      destruct (Ascii.eqb q dquote); [| discriminate].
      apply IHpairs. simpl in *. lia.
    + intros room s Hfuel. cbn [JSONArray].
      pose proof (skip_ws_length s) as Hws.
      destruct (skip_ws s) as [| c r] eqn:Hskip; [discriminate |].
      destruct (Ascii.eqb c "]"); [discriminate |].
      apply IHvalues. simpl in *. lia.
    + intros room values s Hfuel. cbn [array_values].
      assert (scan_once fuel room s <> OutOfFuel) as Honce by (apply IHonce; lia).
      destruct (scan_once fuel room s) as [value after_value | | e |] eqn:Hvalue;
        [| discriminate | discriminate | congruence].
      apply scan_consumes in Hvalue. unfold consumes in Hvalue.
      pose proof (skip_ws_length after_value) as Hws.
      destruct (skip_ws after_value) as [| c r]; [discriminate |].
      destruct (Ascii.eqb c "]"); [discriminate |].
      destruct (Ascii.eqb c ","); [| discriminate].
      pose proof (skip_ws_length r) as Hws2.
      apply IHvalues. simpl in *. lia.
Qed.

(** Whatever interrupts the decoder is one of the limits. *)
Lemma scan_interrupted (fuel : nat) :
  (forall room s e, scan_once fuel room s = Interrupted e -> is_limit_error e)
  /\ (forall room s e, JSONObject fuel room s = Interrupted e -> is_limit_error e)
  /\ (forall room pairs s e,
        object_pairs fuel room pairs s = Interrupted e -> is_limit_error e)
  /\ (forall room s e, JSONArray fuel room s = Interrupted e -> is_limit_error e)
  /\ (forall room values s e,
        array_values fuel room values s = Interrupted e -> is_limit_error e).
Proof.
  induction fuel as [| fuel (IHonce & IHobj & IHpairs & IHarr & IHvalues)].
  - repeat split; intros; discriminate.
  - repeat split.
    + intros room s e H. destruct s as [| c s]; [discriminate |].
      cbn [scan_once] in H.
      destruct (Ascii.eqb c dquote).
      { pose proof (scanstring_plain s) as Hs.
        destruct (scanstring s); simpl in *; try discriminate; contradiction. }
      destruct (Ascii.eqb c "{").
      { destruct room as [| room]; [| eapply IHobj; exact H].
        inversion H. left. reflexivity. }
      destruct (Ascii.eqb c "[").
      { destruct room as [| room]; [| eapply IHarr; exact H].
        inversion H. right. left. reflexivity. }
      apply scan_atom_interrupted in H.
      destruct H as (integer & r0 & _ & -> & Hlimits).
      right. right. exists (digits_of integer). split; [reflexivity | exact Hlimits].
    + intros room s e H. cbn [JSONObject] in H.
      destruct (skip_ws s) as [| c r]; [discriminate |].
      destruct (Ascii.eqb c "}"); [discriminate |].
      destruct (Ascii.eqb c dquote); [| discriminate].
      eapply IHpairs. exact H.
    + intros room pairs s e H. cbn [object_pairs] in H.
      pose proof (scanstring_plain s) as Hs.
      destruct (scanstring s) as [key after_key | | e' |];
        [| discriminate | contradiction | discriminate].
      destruct (skip_ws after_key) as [| colon after_colon]; [discriminate |].
      destruct (Ascii.eqb colon ":"); [| discriminate].
      destruct (scan_once fuel room (skip_ws after_colon))
        as [value after_value | | e' |] eqn:Hvalue; try discriminate.
      * destruct (skip_ws after_value) as [| c r]; [discriminate |].
        destruct (Ascii.eqb c "}"); [discriminate |].
        destruct (Ascii.eqb c ","); [| discriminate].
        destruct (skip_ws r) as [| q r']; [discriminate |].
        destruct (Ascii.eqb q dquote); [| discriminate].
        eapply IHpairs. exact H.
      * inversion H; subst e'. eapply IHonce. exact Hvalue.
    + intros room s e H. cbn [JSONArray] in H.
      destruct (skip_ws s) as [| c r] eqn:Hskip; [discriminate |].
      destruct (Ascii.eqb c "]"); [discriminate |].
      eapply IHvalues. exact H.
    + intros room values s e H. cbn [array_values] in H.
      destruct (scan_once fuel room s) as [value after_value | | e' |] eqn:Hvalue;
        try discriminate.
      * destruct (skip_ws after_value) as [| c r]; [discriminate |].
        destruct (Ascii.eqb c "]"); [discriminate |].
        destruct (Ascii.eqb c ","); [| discriminate].
        eapply IHvalues. exact H.
      * inversion H; subst e'. eapply IHonce. exact Hvalue.
Qed.

(** [json.loads] returns a value, raises [JSONDecodeError], or is stopped
    by one of the interpreter's limits. *)
Lemma loads_outcomes (s : string) :
  (exists v, loads s = Returned v)
  \/ loads s = Raised json_decode_error
  \/ (exists e, loads s = Raised e /\ is_limit_error e).
Proof.
  unfold loads.
  destruct (strip_prefix bom s); [right; left; reflexivity |].
  pose proof (skip_ws_length s) as Hws.
  assert (scan_once (fuel_for s) recursion_room (skip_ws s) <> OutOfFuel) as Hfuel
    by (apply scan_fuel_enough; unfold fuel_for; lia).
  destruct (scan_once (fuel_for s) recursion_room (skip_ws s))
    as [obj rest | | e |] eqn:Hscan;
    [| right; left; reflexivity | | congruence].
  - destruct (skip_ws rest);
      [left; eexists; reflexivity | right; left; reflexivity].
  - right. right. exists e. split; [reflexivity |].
    eapply (proj1 (scan_interrupted _)). exact Hscan.
Qed.

(** The errors of the limits are not [JSONDecodeError]s, and they are
    [Exception]s. *)
Lemma limit_error_class (e : exn) :
  is_limit_error e ->
  isinstance e JSONDecodeError = false /\ isinstance e Exception = true.
Proof.
  intros [-> | [-> | (digits & -> & _)]]; split; reflexivity.
Qed.

(** A decoded value carries less text than the document it came from. *)
Lemma loads_weight (s : string) (v : pyval) :
  loads s = Returned v -> weight v < String.length s.
Proof.
  unfold loads.
  destruct (strip_prefix bom s); [discriminate |].
  pose proof (skip_ws_length s) as Hws.
  destruct (scan_once (fuel_for s) recursion_room (skip_ws s))
    as [obj rest | | e |] eqn:Hscan; try discriminate.
  apply scan_consumes in Hscan. unfold consumes in Hscan.
  destruct (skip_ws rest); [| discriminate].
  intros H. inversion H; subst. lia.
Qed.

(** *** What is left of a text has no more of any character *)

Lemma shrinks_refl (s : string) : shrinks s s.
Proof. intros p. lia. Qed.

Lemma shrinks_trans (a b c : string) :
  shrinks a b -> shrinks b c -> shrinks a c.
Proof.
  intros Hab Hbc p. specialize (Hab p). specialize (Hbc p). lia.
Qed.

Lemma shrinks_tail (c : ascii) (s : string) : shrinks s (String c s).
Proof. intros p. simpl. lia. Qed.

Lemma shrinks_after (c : ascii) (rest s : string) :
  shrinks (String c rest) s -> shrinks rest s.
Proof.
  intros H. eapply shrinks_trans; [apply shrinks_tail | exact H].
Qed.

Lemma skip_ws_shrinks (s : string) : shrinks (skip_ws s) s.
Proof.
  induction s as [| c s IH]; simpl; [apply shrinks_refl |].
  destruct (is_ws c); [| apply shrinks_refl].
  eapply shrinks_trans; [exact IH | apply shrinks_tail].
Qed.

Lemma emit_rest (chunk : string) (r : scan string) (k rest : string) :
  emit chunk r = Scanned k rest -> exists k', r = Scanned k' rest.
Proof.
  intros H. apply emit_scanned in H. destruct H as (k' & Hr & _).
  exists k'. exact Hr.
Qed.

Lemma scanstring_shrinks_upto (n : nat) :
  forall s k rest,
    String.length s <= n ->
    scanstring s = Scanned k rest -> shrinks rest s.
Proof.
  induction n as [| n IH]; intros s k rest Hlen Hscan.
  - destruct s; [discriminate | simpl in Hlen; lia].
  - destruct s as [| c s]; [discriminate |].
    simpl in Hlen. cbn [scanstring] in Hscan.
    repeat (break_hyp Hscan; try discriminate);
      try (inversion Hscan; subst; apply shrinks_tail);
      apply emit_rest in Hscan; destruct Hscan as (k' & Hrec);
      apply IH in Hrec; subst; simpl in *; try lia;
      intros p; specialize (Hrec p); simpl in *; lia.
Qed.

Lemma scanstring_shrinks (s k rest : string) :
  scanstring s = Scanned k rest -> shrinks rest s.
Proof.
  apply (scanstring_shrinks_upto (String.length s)). lia.
Qed.

Lemma strip_prefix_shrinks (word s rest : string) :
  strip_prefix word s = Some rest -> shrinks rest s.
Proof.
  revert s. induction word as [| a word IH]; intros s H; simpl in H.
  - inversion H. apply shrinks_refl.
  - destruct s as [| b s]; [discriminate |].
    destruct (Ascii.eqb a b); [| discriminate].
    eapply shrinks_trans; [apply IH; exact H | apply shrinks_tail].
Qed.

Lemma span_digits_shrinks (s : string) : shrinks (snd (span_digits s)) s.
Proof.
  induction s as [| c s IH]; simpl; [apply shrinks_refl |].
  destruct (is_digit c); simpl; [| apply shrinks_refl].
  destruct (span_digits s) as [ds rest]. simpl in *.
  eapply shrinks_trans; [exact IH | apply shrinks_tail].
Qed.

(** The digits that [span_digits] takes are digits of the text. *)
Lemma span_digits_digits (s : string) :
  String.length (fst (span_digits s)) <= count_chars is_digit s.
Proof.
  induction s as [| c s IH]; simpl; [lia |].
  destruct (is_digit c); simpl; [| lia].
  destruct (span_digits s) as [ds rest]. simpl in *. lia.
Qed.

Lemma match_digits_shrinks (s ds rest : string) :
  match_digits s = Some (ds, rest) ->
  shrinks rest s /\ String.length ds <= count_chars is_digit s.
Proof.
  unfold match_digits. destruct s as [| c s]; [discriminate |].
  destruct (Ascii.eqb c "0") eqn:Hzero.
  - intros H. inversion H; subst. split; [apply shrinks_tail |].
    apply Ascii.eqb_eq in Hzero. subst c. simpl. lia.
  - destruct (is_digit c) eqn:Hd; [| discriminate].
    intros H.
    assert (span_digits (String c s) = (ds, rest)) as Hspan by congruence.
    pose proof (span_digits_shrinks (String c s)) as Hsh.
    pose proof (span_digits_digits (String c s)) as Hdig.
    rewrite Hspan in Hsh, Hdig. simpl fst in Hdig. simpl snd in Hsh.
    split; assumption.
Qed.

Lemma digits_of_length (text : string) :
  digits_of text <= String.length text.
Proof.
  unfold digits_of. destruct text as [| c text]; [simpl; lia |].
  destruct c as [[] [] [] [] [] [] [] []]; simpl; lia.
Qed.

Lemma match_integer_shrinks (s integer rest : string) :
  match_integer s = Some (integer, rest) ->
  shrinks rest s /\ digits_of integer <= count_chars is_digit s.
Proof.
  unfold match_integer. destruct s as [| c s]; [discriminate |].
  destruct (Ascii.eqb c "-") eqn:Hminus.
  - destruct (match_digits s) as [[ds r] |] eqn:Hd; [| discriminate].
    intros H. inversion H; subst. apply match_digits_shrinks in Hd.
    destruct Hd as [Hsh Hdig]. split.
    + eapply shrinks_trans; [exact Hsh | apply shrinks_tail].
    + apply Ascii.eqb_eq in Hminus. subst c. simpl. lia.
  - intros H. apply match_digits_shrinks in H. destruct H as [Hsh Hdig].
    split; [exact Hsh |].
    pose proof (digits_of_length integer). lia.
Qed.

Lemma match_frac_shrinks (s : string) : shrinks (snd (match_frac s)) s.
Proof.
  unfold match_frac. destruct s as [| c s]; [apply shrinks_refl |].
  pose proof (span_digits_shrinks s) as Hsp.
  repeat match goal with
         | |- context [match ?x with _ => _ end] => destruct x; simpl in *
         end;
    try apply shrinks_refl;
    (eapply shrinks_trans; [exact Hsp | apply shrinks_tail]).
Qed.

Lemma match_exp_shrinks (s : string) : shrinks (snd (match_exp s)) s.
Proof.
  unfold match_exp. destruct s as [| e s]; [apply shrinks_refl |].
  destruct (Ascii.eqb e "e" || Ascii.eqb e "E"); [| apply shrinks_refl].
  destruct s as [| c s].
  - simpl. apply shrinks_refl.
  - pose proof (span_digits_shrinks s) as Hs.
    pose proof (span_digits_shrinks (String c s)) as Hcs.
    destruct (Ascii.eqb c "-" || Ascii.eqb c "+").
    + destruct (span_digits s) as [[| d ds] rest]; simpl in *;
        [apply shrinks_refl |].
      eapply shrinks_trans; [exact Hs |].
      eapply shrinks_trans; apply shrinks_tail.
    + destruct (span_digits (String c s)) as [[| d ds] rest]; simpl in *;
        [apply shrinks_refl |].
      eapply shrinks_trans; [exact Hcs | apply shrinks_tail].
Qed.

Lemma scan_atom_shrinks (s rest : string) (v : pyval) :
  scan_atom s = Scanned v rest -> shrinks rest s.
Proof.
  intros H. destruct (scan_atom_cases s _ H)
    as [(v' & rest' & word & Heq & _ & Hp & _) | [Heq | Hnum]].
  - inversion Heq; subst. eapply strip_prefix_shrinks. exact Hp.
  - discriminate.
  - apply match_number_cases in Hnum.
    destruct Hnum as (integer & r0 & Hint & [(v' & Heq & _) | (e & Heq & _)]);
      [| discriminate].
    inversion Heq; subst. apply match_integer_shrinks in Hint.
    destruct Hint as [Hsh _].
    eapply shrinks_trans; [apply match_exp_shrinks |].
    eapply shrinks_trans; [apply match_frac_shrinks | exact Hsh].
Qed.

Lemma scan_shrinks (fuel : nat) :
  (forall room s v rest, scan_once fuel room s = Scanned v rest -> shrinks rest s)
  /\ (forall room s v rest,
        JSONObject fuel room s = Scanned v rest -> shrinks rest s)
  /\ (forall room pairs s v rest,
        object_pairs fuel room pairs s = Scanned v rest -> shrinks rest s)
  /\ (forall room s v rest,
        JSONArray fuel room s = Scanned v rest -> shrinks rest s)
  /\ (forall room values s v rest,
        array_values fuel room values s = Scanned v rest -> shrinks rest s).
Proof.
  induction fuel as [| fuel (IHonce & IHobj & IHpairs & IHarr & IHvalues)].
  - repeat split; intros; discriminate.
  - repeat split.
    + intros room s v rest H. destruct s as [| c s]; [discriminate |].
      cbn [scan_once] in H.
      destruct (Ascii.eqb c dquote).
      { destruct (scanstring s) as [k r | | e |] eqn:Hs; try discriminate.
        inversion H; subst. apply scanstring_shrinks in Hs.
        eapply shrinks_trans; [exact Hs | apply shrinks_tail]. }
      destruct (Ascii.eqb c "{").
      { destruct room as [| room]; [discriminate |].
        apply IHobj in H.
        eapply shrinks_trans; [exact H | apply shrinks_tail]. }
      destruct (Ascii.eqb c "[").
      { destruct room as [| room]; [discriminate |].
        apply IHarr in H.
        eapply shrinks_trans; [exact H | apply shrinks_tail]. }
      apply scan_atom_shrinks in H. exact H.
    + intros room s v rest H. cbn [JSONObject] in H.
      pose proof (skip_ws_shrinks s) as Hws.
      destruct (skip_ws s) as [| c r]; [discriminate |].
      apply shrinks_after in Hws.
      destruct (Ascii.eqb c "}"); [inversion H; subst; exact Hws |].
      destruct (Ascii.eqb c dquote); [| discriminate].
      apply IHpairs in H. eapply shrinks_trans; [exact H | exact Hws].
    + intros room pairs s v rest H. cbn [object_pairs] in H.
      destruct (scanstring s) as [key after_key | | e |] eqn:Hkey;
        try discriminate.
      apply scanstring_shrinks in Hkey.
      pose proof (skip_ws_shrinks after_key) as Hws1.
      destruct (skip_ws after_key) as [| colon after_colon]; [discriminate |].
      apply shrinks_after in Hws1.
      destruct (Ascii.eqb colon ":"); [| discriminate].
      pose proof (skip_ws_shrinks after_colon) as Hws2.
      destruct (scan_once fuel room (skip_ws after_colon))
        as [value after_value | | e |] eqn:Hvalue; try discriminate.
      apply IHonce in Hvalue.
      assert (shrinks after_value s) as Hafter.
      { eapply shrinks_trans; [exact Hvalue |].
        eapply shrinks_trans; [exact Hws2 |].
        eapply shrinks_trans; [exact Hws1 | exact Hkey]. }
      pose proof (skip_ws_shrinks after_value) as Hws3.
      destruct (skip_ws after_value) as [| c r]; [discriminate |].
      apply shrinks_after in Hws3.
      destruct (Ascii.eqb c "}").
      { inversion H; subst. eapply shrinks_trans; [exact Hws3 | exact Hafter]. }
      destruct (Ascii.eqb c ","); [| discriminate].
      pose proof (skip_ws_shrinks r) as Hws4.
      destruct (skip_ws r) as [| q r']; [discriminate |].
      apply shrinks_after in Hws4.
      destruct (Ascii.eqb q dquote); [| discriminate].
      apply IHpairs in H.
      eapply shrinks_trans; [exact H |].
      eapply shrinks_trans; [exact Hws4 |].
      eapply shrinks_trans; [exact Hws3 | exact Hafter].
    + intros room s v rest H. cbn [JSONArray] in H.
      pose proof (skip_ws_shrinks s) as Hws.
      destruct (skip_ws s) as [| c r] eqn:Hskip; [discriminate |].
      destruct (Ascii.eqb c "]").
      { inversion H; subst. apply shrinks_after in Hws. exact Hws. }
      apply IHvalues in H. eapply shrinks_trans; [exact H | exact Hws].
    + intros room values s v rest H. cbn [array_values] in H.
      destruct (scan_once fuel room s) as [value after_value | | e |] eqn:Hvalue;
        try discriminate.
      apply IHonce in Hvalue.
      pose proof (skip_ws_shrinks after_value) as Hws.
      destruct (skip_ws after_value) as [| c r]; [discriminate |].
      apply shrinks_after in Hws.
      destruct (Ascii.eqb c "]").
      { inversion H; subst. eapply shrinks_trans; [exact Hws | exact Hvalue]. }
      destruct (Ascii.eqb c ","); [| discriminate].
      pose proof (skip_ws_shrinks r) as Hws2.
      apply IHvalues in H.
      eapply shrinks_trans; [exact H |].
      eapply shrinks_trans; [exact Hws2 |].
      eapply shrinks_trans; [exact Hws | exact Hvalue].
Qed.

(** *** A text within the limits is never interrupted *)

Lemma fits_shrinks (room : nat) (rest s : string) :
  shrinks rest s -> fits room s -> fits room rest.
Proof.
  intros Hsh [Hopen Hdigits]. unfold fits.
  pose proof (Hsh is_open). pose proof (Hsh is_digit). lia.
Qed.

Lemma fits_enter (room : nat) (c : ascii) (rest : string) :
  is_open c = true -> fits room (String c rest) ->
  exists room', room = S room' /\ fits room' rest.
Proof.
  intros Hc [Hopen Hdigits]. simpl in Hopen, Hdigits. rewrite Hc in Hopen.
  destruct room as [| room']; [lia |].
  exists room'. split; [reflexivity |]. unfold fits. lia.
Qed.

Lemma scan_atom_uninterrupted (room : nat) (s : string) (e : exn) :
  fits room s -> scan_atom s <> Interrupted e.
Proof.
  intros [_ Hdigits] H. apply scan_atom_interrupted in H.
  destruct H as (integer & r0 & Hint & _ & Hlimits).
  apply match_integer_shrinks in Hint. destruct Hint as [_ Hbound]. lia.
Qed.

Lemma scan_uninterrupted (fuel : nat) :
  (forall room s e, fits room s -> scan_once fuel room s <> Interrupted e)
  /\ (forall room s e, fits room s -> JSONObject fuel room s <> Interrupted e)
  /\ (forall room pairs s e,
        fits room s -> object_pairs fuel room pairs s <> Interrupted e)
  /\ (forall room s e, fits room s -> JSONArray fuel room s <> Interrupted e)
  /\ (forall room values s e,
        fits room s -> array_values fuel room values s <> Interrupted e).
Proof.
  induction fuel as [| fuel (IHonce & IHobj & IHpairs & IHarr & IHvalues)].
  - repeat split; intros; discriminate.
  - repeat split.
    + intros room s e Hfit. destruct s as [| c s]; [discriminate |].
      cbn [scan_once].
      destruct (Ascii.eqb c dquote).
      { pose proof (scanstring_plain s) as Hs.
        destruct (scanstring s); simpl in *; try discriminate; contradiction. }
      destruct (Ascii.eqb c "{") eqn:Hbrace.
      { destruct (fits_enter room c s) as (room' & -> & Hfit');
          [unfold is_open; rewrite Hbrace; reflexivity | exact Hfit |].
        apply IHobj. exact Hfit'. }
      destruct (Ascii.eqb c "[") eqn:Hbracket.
      { destruct (fits_enter room c s) as (room' & -> & Hfit');
          [unfold is_open; rewrite Hbracket; apply orb_true_r | exact Hfit |].
        apply IHarr. exact Hfit'. }
      eapply scan_atom_uninterrupted. exact Hfit.
    + intros room s e Hfit. cbn [JSONObject].
      pose proof (skip_ws_shrinks s) as Hws.
      destruct (skip_ws s) as [| c r]; [discriminate |].
      apply shrinks_after in Hws.
      destruct (Ascii.eqb c "}"); [discriminate |].
      destruct (Ascii.eqb c dquote); [| discriminate].
      apply IHpairs. eapply fits_shrinks; [exact Hws | exact Hfit].
    + intros room pairs s e Hfit. cbn [object_pairs].
      pose proof (scanstring_plain s) as Hs.
      destruct (scanstring s) as [key after_key | | e' |] eqn:Hkey;
        [| discriminate | contradiction | discriminate].
      apply scanstring_shrinks in Hkey.
      pose proof (skip_ws_shrinks after_key) as Hws1.
      destruct (skip_ws after_key) as [| colon after_colon]; [discriminate |].
      apply shrinks_after in Hws1.
      destruct (Ascii.eqb colon ":"); [| discriminate].
      pose proof (skip_ws_shrinks after_colon) as Hws2.
      assert (shrinks (skip_ws after_colon) s) as Hvalue_in.
      { eapply shrinks_trans; [exact Hws2 |].
        eapply shrinks_trans; [exact Hws1 | exact Hkey]. }
      assert (scan_once fuel room (skip_ws after_colon) <> Interrupted e) as Honce
        by (apply IHonce; eapply fits_shrinks; [exact Hvalue_in | exact Hfit]).
      assert (forall e', scan_once fuel room (skip_ws after_colon) <> Interrupted e')
        as Hnone
        by (intros e'; apply IHonce; eapply fits_shrinks;
            [exact Hvalue_in | exact Hfit]).
      destruct (scan_once fuel room (skip_ws after_colon))
        as [value after_value | | e' |] eqn:Hvalue;
        [| discriminate | destruct (Hnone e'); reflexivity | discriminate].
      apply (proj1 (scan_shrinks fuel)) in Hvalue.
      assert (shrinks after_value s) as Hafter
        by (eapply shrinks_trans; [exact Hvalue | exact Hvalue_in]).
      pose proof (skip_ws_shrinks after_value) as Hws3.
      destruct (skip_ws after_value) as [| c r]; [discriminate |].
      apply shrinks_after in Hws3.
      destruct (Ascii.eqb c "}"); [discriminate |].
      destruct (Ascii.eqb c ","); [| discriminate].
      pose proof (skip_ws_shrinks r) as Hws4.
      destruct (skip_ws r) as [| q r']; [discriminate |].
      apply shrinks_after in Hws4.
      destruct (Ascii.eqb q dquote); [| discriminate].
      apply IHpairs. eapply fits_shrinks; [| exact Hfit].
      eapply shrinks_trans; [exact Hws4 |].
      eapply shrinks_trans; [exact Hws3 | exact Hafter].
    + intros room s e Hfit. cbn [JSONArray].
      pose proof (skip_ws_shrinks s) as Hws.
      destruct (skip_ws s) as [| c r] eqn:Hskip; [discriminate |].
      destruct (Ascii.eqb c "]"); [discriminate |].
      apply IHvalues. eapply fits_shrinks; [exact Hws | exact Hfit].
    + intros room values s e Hfit. cbn [array_values].
      assert (forall e', scan_once fuel room s <> Interrupted e') as Hnone
        by (intros e'; apply IHonce; exact Hfit).
      destruct (scan_once fuel room s) as [value after_value | | e' |] eqn:Hvalue;
        [| discriminate | destruct (Hnone e'); reflexivity | discriminate].
      apply (proj1 (scan_shrinks fuel)) in Hvalue.
      pose proof (skip_ws_shrinks after_value) as Hws.
      destruct (skip_ws after_value) as [| c r]; [discriminate |].
      apply shrinks_after in Hws.
      destruct (Ascii.eqb c "]"); [discriminate |].
      destruct (Ascii.eqb c ","); [| discriminate].
      pose proof (skip_ws_shrinks r) as Hws2.
      apply IHvalues. eapply fits_shrinks; [| exact Hfit].
      eapply shrinks_trans; [exact Hws2 |].
      eapply shrinks_trans; [exact Hws | exact Hvalue].
Qed.

Lemma within_limits_fits (s : string) :
  within_limits s = true -> fits recursion_room s.
Proof.
  unfold within_limits, fits. intros H.
  apply andb_prop in H. destruct H as [Hopen Hdigits].
  apply Nat.leb_le in Hopen. split; [exact Hopen |].
  apply orb_prop in Hdigits. destruct Hdigits as [Hdigits | Hdigits].
  - apply orb_prop in Hdigits. destruct Hdigits as [Hdigits | Hdigits].
    + left. apply Nat.leb_le. exact Hdigits.
    + right. left. apply Nat.eqb_eq. exact Hdigits.
  - right. right. apply Nat.leb_le. exact Hdigits.
Qed.

(** Within the limits, [json.loads] returns a value or raises
    [JSONDecodeError]. *)
Lemma loads_within_limits (s : string) :
  within_limits s = true ->
  (exists v, loads s = Returned v) \/ loads s = Raised json_decode_error.
Proof.
  intros Hlimits. apply within_limits_fits in Hlimits.
  unfold loads.
  destruct (strip_prefix bom s); [right; reflexivity |].
  pose proof (skip_ws_length s) as Hws.
  assert (scan_once (fuel_for s) recursion_room (skip_ws s) <> OutOfFuel) as Hfuel
    by (apply scan_fuel_enough; unfold fuel_for; lia).
  assert (forall e, scan_once (fuel_for s) recursion_room (skip_ws s)
                    <> Interrupted e) as Hnone.
  { intros e. apply scan_uninterrupted.
    eapply fits_shrinks; [apply skip_ws_shrinks | exact Hlimits]. }
  destruct (scan_once (fuel_for s) recursion_room (skip_ws s))
    as [obj rest | | e |];
    [| right; reflexivity | destruct (Hnone e); reflexivity | congruence].
  destruct (skip_ws rest); [left; eexists; reflexivity | right; reflexivity].
Qed.

End JsonFacts.

(** ** language.py *)

Section LanguageClaims.
Import Py Language.
Context {S : Type} {interp : Interpreter}.

Lemma parse_response_decoded (response : string) (v : pyval) (st : S) :
  Json.loads response = Returned v ->
  parse_response response st = (Returned v, st).
Proof.
  intros Hloads. unfold parse_response, try_except, lift_outcome.
  rewrite Hloads. reflexivity.
Qed.

Lemma parse_response_fallback (response : string) (st : S) :
  Json.loads response = Raised Json.json_decode_error ->
  parse_response response st = (Returned (terminate_intent response), st).
Proof.
  intros Hloads. unfold parse_response, try_except, lift_outcome.
  rewrite Hloads. reflexivity.
Qed.

(** An exception of the limits is not caught. *)
Lemma parse_response_interrupted (response : string) (e : exn) (st : S) :
  Json.loads response = Raised e ->
  Json.is_limit_error e ->
  parse_response response st = (Raised e, st).
Proof.
  intros Hloads Hlimit. apply limit_error_class in Hlimit.
  destruct Hlimit as [Hclass _].
  unfold parse_response, try_except, lift_outcome.
  rewrite Hloads, Hclass. reflexivity.
Qed.

(** The fallback intent carries the whole reply, so no reply decodes to it. *)
Lemma loads_never_fallback (response : string) :
  Json.loads response <> Returned (terminate_intent response).
Proof.
  intros Hloads. apply loads_weight in Hloads.
  unfold terminate_intent in Hloads. simpl in Hloads. lia.
Qed.

(** The two sample replies of the claims that hold objects or arrays need
    room for their nesting. *)
Lemma loads_tool_call :
  2 <= recursion_room ->
  Json.loads Demo.tool_call_text =
  Returned (PDict [("tool", PStr "read_project_file");
                   ("args", PDict [("name", PStr "a.py")])]).
Proof.
  unfold Json.loads. destruct recursion_room as [| [| room]]; [lia | lia |].
  intros _. vm_compute. reflexivity.
Qed.

Lemma loads_pair :
  1 <= recursion_room ->
  Json.loads "[1, 2]" = Returned (PList [PInt 1; PInt 2]).
Proof.
  unfold Json.loads. destruct recursion_room as [| room]; [lia |].
  intros _. vm_compute. reflexivity.
Qed.



End LanguageClaims.

Section LanguageExamples.
Import Py Language Demo.


(** So does a reply nested deeper than the interpreter has room for. *)
Example parse_response_raises_on_deep_nesting :
  recursion_room = 900
  /\ parse_response deep_array tt = (Raised (Json.recursion_error "array"), tt)
  /\ exc_type (Json.recursion_error "array") = RecursionError.
Proof.
  vm_compute. repeat split; reflexivity.
Qed.

(** Both replies decode when the limits are lifted far enough. *)
Example long_integer_within_larger_limit :
  exists z,
    parse_response (interp := mk_interpreter 0 900 "" "" (fun _ => true))
                   long_integer tt
    = (Returned (PInt z), tt).
Proof.
  eexists. vm_compute. reflexivity.
Qed.

End LanguageExamples.

(** ** main.py *)

Section LoopFacts.
Import Py Memory Registry Environment BaseAgent Language Main.
Context {S : Type} {interp : Interpreter}.
Variable strftime : S -> string.
Variable json_dumps : pyval -> outcome string.
Variable str_other : pyval -> string.
Variable components : Components S.
Variable model : string.

Lemma add_messages_cons_text (m : Message) (rest : list (pyval * pyval))
    (self : AgentMemory) :
  add_messages (text_call m :: rest) self =
  add_messages rest (snd (add_message (PStr (role m)) (PStr (content m)) self)).
Proof.
  unfold text_call. cbn [add_messages]. unfold bind.
  rewrite !add_message_text. reflexivity.
Qed.

Lemma range_length (lo hi : Z) : List.length (range lo hi) = Z.to_nat (hi - lo).
Proof.
  unfold range. rewrite length_map, length_seq. reflexivity.
Qed.

(** Reading the log of rounds for unknown tools. *)
Lemma logged_iterations_rounds (max_iterations : Z) (iterations : list Z) :
  forall rounds : list unknown_round,
    List.length iterations = List.length rounds ->
    logged_iterations
      (flat_map
         (fun ir =>
            [LogIteration (fst ir) max_iterations;
             LogRawResponse (round_reply (snd ir));
             LogRequested (PStr (round_tool (snd ir))) (round_args (snd ir));
             LogNotFound ("Requested tool '" ++ round_tool (snd ir)
                          ++ "' not found in registry.")%string])
         (combine iterations rounds))
    = iterations.
Proof.
  induction iterations as [| i iterations IH]; intros [| r rounds] Hlen;
    try discriminate; [reflexivity |].
  simpl in Hlen. injection Hlen as Hlen.
  cbn [combine flat_map fst snd]. unfold logged_iterations in *.
  cbn [flat_map app]. rewrite (IH rounds Hlen). reflexivity.
Qed.

Lemma logged_replies_rounds (max_iterations : Z) (iterations : list Z) :
  forall rounds : list unknown_round,
    List.length iterations = List.length rounds ->
    logged_replies
      (flat_map
         (fun ir =>
            [LogIteration (fst ir) max_iterations;
             LogRawResponse (round_reply (snd ir));
             LogRequested (PStr (round_tool (snd ir))) (round_args (snd ir));
             LogNotFound ("Requested tool '" ++ round_tool (snd ir)
                          ++ "' not found in registry.")%string])
         (combine iterations rounds))
    = map round_reply rounds.
Proof.
  induction iterations as [| i iterations IH]; intros [| r rounds] Hlen;
    try discriminate; [reflexivity |].
  simpl in Hlen. injection Hlen as Hlen.
  cbn [combine flat_map fst snd map]. unfold logged_replies in *.
  cbn [flat_map app]. rewrite (IH rounds Hlen). reflexivity.
Qed.

Hypothesis stub : always_requests_unknown_tool components model.

(** The lines a round for an unknown tool writes to the log. *)
Lemma iteration_unknown_tool (max_iterations iteration : Z) (st : agent_state S) :
  exists r s',
    iteration_body strftime json_dumps str_other components model
                   max_iterations iteration st =
    (Returned Next,
     mk_state
       (snd (add_message (PStr "assistant")
               (PStr ("Requested tool '" ++ round_tool r
                      ++ "' not found in registry.")%string)
               (st_memory st)))
       (mk_world (invocations (st_world st)) s')
       (st_log st ++ [LogIteration iteration max_iterations;
                      LogRawResponse (round_reply r);
                      LogRequested (PStr (round_tool r)) (round_args r);
                      LogNotFound ("Requested tool '" ++ round_tool r
                                   ++ "' not found in registry.")%string]))
    /\ unknown_tool_round components model r.
Proof.
  destruct (stub (construct_prompt (get_actions (registry components)) goals (st_memory st))
                 (ext (st_world st)))
    as (raw & s' & name & Hcomplete & Hreq).
  pose proof Hreq as (d & Hloads & Htool & Hterm & Habsent).
  exists (mk_round raw name (intent_args d)), s'.
  split.
  - unfold iteration_body, bind, logger, get, try_except, in_world, on_ext, ret.
    simpl. rewrite Hcomplete. simpl.
    unfold parse_response, try_except, lift_outcome. rewrite Hloads.
    unfold parsed_get. rewrite Htool. simpl.
    apply String.eqb_neq in Hterm. rewrite Hterm.
    unfold in_memory. simpl. rewrite Habsent. simpl.
    unfold intent_args.
    destruct (Z.of_nat _ >? _)%Z; simpl; rewrite <- !app_assoc; simpl;
      reflexivity.
  - exists (construct_prompt (get_actions (registry components)) goals
                             (st_memory st)), (ext (st_world st)), s', d.
    simpl. repeat split; assumption.
Qed.

(** The log of the rounds of a run in which every round asks for an
    unknown tool. *)
Lemma for_each_unknown_tool (max_iterations : Z) (iterations : list Z) :
  forall st : agent_state S,
  exists rounds st',
    for_each iterations
      (iteration_body strftime json_dumps str_other components model max_iterations)
      st = (Returned tt, st')
    /\ List.length rounds = List.length iterations
    /\ Forall (unknown_tool_round components model) rounds
    /\ add_messages
         (map text_call
            (map (fun r => mk_message "assistant"
                             ("Requested tool '" ++ round_tool r
                              ++ "' not found in registry.")%string)
                 rounds))
         (st_memory st) = (Returned tt, st_memory st')
    /\ st_log st' =
       st_log st
       ++ flat_map
            (fun ir =>
               [LogIteration (fst ir) max_iterations;
                LogRawResponse (round_reply (snd ir));
                LogRequested (PStr (round_tool (snd ir))) (round_args (snd ir));
                LogNotFound ("Requested tool '" ++ round_tool (snd ir)
                             ++ "' not found in registry.")%string])
            (combine iterations rounds)
    /\ invocations (st_world st') = invocations (st_world st).
Proof.
  induction iterations as [| i iterations IH]; intros st.
  - exists [], st. simpl. rewrite app_nil_r.
    repeat split; try reflexivity. constructor.
  - destruct (iteration_unknown_tool max_iterations i st)
      as (r & s' & Hbody & Hround).
    match type of Hbody with _ = (_, ?st1) =>
      destruct (IH st1)
        as (rounds & st' & Hrun & Hlen & Hall & Hmem & Hlog & Hinv)
    end.
    exists (r :: rounds), st'.
    cbn [for_each]. unfold bind at 1. rewrite Hbody.
    split; [exact Hrun |].
    split; [simpl; rewrite Hlen; reflexivity |].
    split; [constructor; assumption |].
    split.
    { cbn [map]. rewrite add_messages_cons_text. exact Hmem. }
    split.
    { rewrite Hlog. cbn [st_log combine flat_map fst snd].
      rewrite <- !app_assoc. reflexivity. }
    rewrite Hinv. reflexivity.
Qed.

End LoopFacts.

Section LoopClaims.
Import Py Memory Registry Environment BaseAgent Language Main.
Context {S : Type} {interp : Interpreter}.
Variable strftime : S -> string.
Variable json_dumps : pyval -> outcome string.
Variable str_other : pyval -> string.

(** C8: with a client that always succeeds and always requests a tool the
    registry does not have (and never [terminate]), [run_agent_loop] returns
    normally after exactly [max_iterations] rounds, numbered
    [1 .. max_iterations].  Each round receives a reply of the client that
    decodes to an intent naming a tool that is neither [terminate] nor
    registered, and logs the iteration, the reply, the request and the
    diagnostic [Requested tool '<name>' not found in registry.] with the
    name of that tool; the same diagnostic is stored as an assistant
    message.  The memory is what [add_message] makes of the user's task
    followed by these diagnostics: with a capacity of at least one, the
    last [max_messages] of the stored messages, the task and the
    diagnostics (at capacity zero, all of them).  No callable is invoked,
    and the run ends with the closing log line. *)
Theorem run_agent_loop_reaches_ceiling (components : Components S)
    (model task : string) (max_iterations : Z) (st : agent_state S) :
  always_requests_unknown_tool components model ->
  exists rounds st',
    let diagnostics :=
      map (fun r => mk_message "assistant"
                      ("Requested tool '" ++ round_tool r
                       ++ "' not found in registry.")%string)
          rounds in
    let body :=
      flat_map
        (fun ir =>
           [LogIteration (fst ir) max_iterations;
            LogRawResponse (round_reply (snd ir));
            LogRequested (PStr (round_tool (snd ir))) (round_args (snd ir));
            LogNotFound ("Requested tool '" ++ round_tool (snd ir)
                         ++ "' not found in registry.")%string])
        (combine (range 1 (max_iterations + 1)) rounds) in
    run_agent_loop strftime json_dumps str_other task components model
                   max_iterations st = (Returned tt, st')
    /\ Z.of_nat (List.length rounds) = Z.max 0 max_iterations
    /\ logged_iterations body = range 1 (max_iterations + 1)
    /\ logged_replies body = map round_reply rounds
    /\ Forall (unknown_tool_round components model) rounds
    /\ st_log st' =
       st_log st ++ [LogStarting task] ++ body
                 ++ [LogFinished (len (st_memory st'))]
    /\ add_messages (map text_call (mk_message "user" task :: diagnostics))
                    (st_memory st) = (Returned tt, st_memory st')
    /\ max_messages (st_memory st') = max_messages (st_memory st)
    /\ ((1 <= max_messages (st_memory st))%Z ->
        messages (st_memory st') =
        lastn (Z.to_nat (max_messages (st_memory st)))
              (messages (st_memory st)
               ++ mk_message "user" task :: diagnostics))
    /\ (max_messages (st_memory st) = 0%Z ->
        messages (st_memory st') =
        messages (st_memory st) ++ mk_message "user" task :: diagnostics)
    /\ invocations (st_world st') = invocations (st_world st).
Proof.
  intros Hstub.
  pose (st1 := mk_state
                 (snd (add_message (PStr "user") (PStr task) (st_memory st)))
                 (st_world st) (st_log st ++ [LogStarting task])).
  destruct (for_each_unknown_tool strftime json_dumps str_other components model
              Hstub max_iterations (range 1 (max_iterations + 1)) st1)
    as (rounds & st' & Hrun & Hlen & Hall & Hmem & Hlog & Hinv).
  exists rounds.
  exists (mk_state (st_memory st') (st_world st')
                   (st_log st' ++ [LogFinished (len (st_memory st'))])).
  cbv zeta.
  assert (add_messages
            (map text_call
               (mk_message "user" task
                :: map (fun r => mk_message "assistant"
                                   ("Requested tool '" ++ round_tool r
                                    ++ "' not found in registry.")%string)
                       rounds))
            (st_memory st) = (Returned tt, st_memory st')) as Hstored.
  { cbn [map]. rewrite add_messages_cons_text. exact Hmem. }
  split.
  { unfold run_agent_loop, bind, in_memory, logger, get.
    rewrite add_message_text. simpl. fold st1.
    replace (mk_state _ (st_world st) (st_log st ++ [LogStarting task])) with st1
      by (unfold st1; rewrite add_message_text; reflexivity).
    rewrite Hrun. reflexivity. }
  split; [rewrite Hlen, range_length; lia |].
  split; [apply logged_iterations_rounds; symmetry; exact Hlen |].
  split; [apply logged_replies_rounds; symmetry; exact Hlen |].
  split; [exact Hall |].
  split; [simpl; rewrite Hlog; unfold st1; simpl; rewrite <- !app_assoc; reflexivity |].
  split; [exact Hstored |].
  split.
  { cbn [st_memory].
    pose proof (add_messages_capacity _ _ _ Hstored) as Hcap. exact Hcap. }
  split.
  { intros Hcap. cbn [st_memory].
    rewrite add_messages_keep_last in Hstored by (assumption || discriminate).
    inversion Hstored as [Hmemory]. reflexivity. }
  split.
  { intros Hzero. cbn [st_memory].
    rewrite add_messages_keep_all in Hstored by assumption.
    inversion Hstored as [Hmemory]. reflexivity. }
  simpl. rewrite Hinv. reflexivity.
Qed.

End LoopClaims.

Section LoopExamples.
Import Py Memory Registry Environment BaseAgent Language Main Demo.

Lemma stub_always_requests_unknown_tool :
  always_requests_unknown_tool stub_components "gpt-4o".
Proof.
  intros prompt s. exists unknown_tool_text, s, "no_such_tool".
  split; [reflexivity |].
  exists [("tool", PStr "no_such_tool"); ("args", PDict [])].
  split; [vm_compute; reflexivity |].
  split; [reflexivity |]. split; [discriminate | reflexivity].
Qed.

Lemma run_agent_loop_reaches_ceiling_witness :
  exists rounds st',
    let diagnostics :=
      map (fun r => mk_message "assistant"
                      ("Requested tool '" ++ round_tool r
                       ++ "' not found in registry.")%string)
          rounds in
    let body :=
      flat_map
        (fun ir =>
           [LogIteration (fst ir) 3;
            LogRawResponse (round_reply (snd ir));
            LogRequested (PStr (round_tool (snd ir))) (round_args (snd ir));
            LogNotFound ("Requested tool '" ++ round_tool (snd ir)
                         ++ "' not found in registry.")%string])
        (combine (range 1 (3 + 1)) rounds) in
    run_agent_loop clock no_dumps no_str "Write a README for this project."
                   stub_components "gpt-4o" 3 fresh_state = (Returned tt, st')
    /\ Z.of_nat (List.length rounds) = Z.max 0 3
    /\ logged_iterations body = range 1 (3 + 1)
    /\ logged_replies body = map round_reply rounds
    /\ Forall (unknown_tool_round stub_components "gpt-4o") rounds
    /\ st_log st' =
       st_log fresh_state ++ [LogStarting "Write a README for this project."]
                 ++ body ++ [LogFinished (len (st_memory st'))]
    /\ add_messages
         (map text_call
              (mk_message "user" "Write a README for this project."
               :: diagnostics))
         (st_memory fresh_state) = (Returned tt, st_memory st')
    /\ max_messages (st_memory st') = max_messages (st_memory fresh_state)
    /\ ((1 <= max_messages (st_memory fresh_state))%Z ->
        messages (st_memory st') =
        lastn (Z.to_nat (max_messages (st_memory fresh_state)))
              (messages (st_memory fresh_state)
               ++ mk_message "user" "Write a README for this project."
                  :: diagnostics))
    /\ (max_messages (st_memory fresh_state) = 0%Z ->
        messages (st_memory st') =
        messages (st_memory fresh_state)
        ++ mk_message "user" "Write a README for this project."
           :: diagnostics)
    /\ invocations (st_world st') = invocations (st_world fresh_state).
Proof.
  apply (run_agent_loop_reaches_ceiling clock no_dumps no_str stub_components
           "gpt-4o" "Write a README for this project." 3 fresh_state).
  exact stub_always_requests_unknown_tool.
Defined.

(** The same run, computed: three iterations, four stored messages. *)
Example three_iterations_run :
  let '(o, st') :=
    run_agent_loop clock no_dumps no_str "Write a README for this project."
                   stub_components "gpt-4o" 3 fresh_state in
  o = Returned tt
  /\ messages (st_memory st') =
     [mk_message "user" "Write a README for this project.";
      assistant "Requested tool 'no_such_tool' not found in registry.";
      assistant "Requested tool 'no_such_tool' not found in registry.";
      assistant "Requested tool 'no_such_tool' not found in registry."]
  /\ logged_iterations (st_log st') = [1; 2; 3]%Z.
Proof.
  vm_compute. repeat split; reflexivity.
Qed.

End LoopExamples.

Section MemoryExamples.
Import Py Memory.

(** The module's own example, with a capacity of two to show the eviction:
    the oldest message goes first and the order of the rest is kept. *)
Lemma add_messages_bounded_witness :
  exists self',
    add_messages
      (map text_call
           [mk_message "user" "Summarize this project.";
            mk_message "assistant" "This project analyzes source code automatically.";
            mk_message "user" "Thanks."])
      (mk_memory 2 []) = (Returned tt, self')
    /\ max_messages self' = max_messages (mk_memory 2 [])
    /\ messages self' =
       lastn (Z.to_nat (max_messages (mk_memory 2 [])))
             (messages (mk_memory 2 [])
              ++ [mk_message "user" "Summarize this project.";
                  mk_message "assistant" "This project analyzes source code automatically.";
                  mk_message "user" "Thanks."])
    /\ (len self' <= max_messages self')%Z.
Proof.
  apply (add_messages_bounded (mk_memory 2 [])); simpl; lia.
Defined.

Example eviction_is_fifo :
  add_messages
    (map text_call
         [mk_message "user" "one"; mk_message "assistant" "two";
          mk_message "user" "three"])
    (mk_memory 2 []) =
  (Returned tt,
   mk_memory 2 [mk_message "assistant" "two"; mk_message "user" "three"]).
Proof. reflexivity. Qed.

(** A role that is not a string: the call raises and the memory is kept. *)
Example add_message_rejects_number :
  add_message (PInt 7) (PStr "hi") (mk_memory 2 [mk_message "user" "one"]) =
  (Raised type_error_add_message, mk_memory 2 [mk_message "user" "one"]).
Proof. reflexivity. Qed.

End MemoryExamples.

(* ====================================================================== *)
(** * Further properties *)
(* ====================================================================== *)

(** ** agent_core/memory.py: the bounds of the capacity *)

Section MemoryBounds.
Import Py Memory.

Lemma skipn_min_length {A : Type} (k : nat) (l : list A) :
  skipn (Nat.min k (List.length l)) l = skipn k l.
Proof.
  destruct (Nat.le_gt_cases k (List.length l)) as [Hle | Hgt].
  - rewrite Nat.min_l by exact Hle. reflexivity.
  - rewrite Nat.min_r by lia. rewrite skipn_all.
    symmetry. apply skipn_all2. lia.
Qed.

(** A memory built with more messages than its capacity is cut down by the
    first call: with a capacity of at least one and at least one text call,
    whatever the stored list was, the memory ends with the last
    [max_messages] of the stored and appended messages, within capacity. *)
Theorem add_messages_trims_any_start (self : AgentMemory)
    (appended : list Message) :
  (1 <= max_messages self)%Z ->
  appended <> [] ->
  exists self',
    add_messages (map text_call appended) self = (Returned tt, self')
    /\ max_messages self' = max_messages self
    /\ messages self' =
       lastn (Z.to_nat (max_messages self)) (messages self ++ appended)
    /\ (len self' <= max_messages self')%Z.
Proof.
  intros Hcap.
  induction appended as [| m appended IH] using rev_ind; [congruence |].
  intros _. destruct m as [r c]. rewrite map_app.
  change (map text_call [mk_message r c]) with [(PStr r, PStr c)].
  destruct appended as [| m0 appended].
  - simpl. unfold bind. rewrite add_message_keeps_last by exact Hcap.
    eexists. split; [reflexivity |]. simpl. repeat split.
    unfold len. simpl. rewrite lastn_length. lia.
  - destruct IH as (mid & Hrun & Hmax & Hmsgs & Hlen); [discriminate |].
    rewrite (add_messages_snoc _ _ _ _ _ Hrun).
    rewrite add_message_keeps_last by lia.
    eexists. split; [reflexivity |]. simpl.
    rewrite Hmax, Hmsgs. repeat split.
    + rewrite lastn_snoc by lia. rewrite <- app_assoc. reflexivity.
    + unfold len. simpl. rewrite lastn_length. lia.
Qed.

(** A negative capacity [-k] makes the slice [messages[k:]]: every call
    appends and then drops the first [k] entries, so a memory that starts
    empty stays empty. *)
Theorem add_message_negative_capacity (self : AgentMemory) (r c : string) :
  (max_messages self < 0)%Z ->
  add_message (PStr r) (PStr c) self =
  (Returned tt,
   mk_memory (max_messages self)
     (skipn (Z.to_nat (- max_messages self))
            (messages self ++ [mk_message r c])))
  /\ (messages self = [] ->
      add_message (PStr r) (PStr c) self =
      (Returned tt, mk_memory (max_messages self) [])).
Proof.
  intros Hneg.
  assert (add_message (PStr r) (PStr c) self =
          (Returned tt,
           mk_memory (max_messages self)
             (skipn (Z.to_nat (- max_messages self))
                    (messages self ++ [mk_message r c])))) as Hcall.
  { rewrite add_message_text.
    replace (Z.of_nat (List.length (messages self ++ [mk_message r c]))
             >? max_messages self)%Z with true
      by (symmetry; apply Z.gtb_lt; lia).
    unfold slice_from.
    replace (- max_messages self <? 0)%Z with false
      by (symmetry; apply Z.ltb_ge; lia).
    rewrite <- (skipn_min_length (Z.to_nat (- max_messages self))).
    do 3 f_equal. lia. }
  split; [exact Hcall |].
  intros Hempty. rewrite Hcall, Hempty. simpl.
  destruct (Z.to_nat (- max_messages self)) as [| k] eqn:Hk; [lia |].
  simpl. rewrite skipn_nil. reflexivity.
Qed.

End MemoryBounds.

Section MemoryBoundsExamples.
Import Py Memory.

Lemma add_messages_trims_any_start_witness :
  exists self',
    add_messages (map text_call [mk_message "user" "four"])
      (mk_memory 2 [mk_message "user" "one"; mk_message "user" "two";
                    mk_message "user" "three"]) = (Returned tt, self')
    /\ max_messages self' = 2%Z
    /\ messages self' =
       lastn (Z.to_nat 2)
         ([mk_message "user" "one"; mk_message "user" "two";
           mk_message "user" "three"] ++ [mk_message "user" "four"])
    /\ (len self' <= max_messages self')%Z.
Proof.
  apply (add_messages_trims_any_start
           (mk_memory 2 [mk_message "user" "one"; mk_message "user" "two";
                         mk_message "user" "three"])
           [mk_message "user" "four"]).
  - simpl. lia.
  - discriminate.
Defined.

Lemma add_message_negative_capacity_witness :
  add_message (PStr "user") (PStr "hi") (mk_memory (-1) []) =
  (Returned tt,
   mk_memory (-1)
     (skipn (Z.to_nat (- (-1))) ([] ++ [mk_message "user" "hi"])))
  /\ (messages (mk_memory (-1) []) = [] ->
      add_message (PStr "user") (PStr "hi") (mk_memory (-1) []) =
      (Returned tt, mk_memory (-1) [])).
Proof.
  apply (add_message_negative_capacity (mk_memory (-1) []) "user" "hi").
  simpl. lia.
Defined.

End MemoryBoundsExamples.

(** ** agent_core/registry.py: the tables and the registry *)

Section DictUpdates.
Import Py.
Context {V : Type}.

Lemma dict_get_set_other (k k' : string) (v : V) (d : pydict V) :
  k' <> k -> dict_get k' (dict_set k v d) = dict_get k' d.
Proof.
  intros Hne. induction d as [| [k0 v0] d IH]; simpl.
  - destruct (String.eqb_spec k' k); [congruence | reflexivity].
  - destruct (String.eqb_spec k k0) as [-> | Hk]; simpl.
    + destruct (String.eqb_spec k' k0); [congruence | reflexivity].
    + destruct (String.eqb k' k0); [reflexivity | exact IH].
Qed.

Lemma dict_keys_set (k : string) (v : V) (d : pydict V) :
  dict_keys (dict_set k v d) =
  if dict_mem k d then dict_keys d else dict_keys d ++ [k].
Proof.
  unfold dict_mem. induction d as [| [k0 v0] d IH]; simpl; [reflexivity |].
  destruct (String.eqb_spec k k0) as [-> | Hk]; simpl; [reflexivity |].
  rewrite IH. destruct (dict_get k d); reflexivity.
Qed.

Lemma dict_set_keeps_distinct (k : string) (v : V) (d : pydict V) :
  NoDup (dict_keys d) -> NoDup (dict_keys (dict_set k v d)).
Proof.
  intros Hnd. rewrite dict_keys_set. unfold dict_mem.
  destruct (dict_get k d) eqn:Hget; [exact Hnd |].
  apply dict_get_none in Hget.
  apply NoDup_app; [exact Hnd | repeat constructor; intros [] |].
  intros x Hx [Heq | []]. subst. exact (Hget Hx).
Qed.

Lemma dict_set_twice (k : string) (v : V) (d : pydict V) :
  dict_set k v (dict_set k v d) = dict_set k v d.
Proof.
  induction d as [| [k0 v0] d IH]; simpl.
  - rewrite String.eqb_refl. reflexivity.
  - destruct (String.eqb k k0) eqn:Hk; simpl.
    + rewrite String.eqb_refl. reflexivity.
    + rewrite Hk, IH. reflexivity.
Qed.

End DictUpdates.

Section RegistryTables.
Import Py Registry.
Context {S : Type} {interp : Interpreter}.

(** Registering a tool writes its metadata under its name: a lookup of
    that name gives the new metadata (an earlier entry of the same name is
    replaced, without error), every other name reads as before, and the
    keys of [TOOLS] stay distinct. *)
Theorem register_tool_overwrites (tool_name description : option string)
    (parameters_override : option schema) (terminal : bool)
    (tags : option (list string)) (func : PyFunction S) (c : Catalog S) :
  NoDup (dict_keys (TOOLS c)) ->
  let metadata :=
    _get_tool_metadata func tool_name description parameters_override
                       terminal tags in
  let c' :=
    register_tool tool_name description parameters_override terminal tags
                  func c in
  dict_get (meta_tool_name metadata) (TOOLS c') = Some metadata
  /\ (forall n, n <> meta_tool_name metadata ->
                dict_get n (TOOLS c') = dict_get n (TOOLS c))
  /\ NoDup (dict_keys (TOOLS c'))
  /\ dict_keys (TOOLS c') =
     (if dict_mem (meta_tool_name metadata) (TOOLS c)
      then dict_keys (TOOLS c)
      else dict_keys (TOOLS c) ++ [meta_tool_name metadata]).
Proof.
  intros Hnd metadata c'. unfold c', register_tool. simpl TOOLS.
  fold metadata. split; [apply dict_get_set_same |].
  split; [intros n Hne; apply dict_get_set_other; exact Hne |].
  split; [apply dict_set_keeps_distinct; exact Hnd | apply dict_keys_set].
Qed.

Lemma tag_append_get (name tag : string) (by_tag : pydict (list string)) :
  dict_get tag (tag_append name by_tag tag) =
  Some (match dict_get tag by_tag with Some names => names | None => [] end
        ++ [name]).
Proof.
  unfold tag_append. destruct (dict_get tag by_tag); apply dict_get_set_same.
Qed.

Lemma tag_append_other (name tag t : string) (by_tag : pydict (list string)) :
  t <> tag -> dict_get t (tag_append name by_tag tag) = dict_get t by_tag.
Proof.
  intros Hne. unfold tag_append.
  destruct (dict_get tag by_tag); apply dict_get_set_other; exact Hne.
Qed.

Lemma tag_fold_other (name t : string) (tags : list string) :
  forall by_tag,
    ~ In t tags ->
    dict_get t (fold_left (tag_append name) tags by_tag) = dict_get t by_tag.
Proof.
  induction tags as [| tag tags IH]; intros by_tag Hnot; [reflexivity |].
  cbn [fold_left]. rewrite IH by (intros Hin; apply Hnot; right; exact Hin).
  apply tag_append_other. intros ->. apply Hnot. left. reflexivity.
Qed.

(** Registering a tool appends its name to the list of each of its tags
    (starting the list when the tag is new) and touches no other tag; the
    name is appended on every registration, so registering one name twice
    lists it twice. *)
Theorem register_tool_appends_to_tags (tool_name description : option string)
    (parameters_override : option schema) (terminal : bool)
    (tags : list string) (func : PyFunction S) (c : Catalog S) :
  NoDup tags ->
  let name := str_or tool_name (fn_name func) in
  let c' :=
    register_tool tool_name description parameters_override terminal
                  (Some tags) func c in
  (forall tag, In tag tags ->
     dict_get tag (TOOLS_BY_TAG c') =
     Some (match dict_get tag (TOOLS_BY_TAG c) with
           | Some names => names
           | None => []
           end ++ [name]))
  /\ (forall tag, ~ In tag tags ->
        dict_get tag (TOOLS_BY_TAG c') = dict_get tag (TOOLS_BY_TAG c)).
Proof.
  intros Hnd name c'. unfold c', register_tool. simpl TOOLS_BY_TAG.
  simpl meta_tags. simpl meta_tool_name. fold name.
  generalize (TOOLS_BY_TAG c) as by_tag.
  split.
  - revert by_tag. induction tags as [| t tags IH]; intros by_tag tag Hin;
      [destruct Hin |].
    inversion Hnd as [| ? ? Hfresh Hrest]; subst.
    cbn [fold_left]. destruct Hin as [-> | Hin].
    + rewrite tag_fold_other by exact Hfresh. apply tag_append_get.
    + rewrite (IH Hrest _ tag Hin).
      rewrite tag_append_other; [reflexivity |].
      intros ->. exact (Hfresh Hin).
  - intros tag Hnot. apply tag_fold_other. exact Hnot.
Qed.

(** One round of [__init__] registers the entry when it is selected. *)
Lemma init_step_actions (tags tool_names : option (list string))
    (self : PythonActionRegistry S) (item : string * ToolMeta S) :
  actions (init_step tags tool_names self item) =
  if selected tags tool_names item
  then dict_set (fst item) (action_of_meta (fst item) (snd item)) (actions self)
  else actions self.
Proof.
  destruct item as [n meta]. unfold init_step, selected. simpl fst. simpl snd.
  destruct (list_truthy tool_names && negb (list_mem n (opt_list tool_names)));
    simpl; [destruct (String.eqb n "terminate"); reflexivity |].
  destruct (list_truthy tags && negb (existsb _ (opt_list tags)));
    simpl; destruct (String.eqb n "terminate"); reflexivity.
Qed.

(** Over a table with distinct keys, [__init__] appends the selected
    entries in table order. *)
Lemma init_fold_actions (tags tool_names : option (list string))
    (tools : pydict (ToolMeta S)) :
  forall self,
    NoDup (dict_keys tools) ->
    (forall n, In n (dict_keys tools) -> dict_get n (actions self) = None) ->
    actions (fold_left (init_step tags tool_names) tools self) =
    actions self ++ map action_entry (filter (selected tags tool_names) tools).
Proof.
  induction tools as [| [n meta] tools IH]; intros self Hnd Hfresh.
  - simpl. rewrite app_nil_r. reflexivity.
  - inversion Hnd as [| ? ? Hn Hrest]; subst.
    cbn [fold_left filter]. rewrite IH; [| exact Hrest |].
    + rewrite init_step_actions.
      destruct (selected tags tool_names (n, meta)); [| reflexivity].
      simpl fst. simpl snd.
      rewrite dict_set_fresh by (apply Hfresh; left; reflexivity).
      rewrite <- app_assoc. reflexivity.
    + intros k Hk. rewrite init_step_actions.
      destruct (selected tags tool_names (n, meta));
        [| apply Hfresh; right; exact Hk].
      simpl fst. rewrite dict_get_set_other.
      * apply Hfresh. right. exact Hk.
      * intros ->. exact (Hn Hk).
Qed.

Lemma init_actions_closed (tags tool_names : option (list string))
    (tools : pydict (ToolMeta S)) :
  NoDup (dict_keys tools) ->
  actions (PythonActionRegistry_init tags tool_names tools) =
  map action_entry (filter (selected tags tool_names) tools).
Proof.
  intros Hnd. unfold PythonActionRegistry_init.
  rewrite init_fold_actions; [reflexivity | exact Hnd | reflexivity].
Qed.

Lemma selected_spec (tags tool_names : option (list string))
    (n : string) (meta : ToolMeta S) :
  selected tags tool_names (n, meta) = true <->
  (list_truthy tool_names = true -> In n (opt_list tool_names))
  /\ (list_truthy tags = true ->
      exists tag, In tag (opt_list tags) /\ In tag (meta_tags meta)).
Proof.
  unfold selected. simpl fst. simpl snd.
  rewrite andb_true_iff, !negb_true_iff, !andb_false_iff, !negb_false_iff.
  rewrite list_mem_In, existsb_exists.
  split.
  - intros [Hnames Htags]. split.
    + intros Ht. destruct Hnames as [Hf | Hin]; [congruence | exact Hin].
    + intros Ht. destruct Htags as [Hf | (tag & Hin & Hmem)]; [congruence |].
      exists tag. split; [exact Hin | apply list_mem_In; exact Hmem].
  - intros [Hnames Htags]. split.
    + destruct (list_truthy tool_names); [right; apply Hnames; reflexivity
                                         | left; reflexivity].
    + destruct (list_truthy tags); [right | left; reflexivity].
      destruct (Htags eq_refl) as (tag & Hin & Hmem).
      exists tag. split; [exact Hin | apply list_mem_In; exact Hmem].
Qed.

(** The registry built from a table with distinct names holds, in table
    order, the actions of exactly the entries that pass the filters: a
    name filter that is given and not empty must list the name, and a tag
    filter that is given and not empty must share a tag with the entry. *)
Theorem registry_holds_selected_tools (tags tool_names : option (list string))
    (tools : pydict (ToolMeta S)) :
  NoDup (dict_keys tools) ->
  let reg := PythonActionRegistry_init tags tool_names tools in
  get_actions reg =
  map (fun item => action_of_meta (fst item) (snd item))
      (filter (selected tags tool_names) tools)
  /\ forall n a,
       get_action reg n = Some a <->
       exists meta,
         dict_get n tools = Some meta
         /\ a = action_of_meta n meta
         /\ (list_truthy tool_names = true -> In n (opt_list tool_names))
         /\ (list_truthy tags = true ->
             exists tag, In tag (opt_list tags) /\ In tag (meta_tags meta)).
Proof.
  intros Hnd reg.
  assert (actions reg = map action_entry (filter (selected tags tool_names) tools))
    as Hclosed by (apply init_actions_closed; exact Hnd).
  assert (NoDup (dict_keys (actions reg))) as Hkeys.
  { rewrite Hclosed. unfold dict_keys. rewrite map_map. simpl.
    apply NoDup_map_filter. exact Hnd. }
  split.
  - unfold get_actions, dict_values. rewrite Hclosed, map_map. reflexivity.
  - intros n a. unfold get_action. split.
    + intros Hget. apply dict_get_in in Hget. rewrite Hclosed in Hget.
      apply in_map_iff in Hget. destruct Hget as ([n' meta] & Heq & Hin).
      unfold action_entry in Heq. simpl in Heq. inversion Heq; subst.
      apply filter_In in Hin. destruct Hin as [Hin Hsel].
      apply selected_spec in Hsel. destruct Hsel as [Hnames Htags].
      exists meta. split; [apply dict_get_unique; assumption |].
      split; [reflexivity |]. split; assumption.
    + intros (meta & Hget & -> & Hnames & Htags).
      apply dict_get_unique; [exact Hkeys |].
      rewrite Hclosed.
      change (n, action_of_meta n meta) with (action_entry (n, meta)).
      apply in_map. apply filter_In. split; [apply dict_get_in; exact Hget |].
      apply selected_spec. split; assumption.
Qed.

(** Filters that are absent or empty select everything: the registry then
    holds one action per entry of [TOOLS], in table order. *)
Theorem empty_filters_register_all (tags tool_names : option (list string))
    (tools : pydict (ToolMeta S)) :
  NoDup (dict_keys tools) ->
  list_truthy tags = false ->
  list_truthy tool_names = false ->
  get_actions (PythonActionRegistry_init tags tool_names tools) =
  map (fun item => action_of_meta (fst item) (snd item)) tools.
Proof.
  intros Hnd Htags Hnames. unfold get_actions, dict_values.
  rewrite init_actions_closed by exact Hnd. rewrite map_map.
  replace (filter (selected tags tool_names) tools) with tools; [reflexivity |].
  symmetry. apply forallb_filter_id. apply forallb_forall.
  intros item _. unfold selected. rewrite Htags, Hnames. reflexivity.
Qed.

(** [register_terminate_tool] touches only the action named [terminate]:
    when it succeeds every other name reads as before, the tracked metadata
    is kept, and a second call changes nothing more; when it raises the
    registry is as it was. *)
Theorem register_terminate_tool_frame (reg : PythonActionRegistry S) :
  match register_terminate_tool reg with
  | (Returned _, reg') =>
      (forall n, n <> "terminate" -> get_action reg' n = get_action reg n)
      /\ terminate_tool reg' = terminate_tool reg
      /\ register_terminate_tool reg' = (Returned tt, reg')
  | (Raised _, reg') => reg' = reg
  end.
Proof.
  unfold register_terminate_tool.
  destruct (terminate_tool reg) as [meta |] eqn:Hmeta; [| reflexivity].
  split; [| split].
  - intros n Hne. unfold get_action, register. simpl.
    apply dict_get_set_other. exact Hne.
  - simpl. exact Hmeta.
  - unfold register at 1. simpl terminate_tool. rewrite Hmeta.
    unfold register. simpl. rewrite dict_set_twice. reflexivity.
Qed.

End RegistryTables.

Section RegistryTablesExamples.
Import Py Registry Demo.

Lemma register_tool_overwrites_witness :
  let metadata := _get_tool_metadata terminate None None None false None in
  let c' := register_tool None None None false None terminate system_catalog in
  dict_get (meta_tool_name metadata) (TOOLS c') = Some metadata
  /\ (forall n, n <> meta_tool_name metadata ->
                dict_get n (TOOLS c') = dict_get n (TOOLS system_catalog))
  /\ NoDup (dict_keys (TOOLS c'))
  /\ dict_keys (TOOLS c') =
     (if dict_mem (meta_tool_name metadata) (TOOLS system_catalog)
      then dict_keys (TOOLS system_catalog)
      else dict_keys (TOOLS system_catalog) ++ [meta_tool_name metadata]).
Proof.
  apply (register_tool_overwrites None None None false None terminate
           system_catalog).
  simpl. repeat constructor; simpl; intuition discriminate.
Defined.

(** Registering [terminate] a second time, now not terminal and without
    tags: the entry is replaced in place, and the stale tag list stays. *)
Example reregistration_replaces_in_place :
  let c' := register_tool None None None false None terminate system_catalog in
  dict_keys (TOOLS c') = ["terminate"; "get_current_time"]
  /\ option_map meta_terminal (dict_get "terminate" (TOOLS c')) = Some false
  /\ dict_get "system" (TOOLS_BY_TAG c') = Some ["terminate"; "get_current_time"].
Proof. repeat split; reflexivity. Qed.

Lemma register_tool_appends_to_tags_witness :
  let name := str_or None (fn_name terminate) in
  let c' :=
    register_tool None None None true (Some ["system"]) terminate system_catalog in
  (forall tag, In tag ["system"] ->
     dict_get tag (TOOLS_BY_TAG c') =
     Some (match dict_get tag (TOOLS_BY_TAG system_catalog) with
           | Some names => names
           | None => []
           end ++ [name]))
  /\ (forall tag, ~ In tag ["system"] ->
        dict_get tag (TOOLS_BY_TAG c') = dict_get tag (TOOLS_BY_TAG system_catalog)).
Proof.
  apply (register_tool_appends_to_tags None None None true ["system"] terminate
           system_catalog).
  repeat constructor; simpl; intuition discriminate.
Defined.

Example registering_twice_lists_twice :
  dict_get "system"
    (TOOLS_BY_TAG
       (register_tool None None None true (Some ["system"]) terminate
                      system_catalog))
  = Some ["terminate"; "get_current_time"; "terminate"].
Proof. reflexivity. Qed.

Lemma registry_holds_selected_tools_witness :
  let reg := PythonActionRegistry_init (Some ["info"]) None (TOOLS system_catalog) in
  get_actions reg =
  map (fun item => action_of_meta (fst item) (snd item))
      (filter (selected (Some ["info"]) None) (TOOLS system_catalog))
  /\ forall n a,
       get_action reg n = Some a <->
       exists meta,
         dict_get n (TOOLS system_catalog) = Some meta
         /\ a = action_of_meta n meta
         /\ (list_truthy (@None (list string)) = true -> In n (opt_list None))
         /\ (list_truthy (Some ["info"]) = true ->
             exists tag, In tag (opt_list (Some ["info"]))
                         /\ In tag (meta_tags meta)).
Proof.
  apply (registry_holds_selected_tools (Some ["info"]) None (TOOLS system_catalog)).
  simpl. repeat constructor; simpl; intuition discriminate.
Defined.

Lemma empty_filters_register_all_witness :
  get_actions (PythonActionRegistry_init (Some []) (Some []) (TOOLS system_catalog)) =
  map (fun item => action_of_meta (fst item) (snd item)) (TOOLS system_catalog).
Proof.
  apply (empty_filters_register_all (Some []) (Some []) (TOOLS system_catalog)).
  - simpl. repeat constructor; simpl; intuition discriminate.
  - reflexivity.
  - reflexivity.
Defined.

End RegistryTablesExamples.

(** ** agent_core/environment.py: the paths of [execute_action] *)

Section EnvironmentPaths.
Import Py Registry Environment.
Context {S : Type} {interp : Interpreter}.
Variable strftime : S -> string.

Lemma filter_map_swap {A B : Type} (f : B -> bool) (g : A -> B) (l : list A) :
  filter f (map g l) = map g (filter (fun a => f (g a)) l).
Proof.
  induction l as [| a l IH]; simpl; [reflexivity |].
  destruct (f (g a)); simpl; rewrite IH; reflexivity.
Qed.

Lemma filter_filter_and {A : Type} (f g : A -> bool) (l : list A) :
  filter f (filter g l) = filter (fun a => g a && f a) l.
Proof.
  induction l as [| a l IH]; simpl; [reflexivity |].
  destruct (g a); simpl; [destruct (f a); rewrite IH; reflexivity | exact IH].
Qed.

(** The schema derived at registration is what validation checks at call
    time: for a tool registered with no override, the names reported missing
    are, in signature order, the parameters that have no default, are not
    injected, and are not keys of the arguments; validation passes exactly
    when there is none. *)
Theorem derived_required_drives_validation (func : PyFunction S)
    (tool_name description : option string) (terminal : bool)
    (tags : option (list string)) (n : string) (args : kwargs) :
  NoDup (map param_name (fn_signature func)) ->
  let action :=
    action_of_meta n
      (_get_tool_metadata func tool_name description None terminal tags) in
  missing_of action args =
  map param_name
      (filter (fun p => model_supplied p && has_no_default p
                        && negb (dict_mem (param_name p) args))
              (fn_signature func))
  /\ (_validate_args action args = None <->
      forall p, In p (fn_signature func) ->
                param_default p = None ->
                ~ In (param_name p) ["action_context"; "action_agent"] ->
                dict_mem (param_name p) args = true).
Proof.
  intros Hnd action.
  assert (required_of action =
          map param_name
              (filter (fun p => model_supplied p && has_no_default p)
                      (fn_signature func))) as Hreq.
  { unfold required_of, action, action_of_meta, _get_tool_metadata. simpl.
    rewrite (derive_schema_closed _ Hnd). reflexivity. }
  assert (missing_of action args =
          map param_name
              (filter (fun p => model_supplied p && has_no_default p
                                && negb (dict_mem (param_name p) args))
                      (fn_signature func))) as Hmiss.
  { unfold missing_of. rewrite Hreq, filter_map_swap, filter_filter_and.
    reflexivity. }
  split; [exact Hmiss |].
  assert (_validate_args action args = None <-> missing_of action args = [])
    as Hvalid.
  { unfold _validate_args. destruct (missing_of action args);
      split; intros H; try reflexivity; discriminate. }
  rewrite Hvalid, missing_of_nil, Hreq. split.
  - intros Hall p Hin Hdef Hfree. apply Hall. apply in_map.
    apply filter_In. split; [exact Hin |]. apply andb_true_iff. split.
    + unfold model_supplied. apply negb_true_iff.
      destruct (list_mem (param_name p) injected_names) eqn:Hmem;
        [| reflexivity].
      apply list_mem_In in Hmem. destruct (Hfree Hmem).
    + unfold has_no_default. rewrite Hdef. reflexivity.
  - intros Hall name Hin. apply in_map_iff in Hin.
    destruct Hin as (p & <- & Hp). apply filter_In in Hp.
    destruct Hp as [Hin Hboth]. apply andb_true_iff in Hboth.
    destruct Hboth as [Hsup Hdef]. apply Hall; [exact Hin | |].
    + unfold has_no_default in Hdef.
      destruct (param_default p); [discriminate | reflexivity].
    + intros Hmem. apply list_mem_In in Hmem.
      unfold model_supplied in Hsup. fold injected_names in Hmem.
      rewrite Hmem in Hsup. discriminate.
Qed.

(** The success path: with valid arguments, none of them named [self],
    and no dry-run, when the callable returns [v] the record says so
    ([tool_executed], [result = v], no error, no traceback), and a callback
    that returns, or that fails with an [Exception], leaves that record as
    it is. *)
Theorem execute_action_success (self : Environment S) (action : Action S)
    (args : kwargs) (w : world S) (v : pyval) (s1 : S) :
  missing_of action args = [] ->
  dry_run self = false ->
  dict_mem "self" args = false ->
  fn_body (function action) args (ext w) = (Returned v, s1) ->
  (forall hook e s2,
     on_post_execute self = Some hook ->
     hook action args v s1 = (Raised e, s2) ->
     isinstance e Exception = true) ->
  exists s2,
    execute_action strftime self action args w =
    (Returned (mk_record true (name action) args v None None
                         (strftime (ext w))),
     after_call action args w s2)
    /\ (on_post_execute self = None -> s2 = s1).
Proof.
  intros Hmiss Hdry Hself Hbody Hhook.
  rewrite execute_action_run by assumption.
  unfold try_except, bind at 1.
  rewrite (execute_returns action args w v s1 Hself Hbody).
  unfold bind, run_post_hook.
  destruct (on_post_execute self) as [hook |] eqn:Hpost.
  - unfold try_except, bind, on_ext, ret. simpl.
    destruct (hook action args v s1) as [[v' | e] s2] eqn:Hrun; simpl.
    + exists s2. split; [reflexivity | discriminate].
    + rewrite (Hhook hook e s2 eq_refl Hrun). simpl.
      exists s2. split; [reflexivity | discriminate].
  - exists s1. split; reflexivity.
Qed.

(** The callable is invoked at most once per call, with the arguments as
    given, and exactly when validation passes, dry-run is off and no
    argument is named [self] (such a call is refused with a [TypeError]
    before the callable is reached), whatever the callable then does; and
    every record returned names the action, the arguments and the time read
    at the start. *)
Theorem execute_action_invokes_once (self : Environment S) (action : Action S)
    (args : kwargs) (w : world S) :
  invocations (snd (execute_action strftime self action args w)) =
  invocations w
  ++ (if match missing_of action args with [] => true | _ => false end
         && negb (dry_run self)
         && negb (dict_mem "self" args)
      then [mk_pycall (fn_name (function action)) args]
      else [])
  /\ (forall r,
        fst (execute_action strftime self action args w) = Returned r ->
        action_name r = name action
        /\ args_used r = args
        /\ timestamp r = strftime (ext w)).
Proof.
  destruct (missing_of action args) as [| p rest] eqn:Hmiss.
  - destruct (dry_run self) eqn:Hdry.
    + rewrite execute_action_dry by assumption. simpl. rewrite app_nil_r.
      split; [reflexivity |].
      intros r Hr; inversion Hr; subst; simpl; repeat split; reflexivity.
    + destruct (dict_mem "self" args) eqn:Hself.
      { rewrite execute_action_clash by assumption. simpl. rewrite app_nil_r.
        split; [reflexivity |].
        intros r Hr; inversion Hr; subst; simpl; repeat split; reflexivity. }
      rewrite execute_action_run by assumption.
      unfold try_except, bind, run_post_hook, ret.
      destruct (fn_body (function action) args (ext w)) as [[v | e] s1] eqn:Hbody.
      * rewrite (execute_returns action args w v s1 Hself Hbody).
        destruct (on_post_execute self) as [hook |].
        -- unfold try_except, bind, on_ext, ret. simpl.
           destruct (hook action args v s1) as [[v' | e] s2]; simpl.
           ++ split; [reflexivity |].
              intros r Hr; inversion Hr; subst; simpl; repeat split; reflexivity.
           ++ destruct (isinstance e Exception) eqn:He; simpl; rewrite ?He; simpl.
              ** split; [reflexivity |].
                 intros r Hr; inversion Hr; subst; simpl; repeat split;
                   reflexivity.
              ** split; [reflexivity |]. intros r Hr; discriminate.
        -- simpl. split; [reflexivity |].
           intros r Hr; inversion Hr; subst; simpl; repeat split; reflexivity.
      * rewrite (execute_raises action args w e s1 Hself Hbody).
        destruct (isinstance e Exception) eqn:He; simpl; rewrite ?He; simpl.
        -- split; [reflexivity |].
           intros r Hr; inversion Hr; subst; simpl; repeat split; reflexivity.
        -- split; [reflexivity |]. intros r Hr; discriminate.
  - rewrite execute_action_invalid by (rewrite Hmiss; discriminate).
    simpl. rewrite app_nil_r. split; [reflexivity |].
    intros r Hr; inversion Hr; subst; simpl; repeat split; reflexivity.
Qed.

End EnvironmentPaths.

Section EnvironmentPathsExamples.
Import Py Registry Environment Demo.

Lemma derived_required_drives_validation_witness :
  let action :=
    action_of_meta "lookup_note"
      (_get_tool_metadata lookup_note None None None false None) in
  missing_of action [("limit", PInt 3); ("labels", PList [])] =
  map param_name
      (filter (fun p => model_supplied p && has_no_default p
                        && negb (dict_mem (param_name p)
                                          [("limit", PInt 3); ("labels", PList [])]))
              (fn_signature lookup_note))
  /\ (_validate_args action [("limit", PInt 3); ("labels", PList [])] = None <->
      forall p, In p (fn_signature lookup_note) ->
                param_default p = None ->
                ~ In (param_name p) ["action_context"; "action_agent"] ->
                dict_mem (param_name p) [("limit", PInt 3); ("labels", PList [])]
                = true).
Proof.
  apply (derived_required_drives_validation lookup_note None None false None
           "lookup_note" [("limit", PInt 3); ("labels", PList [])]).
  simpl. repeat constructor; simpl; intuition discriminate.
Defined.

(** The call above lacks [key] only: the injected context is not asked for. *)
Example lookup_note_missing_key :
  _validate_args
    (action_of_meta "lookup_note"
       (_get_tool_metadata lookup_note None None None false None))
    [("limit", PInt 3); ("labels", PList [])]
  = Some "Missing required parameters: ['key']".
Proof. reflexivity. Qed.

Lemma execute_action_success_witness :
  exists s2,
    execute_action clock failing_hook example_action
                   [("x", PInt 3); ("y", PInt 4)] w0 =
    (Returned (mk_record true (name example_action)
                         [("x", PInt 3); ("y", PInt 4)] (PInt 7) None None
                         (clock (ext w0))),
     after_call example_action [("x", PInt 3); ("y", PInt 4)] w0 s2)
    /\ (on_post_execute failing_hook = None -> s2 = tt).
Proof.
  apply (execute_action_success clock failing_hook example_action
           [("x", PInt 3); ("y", PInt 4)] w0 (PInt 7) tt).
  - reflexivity.
  - reflexivity.
  - reflexivity.
  - reflexivity.
  - intros hook e s2 Hhook Hrun. simpl in Hhook. inversion Hhook; subst.
    inversion Hrun; subst. reflexivity.
Defined.

End EnvironmentPathsExamples.

(** ** language.py: the layout of a prompt *)

Section PromptLayout.
Import Py Memory Registry BaseAgent Language.

Lemma format_memory_verbatim (memory : AgentMemory) :
  format_memory memory = messages memory.
Proof.
  unfold format_memory. induction (messages memory) as [| [r c] l IH]; simpl;
    [reflexivity | rewrite IH; reflexivity].
Qed.

Lemma append_assoc (a b c : string) :
  ((a ++ b) ++ c)%string = (a ++ b ++ c)%string.
Proof.
  induction a as [| x a IH]; simpl; [reflexivity | rewrite IH; reflexivity].
Qed.

Lemma append_empty_r (a : string) : (a ++ "")%string = a.
Proof.
  induction a as [| x a IH]; simpl; [reflexivity | rewrite IH; reflexivity].
Qed.

(** A part of a joined text stands in it, between what comes before and
    what comes after. *)
Lemma join_holds_part (separator part : string) (parts : list string) :
  In part parts ->
  exists before after, join separator parts = (before ++ part ++ after)%string.
Proof.
  induction parts as [| p parts IH]; intros Hin; [destruct Hin |].
  destruct Hin as [-> | Hin].
  - destruct parts as [| q parts].
    + exists EmptyString, EmptyString. simpl. rewrite append_empty_r. reflexivity.
    + exists EmptyString. eexists. simpl. reflexivity.
  - destruct (IH Hin) as (before & after & Hjoin).
    destruct parts as [| q parts]; [destruct Hin |].
    exists (p ++ separator ++ before)%string, after.
    change (join separator (p :: q :: parts))
      with (p ++ separator ++ join separator (q :: parts))%string.
    rewrite Hjoin, !append_assoc. reflexivity.
Qed.

(** The messages of a prompt are one system message followed by the
    memory's messages, unchanged and in order; the system message is empty
    when there are no goals, and otherwise holds, for every goal, its name,
    a colon, and its description between two separator lines. *)
Theorem construct_prompt_layout {S : Type} (actions : list (Action S))
    (goals : list Goal) (memory : AgentMemory) :
  exists text,
    prompt_messages (construct_prompt actions goals memory) =
    mk_message "system" text :: messages memory
    /\ (goals = [] -> text = EmptyString)
    /\ (forall g, In g goals ->
          exists before after,
            text = (before
                    ++ (goal_name g ++ ":" ++ sep ++ goal_description g ++ sep)
                    ++ after)%string).
Proof.
  eexists. split; [| split].
  - unfold construct_prompt, format_goals. simpl.
    rewrite format_memory_verbatim. reflexivity.
  - intros ->. reflexivity.
  - intros g Hin. apply join_holds_part.
    apply (in_map (fun g => (goal_name g ++ ":" ++ sep ++ goal_description g ++ sep)%string)).
    exact Hin.
Qed.

End PromptLayout.

Section LoopBounds.
Import Py Memory Registry Environment BaseAgent Language Main.
Context {S : Type} {interp : Interpreter}.
Variable strftime : S -> string.
Variable json_dumps : pyval -> outcome string.
Variable str_other : pyval -> string.
Variable components : Components S.
Variable model : string.

(** A call of [execute_action] adds at most one invocation to the world. *)
Lemma execute_action_world (self : Environment S) (action : Action S)
    (args : kwargs) (w : world S) :
  exists calls,
    invocations (snd (execute_action strftime self action args w)) =
    invocations w ++ calls
    /\ List.length calls <= 1.
Proof.
  destruct (missing_of action args) as [| p rest] eqn:Hmiss.
  - destruct (dry_run self) eqn:Hdry.
    + rewrite execute_action_dry by assumption.
      exists []. simpl. rewrite app_nil_r. split; [reflexivity | lia].
    + destruct (dict_mem "self" args) eqn:Hself.
      { rewrite execute_action_clash by assumption.
        exists []. simpl. rewrite app_nil_r. split; [reflexivity | lia]. }
      rewrite execute_action_run by assumption.
      exists [mk_pycall (fn_name (function action)) args].
      split; [| simpl; lia].
      unfold try_except, bind, run_post_hook, ret.
      destruct (fn_body (function action) args (ext w)) as [[v | e] s1] eqn:Hbody.
      * rewrite (execute_returns action args w v s1 Hself Hbody).
        destruct (on_post_execute self) as [hook |]; [| reflexivity].
        unfold try_except, bind, on_ext, ret. simpl.
        destruct (hook action args v s1) as [[v' | e] s2]; simpl;
          [reflexivity |].
        destruct (isinstance e Exception) eqn:He; simpl; rewrite ?He; reflexivity.
      * rewrite (execute_raises action args w e s1 Hself Hbody).
        destruct (isinstance e Exception); reflexivity.
  - rewrite execute_action_invalid by (rewrite Hmiss; discriminate).
    exists []. simpl. rewrite app_nil_r. split; [reflexivity | lia].
Qed.

Lemma add_message_text_returns (r c : string) (self : AgentMemory) :
  exists self',
    add_message (PStr r) (PStr c) self = (Returned tt, self')
    /\ max_messages self' = max_messages self.
Proof.
  eexists. split; [apply add_message_text | reflexivity].
Qed.

Local Opaque add_message execute_action Json.loads.

Lemma iteration_body_effect (max_iterations iteration : Z) (st : agent_state S) :
  round_effect max_iterations iteration st
    (snd (iteration_body strftime json_dumps str_other components model
                         max_iterations iteration st)).
Proof.
  unfold iteration_body, parse_response.
  unfold bind, logger, get, try_except, in_world, on_ext, ret,
    in_memory, lift_outcome, parsed_get. simpl.
  repeat
    match goal with
    | |- context [add_message (PStr ?r) (PStr ?c) ?m] =>
        let Hadd := fresh "Hadd" in
        destruct (add_message_text_returns r c m) as (? & Hadd & ?);
        rewrite Hadd; clear Hadd; simpl
    | |- context [execute_action ?f ?e ?a ?args ?w] =>
        let Hw := fresh "Hw" in
        pose proof (execute_action_world e a args w) as Hw;
        destruct (execute_action f e a args w) as [[? | ?] ?]; simpl in Hw |- *
    | |- context [match ?x with _ => _ end] =>
        lazymatch x with
        | context [match _ with _ => _ end] => fail
        | _ => destruct x eqn:?; simpl
        end
    end.
  all: unfold round_effect; simpl.
  all: split;
    [eexists; split; [rewrite <- ?app_assoc; simpl; reflexivity | reflexivity] |].
  all: split; [| congruence].
  all: first [ assumption
             | exists []; split; [rewrite app_nil_r; reflexivity | simpl; lia] ].
Qed.

Lemma logged_iterations_app (a b : list log_entry) :
  logged_iterations (a ++ b) = logged_iterations a ++ logged_iterations b.
Proof.
  unfold logged_iterations. apply flat_map_app.
Qed.

Lemma for_each_effect (max_iterations : Z) (iterations : list Z) :
  forall st,
    rounds_effect iterations st
      (snd (for_each iterations
              (iteration_body strftime json_dumps str_other components model
                              max_iterations) st)).
Proof.
  induction iterations as [| i iterations IH]; intros st.
  - exists [], 0, []. simpl. rewrite !app_nil_r. repeat split. lia.
  - cbn [for_each]. unfold bind.
    pose proof (iteration_body_effect max_iterations i st) as Hround.
    destruct (iteration_body strftime json_dumps str_other components model
                             max_iterations i st) as [o st1].
    simpl in Hround.
    destruct Hround as ((tail & Hlog & Htail) & (calls & Hinv & Hcalls) & Hcap).
    assert (rounds_effect (i :: iterations) st st1) as Hstop.
    { exists (LogIteration i max_iterations :: tail), 1, calls.
      repeat split; try assumption.
      - simpl. rewrite Htail. reflexivity.
      - simpl. rewrite Htail. simpl. exact Hcalls. }
    destruct o as [[| ] | e]; simpl; try exact Hstop.
    specialize (IH st1).
    destruct (for_each iterations _ st1) as [o' st2]. simpl in IH |- *.
    destruct IH as (added & k & calls' & Hlog' & Hits & Hinv' & Hcalls' & Hcap').
    simpl in Hlog', Hinv', Hcap'.
    exists (LogIteration i max_iterations :: tail ++ added), (Datatypes.S k),
      (calls ++ calls').
    repeat split.
    + rewrite Hlog', Hlog, <- app_assoc. reflexivity.
    + simpl. rewrite logged_iterations_app, Htail, Hits. reflexivity.
    + rewrite Hinv', Hinv, app_assoc. reflexivity.
    + simpl. rewrite logged_iterations_app, Htail, length_app. simpl. lia.
    + congruence.
Qed.

(** The ceiling, for every client, registry and reply: a run announces a
    prefix of the iterations [1 .. max_iterations] and nothing else, so at
    most [max_iterations] of them; it invokes at most one callable per
    iteration it announces; and it leaves the capacity of the memory as it
    was.  This holds whether the run returns or raises. *)
Theorem run_agent_loop_never_exceeds_ceiling (task : string)
    (max_iterations : Z) (st : agent_state S) :
  let st' :=
    snd (run_agent_loop strftime json_dumps str_other task components model
                        max_iterations st) in
  exists added k calls,
    st_log st' = st_log st ++ added
    /\ logged_iterations added = firstn k (range 1 (max_iterations + 1))
    /\ (Z.of_nat (List.length (logged_iterations added)) <= Z.max 0 max_iterations)%Z
    /\ invocations (st_world st') = invocations (st_world st) ++ calls
    /\ List.length calls <= List.length (logged_iterations added)
    /\ max_messages (st_memory st') = max_messages (st_memory st).
Proof.
  intros st'.
  assert (st' = snd (run_agent_loop strftime json_dumps str_other task
                       components model max_iterations st)) as Hrun
    by reflexivity.
  clearbody st'.
  unfold run_agent_loop, bind, in_memory, logger, get in Hrun.
  destruct (add_message_text_returns "user" task (st_memory st))
    as (mem1 & Hadd & Hcap1).
  rewrite Hadd in Hrun. simpl in Hrun.
  match type of Hrun with
  | context [for_each ?its ?body ?st1] =>
      pose proof (for_each_effect max_iterations its st1) as Hrounds;
      destruct (for_each its body st1) as [o st2]
  end.
  destruct Hrounds as (added & k & calls & Hlog & Hits & Hinv & Hcalls & Hcap).
  simpl in Hlog, Hinv, Hcap.
  assert (Z.of_nat (List.length (logged_iterations added)) <= Z.max 0 max_iterations)%Z
    as Hbound.
  { rewrite Hits, length_firstn, range_length. lia. }
  destruct o as [[] | e]; simpl in Hrun; subst st'; simpl.
  - exists ([LogStarting task] ++ added ++ [LogFinished (len (st_memory st2))]),
      k, calls.
    repeat split.
    + rewrite Hlog. simpl. rewrite <- !app_assoc. reflexivity.
    + simpl. rewrite logged_iterations_app, Hits. simpl.
      rewrite app_nil_r. reflexivity.
    + simpl. rewrite logged_iterations_app. simpl. rewrite app_nil_r.
      exact Hbound.
    + exact Hinv.
    + simpl. rewrite logged_iterations_app. simpl. rewrite app_nil_r.
      exact Hcalls.
    + congruence.
  - exists ([LogStarting task] ++ added), k, calls.
    repeat split.
    + rewrite Hlog. simpl. rewrite <- !app_assoc. reflexivity.
    + exact Hits.
    + exact Hbound.
    + exact Hinv.
    + exact Hcalls.
    + congruence.
Qed.

End LoopBounds.

Section LoopPaths.
Import Py Memory Registry Environment BaseAgent Language Main.
Context {S : Type} {interp : Interpreter}.
Variable strftime : S -> string.
Variable json_dumps : pyval -> outcome string.
Variable str_other : pyval -> string.
Variable components : Components S.
Variable model : string.

Local Opaque add_message execute_action Json.loads.

Lemma range_cons (lo hi : Z) :
  (lo < hi)%Z -> range lo hi = lo :: range (lo + 1) hi.
Proof.
  intros Hlt. unfold range.
  replace (Z.to_nat (hi - lo)) with (Datatypes.S (Z.to_nat (hi - (lo + 1)))) by lia.
  cbn [seq map]. f_equal; [lia |].
  rewrite <- seq_shift, map_map. apply map_ext. intros k. lia.
Qed.

Lemma add_message_text_pair (r c : string) (self : AgentMemory) :
  add_message (PStr r) (PStr c) self =
  (Returned tt, snd (add_message (PStr r) (PStr c) self)).
Proof.
  rewrite add_message_text. reflexivity.
Qed.

(** A run whose first round ends the loop. *)
Lemma run_breaks_at_first (task : string) (max_iterations : Z)
    (st st2 : agent_state S) :
  (1 <= max_iterations)%Z ->
  iteration_body strftime json_dumps str_other components model
                 max_iterations 1 (started task st) = (Returned Break, st2) ->
  run_agent_loop strftime json_dumps str_other task components model
                 max_iterations st =
  (Returned tt,
   mk_state (st_memory st2) (st_world st2)
            (st_log st2 ++ [LogFinished (len (st_memory st2))])).
Proof.
  intros Hmax Hbody. unfold started in Hbody.
  unfold run_agent_loop. rewrite range_cons by lia. cbn [for_each].
  unfold bind, in_memory, logger, get.
  rewrite add_message_text_pair. cbn [st_memory st_world st_log].
  rewrite Hbody. reflexivity.
Qed.

(** A run whose first round raises. *)
Lemma run_raises_at_first (task : string) (max_iterations : Z)
    (st st2 : agent_state S) (e : exn) :
  (1 <= max_iterations)%Z ->
  iteration_body strftime json_dumps str_other components model
                 max_iterations 1 (started task st) = (Raised e, st2) ->
  run_agent_loop strftime json_dumps str_other task components model
                 max_iterations st = (Raised e, st2).
Proof.
  intros Hmax Hbody. unfold started in Hbody.
  unfold run_agent_loop. rewrite range_cons by lia. cbn [for_each].
  unfold bind, in_memory, logger, get.
  rewrite add_message_text_pair. cbn [st_memory st_world st_log].
  rewrite Hbody. reflexivity.
Qed.

Lemma add_messages_two (a b : Message) (self : AgentMemory) :
  add_messages (map text_call [a; b]) self =
  (Returned tt,
   snd (add_message (PStr (role b)) (PStr (content b))
          (snd (add_message (PStr (role a)) (PStr (content a)) self)))).
Proof.
  cbn [map]. rewrite !add_messages_cons_text. reflexivity.
Qed.

Lemma add_messages_one (a : Message) (self : AgentMemory) :
  add_messages (map text_call [a]) self =
  (Returned tt, snd (add_message (PStr (role a)) (PStr (content a)) self)).
Proof.
  cbn [map]. rewrite !add_messages_cons_text. reflexivity.
Qed.

(** A round whose reply parses to an intent that asks to terminate. *)
Lemma round_terminates (max_iterations iteration : Z) (st : agent_state S)
    (raw : string) (s' : S) (d : list (string * pyval)) :
  complete (client components) (prompt_of components st) model 1024
           (ext (st_world st)) = (Returned raw, s') ->
  (forall st0 : agent_state S,
     parse_response raw st0 = (Returned (PDict d), st0)) ->
  requests_termination (intent_tool d) = true ->
  let message := intent_message d in
  iteration_body strftime json_dumps str_other components model
                 max_iterations iteration st =
  (Returned Break,
   mk_state
     (snd (add_message (PStr "assistant") (PStr (py_str str_other message))
                       (st_memory st)))
     (mk_world (invocations (st_world st)) s')
     (st_log st ++ [LogIteration iteration max_iterations;
                    LogRawResponse raw; LogTermination message])).
Proof.
  intros Hcomplete Hparse Hterm message. unfold prompt_of in Hcomplete.
  unfold message, intent_message, intent_args. unfold intent_tool in Hterm.
  unfold iteration_body.
  unfold bind, logger, get, try_except, in_world, on_ext, ret. simpl.
  rewrite Hcomplete. simpl. rewrite Hparse.
  unfold lift_outcome, parsed_get. simpl. rewrite Hterm.
  unfold in_memory. simpl.
  rewrite add_message_text_pair. simpl.
  rewrite <- !app_assoc. reflexivity.
Qed.



(** The rounds that end a run, from any state. *)
Lemma round_failed_completion (max_iterations iteration : Z)
    (st : agent_state S) (e : exn) (s' : S) :
  complete (client components) (prompt_of components st) model 1024
           (ext (st_world st)) = (Raised e, s') ->
  isinstance e Exception = true ->
  iteration_body strftime json_dumps str_other components model
                 max_iterations iteration st =
  (Returned Break,
   mk_state
     (snd (add_message (PStr "assistant")
             (PStr ("[error] LLM call failed: " ++ exc_str e)%string)
             (st_memory st)))
     (mk_world (invocations (st_world st)) s')
     (st_log st ++ [LogIteration iteration max_iterations; LogLLMFailed e])).
Proof.
  intros Hcomplete He. unfold prompt_of in Hcomplete.
  unfold iteration_body.
  unfold bind, logger, get, try_except, in_world, on_ext, ret. simpl.
  rewrite Hcomplete. simpl. rewrite He.
  unfold in_memory. simpl. rewrite add_message_text_pair. simpl.
  rewrite <- !app_assoc. reflexivity.
Qed.

Lemma round_interrupted_completion (max_iterations iteration : Z)
    (st : agent_state S) (e : exn) (s' : S) :
  complete (client components) (prompt_of components st) model 1024
           (ext (st_world st)) = (Raised e, s') ->
  isinstance e Exception = false ->
  iteration_body strftime json_dumps str_other components model
                 max_iterations iteration st =
  (Raised e,
   mk_state (st_memory st) (mk_world (invocations (st_world st)) s')
            (st_log st ++ [LogIteration iteration max_iterations])).
Proof.
  intros Hcomplete He. unfold prompt_of in Hcomplete.
  unfold iteration_body.
  unfold bind, logger, get, try_except, in_world, on_ext, ret. simpl.
  rewrite Hcomplete. simpl. rewrite He. reflexivity.
Qed.

Lemma round_non_object (max_iterations iteration : Z)
    (st : agent_state S) (raw : string) (s' : S) (v : pyval) :
  complete (client components) (prompt_of components st) model 1024
           (ext (st_world st)) = (Returned raw, s') ->
  Json.loads raw = Returned v ->
  (forall d, v <> PDict d) ->
  iteration_body strftime json_dumps str_other components model
                 max_iterations iteration st =
  (Raised attribute_error,
   mk_state (st_memory st) (mk_world (invocations (st_world st)) s')
            (st_log st ++ [LogIteration iteration max_iterations;
                           LogRawResponse raw])).
Proof.
  intros Hcomplete Hloads Hshape. unfold prompt_of in Hcomplete.
  unfold iteration_body.
  unfold bind, logger, get, try_except, in_world, on_ext, ret. simpl.
  rewrite Hcomplete. simpl.
  rewrite (parse_response_decoded raw v _ Hloads).
  unfold lift_outcome, parsed_get.
  destruct v; try (rewrite <- !app_assoc; reflexivity).
  exfalso. eapply Hshape. reflexivity.
Qed.

Lemma round_executes (max_iterations iteration : Z)
    (st : agent_state S) (raw n : string) (s' : S)
    (d : list (string * pyval)) (action : Action S)
    (rec : ExecutionRecord) (w' : world S) :
  complete (client components) (prompt_of components st) model 1024
           (ext (st_world st)) = (Returned raw, s') ->
  Json.loads raw = Returned (PDict d) ->
  intent_tool d = PStr n ->
  n <> "terminate" ->
  get_action (registry components) n = Some action ->
  execute_action strftime (env components) action (intent_args d)
                 (mk_world (invocations (st_world st)) s') =
  (Returned rec, w') ->
  let decision :=
    PDict [("tool", PStr n); ("args", PDict (intent_args d));
           ("result", record_dict rec)] in
  let log :=
    st_log st ++ [LogIteration iteration max_iterations; LogRawResponse raw;
                  LogRequested (PStr n) (intent_args d); LogExecution rec] in
  iteration_body strftime json_dumps str_other components model
                 max_iterations iteration st =
  match json_dumps decision with
  | Raised e => (Raised e, mk_state (st_memory st) w' log)
  | Returned text =>
      let memory :=
        snd (add_message (PStr "assistant") (PStr text) (st_memory st)) in
      if terminal action
      then (Returned Break, mk_state memory w' (log ++ [LogTerminal]))
      else (Returned Next, mk_state memory w' log)
  end.
Proof.
  intros Hcomplete Hloads Htool Hname Hget Hexec decision log.
  unfold prompt_of in Hcomplete. unfold intent_tool in Htool.
  unfold decision, log. clear decision log.
  unfold intent_args in *.
  unfold iteration_body.
  unfold bind, logger, get, try_except, in_world, on_ext, ret. simpl.
  rewrite Hcomplete. simpl.
  rewrite (parse_response_decoded raw _ _ Hloads).
  unfold lift_outcome, parsed_get. simpl. rewrite Htool. simpl.
  apply String.eqb_neq in Hname. rewrite Hname.
  unfold lookup_action. simpl. rewrite Hget. simpl.
  rewrite Hexec. simpl.
  destruct (json_dumps _) as [text | e]; simpl.
  - unfold in_memory. simpl. rewrite add_message_text_pair. simpl.
    destruct (terminal action); simpl; rewrite <- !app_assoc; reflexivity.
  - rewrite <- !app_assoc. reflexivity.
Qed.





End LoopPaths.

Section LoopPathExamples.
Import Py Memory Registry Environment BaseAgent Language Main Demo.







(** A registered [terminate] is never run by the loop: the reply that names
    it is taken as the request to stop. *)
Example terminate_is_not_executed :
  let '(o, st') :=
    run_agent_loop clock no_dumps no_str "Write a README."
                   (components_of (replying terminate_text)) "gpt-4o" 20
                   fresh_state in
  o = Returned tt
  /\ get_action (registry (components_of (replying terminate_text)))
                "terminate" <> None
  /\ invocations (st_world st') = []
  /\ messages (st_memory st') =
     [mk_message "user" "Write a README."; assistant "README written"].
Proof.
  vm_compute. repeat split; try reflexivity. discriminate.
Qed.

End LoopPathExamples.

Section TodoSearch.
Import Py FileTools.
Variable fs : FileSystem.
Variable max_results : Z.

Lemma outcome_bind_ret {A : Type} (o : outcome A) :
  outcome_bind o (fun a => Returned a) = o.
Proof. destruct o; reflexivity. Qed.

Lemma outcome_bind_assoc {A B C : Type} (o : outcome A)
    (f : A -> outcome B) (g : B -> outcome C) :
  outcome_bind (outcome_bind o f) g
  = outcome_bind o (fun a => outcome_bind (f a) g).
Proof. destruct o; reflexivity. Qed.

(** A report has one dictionary per annotated line. *)
Lemma report_length (ms : list mark) :
  forall found,
    report fs ms = Returned found ->
    List.length found = List.length ms.
Proof.
  induction ms as [| [[file_path i] line] ms IH]; intros found H; simpl in H.
  - inversion H. reflexivity.
  - destruct (hit fs file_path i line) as [h | e]; [| discriminate].
    simpl in H.
    destruct (report fs ms) as [others | e]; [| discriminate].
    simpl in H. inversion H. simpl. rewrite (IH others eq_refl). reflexivity.
Qed.

Lemma report_app (a b : list mark) :
  report fs (a ++ b)
  = outcome_bind (report fs a)
      (fun x => outcome_bind (report fs b)
                  (fun y => Returned (x ++ y))).
Proof.
  induction a as [| [[file_path i] line] a IH]; simpl.
  - rewrite outcome_bind_ret. reflexivity.
  - destruct (hit fs file_path i line) as [h | e]; [| reflexivity].
    simpl. rewrite IH.
    destruct (report fs a) as [x | e]; [| reflexivity].
    simpl. destruct (report fs b); reflexivity.
Qed.

Lemma top_up_full (r : list pyval) (ms : list mark) :
  (max_results <= Z.of_nat (List.length r))%Z ->
  top_up fs max_results r ms = Returned r.
Proof.
  intros Hfull. unfold top_up.
  replace (Z.to_nat (max_results - Z.of_nat (List.length r))) with 0 by lia.
  simpl. rewrite app_nil_r. reflexivity.
Qed.

Lemma top_up_nil (r : list pyval) :
  top_up fs max_results r [] = Returned r.
Proof.
  unfold top_up. rewrite firstn_nil. simpl. rewrite app_nil_r. reflexivity.
Qed.

Lemma top_up_app (r : list pyval) (xs ys : list mark) :
  top_up fs max_results r (xs ++ ys)
  = outcome_bind (top_up fs max_results r xs)
      (fun r' => top_up fs max_results r' ys).
Proof.
  unfold top_up.
  set (k := Z.to_nat (max_results - Z.of_nat (List.length r))).
  rewrite firstn_app, report_app.
  destruct (report fs (firstn k xs)) as [x | e] eqn:Hx;
    [| reflexivity].
  apply report_length in Hx. rewrite length_firstn in Hx.
  simpl.
  replace (Z.to_nat (max_results - Z.of_nat (List.length (r ++ x))))
    with (k - List.length xs)
    by (rewrite length_app; subst k; lia).
  destruct (report fs (firstn (k - List.length xs) ys)) as [y | e];
    [| reflexivity].
  simpl. rewrite app_assoc. reflexivity.
Qed.

(** One more annotated line, when there is room for it. *)
Lemma top_up_one (r : list pyval) (file_path line : string) (i : Z) :
  (Z.of_nat (List.length r) < max_results)%Z ->
  top_up fs max_results r [(file_path, i, line)]
  = outcome_bind (hit fs file_path i line)
      (fun found => Returned (r ++ [found])).
Proof.
  intros Hroom. unfold top_up.
  replace (Z.to_nat (max_results - Z.of_nat (List.length r)))
    with (S (Z.to_nat (max_results - Z.of_nat (List.length r) - 1))) by lia.
  cbn [firstn report]. rewrite firstn_nil.
  destruct (hit fs file_path i line); reflexivity.
Qed.

Lemma full_spec (st : scan_state) :
  full max_results st = true
  <-> (max_results <= Z.of_nat (List.length (results st)))%Z.
Proof.
  unfold full. apply Z.leb_le.
Qed.

Lemma scan_lines_spec (file_path : string) (lines : list string) :
  forall (i : Z) (st : scan_state),
    full max_results st = false ->
    outcome_map (fun r => results (snd r))
      (scan_lines fs max_results file_path i lines st)
    = top_up fs max_results (results st)
        (marks_from file_path i lines).
Proof.
  induction lines as [| line rest IH]; intros i st Hroom.
  - simpl. rewrite top_up_nil. reflexivity.
  - cbn [scan_lines marks_from]. destruct (mentions line).
    + rewrite top_up_app, top_up_one
        by (unfold full in Hroom; apply Z.leb_gt in Hroom; exact Hroom).
      destruct (hit fs file_path i line) as [found | e];
        [| reflexivity].
      cbn [outcome_bind].
      destruct (full max_results (mk_scan _ _)) eqn:Hfull.
      * apply full_spec in Hfull. cbn [results] in Hfull.
        rewrite top_up_full by exact Hfull. reflexivity.
      * rewrite IH by exact Hfull. reflexivity.
    + cbn [app]. apply IH. exact Hroom.
Qed.

Lemma scan_file_spec (file_path : string) (st : scan_state) :
  outcome_map results (scan_file fs max_results file_path st)
  = top_up fs max_results (results st) (marks fs file_path).
Proof.
  unfold scan_file, marks.
  destruct (full max_results st) eqn:Hfull.
  - rewrite top_up_full by (apply full_spec; exact Hfull). reflexivity.
  - destruct (read_lines fs file_path) as [lines |].
    + rewrite <- (scan_lines_spec file_path lines 1 st Hfull).
      destruct (scan_lines fs max_results file_path 1 lines st)
        as [[[|] st'] | e]; reflexivity.
    + rewrite top_up_nil. reflexivity.
Qed.

(** A loop that scans a file and leaves once the list is full, then goes
    on with [continue_with]. *)
Lemma scan_then (file_path : string) (st : scan_state) (rest : list mark)
    (continue_with : scan_state -> outcome scan_state) :
  (forall st', full max_results st' = false ->
     outcome_map results (continue_with st')
     = top_up fs max_results (results st') rest) ->
  outcome_map results
    (outcome_bind (scan_file fs max_results file_path st)
       (fun st' =>
          if full max_results st' then Returned st' else continue_with st'))
  = top_up fs max_results (results st)
      (marks fs file_path ++ rest).
Proof.
  intros Hnext. rewrite top_up_app, <- scan_file_spec.
  destruct (scan_file fs max_results file_path st) as [st' | e];
    [| reflexivity].
  cbn [outcome_bind outcome_map].
  destruct (full max_results st') eqn:Hfull.
  - rewrite top_up_full by (apply full_spec; exact Hfull). reflexivity.
  - apply Hnext. exact Hfull.
Qed.

Lemma scan_filenames_spec (dirpath : string) (filenames : list string) :
  forall st : scan_state,
    outcome_map results
      (scan_filenames fs max_results dirpath filenames st)
    = top_up fs max_results (results st)
        (flat_map (marks fs) (map (path_join fs dirpath) filenames)).
Proof.
  induction filenames as [| fn rest IH]; intros st.
  - simpl. rewrite top_up_nil. reflexivity.
  - cbn [scan_filenames map flat_map]. apply scan_then.
    intros st' _. apply IH.
Qed.

Lemma scan_listing_spec (root : string) (names : list string) :
  forall st : scan_state,
    outcome_map results
      (scan_listing fs max_results root names st)
    = top_up fs max_results (results st)
        (flat_map (marks fs)
           (filter (isfile fs) (map (path_join fs root) names))).
Proof.
  induction names as [| fn rest IH]; intros st.
  - simpl. rewrite top_up_nil. reflexivity.
  - cbn [scan_listing map filter].
    destruct (isfile fs (path_join fs root fn)); [| apply IH].
    cbn [flat_map]. apply scan_then. intros st' _. apply IH.
Qed.

Lemma end_of_walk_full (ending : option exn) (r : list pyval) :
  (max_results <= Z.of_nat (List.length r))%Z ->
  end_of_walk max_results ending r = Returned r.
Proof.
  intros Hfull. unfold end_of_walk. destruct ending as [e |]; [| reflexivity].
  replace (max_results <=? Z.of_nat (List.length r))%Z with true
    by (symmetry; apply Z.leb_le; exact Hfull).
  reflexivity.
Qed.

Lemma end_of_walk_room (ending : option exn) (r : list pyval) :
  (Z.of_nat (List.length r) < max_results)%Z ->
  end_of_walk max_results ending r
  = match ending with Some e => Raised e | None => Returned r end.
Proof.
  intros Hroom. unfold end_of_walk. destruct ending as [e |]; [| reflexivity].
  replace (max_results <=? Z.of_nat (List.length r))%Z with false
    by (symmetry; apply Z.leb_gt; exact Hroom).
  reflexivity.
Qed.

Lemma scan_walk_spec (ending : option exn)
    (walked : list (string * list string)) :
  forall st : scan_state,
    outcome_map results
      (scan_walk fs max_results walked ending st)
    = match walked with
      | [] =>
          match ending with
          | Some e => Raised e
          | None => Returned (results st)
          end
      | _ :: _ =>
          outcome_bind
            (top_up fs max_results (results st)
               (flat_map (marks fs) (walked_files fs walked)))
            (end_of_walk max_results ending)
      end.
Proof.
  induction walked as [| [dirpath filenames] rest IH]; intros st.
  - simpl. destruct ending; reflexivity.
  - cbn [scan_walk]. unfold walked_files. cbn [flat_map fst snd].
    rewrite flat_map_app, top_up_app, <- scan_filenames_spec.
    fold (walked_files fs rest).
    destruct (scan_filenames fs max_results dirpath filenames st)
      as [st' | e]; [| reflexivity].
    cbn [outcome_bind outcome_map].
    destruct (full max_results st') eqn:Hfull.
    + apply full_spec in Hfull.
      rewrite top_up_full by exact Hfull. cbn [outcome_bind].
      rewrite end_of_walk_full by exact Hfull. reflexivity.
    + rewrite IH. destruct rest as [| next rest]; [| reflexivity].
      cbn [walked_files flat_map]. rewrite top_up_nil. cbn [outcome_bind].
      unfold full in Hfull. apply Z.leb_gt in Hfull.
      rewrite end_of_walk_room by exact Hfull. reflexivity.
Qed.

Lemma top_up_start (ms : list mark) :
  top_up fs max_results [] ms
  = report fs (firstn (Z.to_nat max_results) ms).
Proof.
  unfold top_up. simpl. rewrite Z.sub_0_r. apply outcome_bind_ret.
Qed.

(** [find_todos] reports the first [max_results] annotated lines, in
    the order of the search, of the files it looks at, and so never more
    than [max_results] of them; a limit of zero or less reports nothing.
    It raises what [os.path.abspath], [os.listdir] or, for one of the lines
    it reports, [os.path.relpath] raises, and what ends [os.walk], unless
    the search had its fill before the walk was asked to go on. *)
Theorem find_todos_first_matches (path : string) (recursive : bool) :
  find_todos fs path recursive max_results
  = first_matches fs path recursive max_results
  /\ (forall found,
        find_todos fs path recursive max_results = Returned found ->
        (Z.of_nat (List.length found) <= Z.max 0 max_results)%Z).
Proof.
  assert (find_todos fs path recursive max_results
          = first_matches fs path recursive max_results) as Heq.
  { unfold find_todos, first_matches.
    destruct (abspath fs path) as [root | e]; [| reflexivity].
    cbn [outcome_bind].
    destruct (isfile fs root).
    - rewrite scan_file_spec. cbn [results]. apply top_up_start.
    - destruct recursive.
      + rewrite scan_walk_spec. cbn [results].
        destruct (walk fs root) as [[| entry walked] [e |]]; cbn [fst snd];
          cbn [results]; try reflexivity;
          try (rewrite top_up_start; reflexivity).
        cbn [walked_files flat_map]. rewrite firstn_nil. reflexivity.
      + destruct (listdir fs root) as [names | e]; [| reflexivity].
        cbn [outcome_bind]. rewrite scan_listing_spec. cbn [results].
        apply top_up_start. }
  split; [exact Heq |].
  intros found Hfound. rewrite Heq in Hfound.
  assert (forall ms out,
            report fs (firstn (Z.to_nat max_results) ms)
            = Returned out ->
            (Z.of_nat (List.length out) <= Z.max 0 max_results)%Z) as Hbound.
  { intros ms out Hout. apply report_length in Hout.
    rewrite length_firstn in Hout. lia. }
  unfold first_matches in Hfound.
  destruct (abspath fs path) as [root | e]; [| discriminate].
  cbn [outcome_bind] in Hfound.
  destruct (isfile fs root); [eapply Hbound; exact Hfound |].
  destruct recursive.
  - destruct (walk fs root) as [walked ending].
    assert (outcome_bind
              (report fs
                 (firstn (Z.to_nat max_results)
                    (flat_map (marks fs) (walked_files fs walked))))
              (end_of_walk max_results ending) = Returned found) as Hrun.
    { destruct walked as [| entry walked]; destruct ending as [e |];
        try exact Hfound; discriminate. }
    destruct (report fs _) as [out | e] eqn:Hout; [| discriminate].
    cbn [outcome_bind] in Hrun.
    assert (found = out) as ->.
    { unfold end_of_walk in Hrun. destruct ending as [e |].
      - destruct (max_results <=? _)%Z; [| discriminate].
        inversion Hrun. reflexivity.
      - inversion Hrun. reflexivity. }
    eapply Hbound. exact Hout.
  - destruct (listdir fs root) as [names | e]; [| discriminate].
    cbn [outcome_bind] in Hfound. eapply Hbound. exact Hfound.
Qed.

End TodoSearch.

Section TodoSearchExamples.
Import Py FileTools Demo.

(** The project has three annotated lines; a limit of two stops the search
    inside the first file, and a limit of zero finds nothing. *)
Example project_todos :
  find_todos project "." true 2 =
  Returned
    [PDict [("file", PStr "/p/a.py"); ("line_no", PInt 1);
            ("line", PStr "# TODO: one")];
     PDict [("file", PStr "/p/a.py"); ("line_no", PInt 3);
            ("line", PStr "# FIXME two")]]
  /\ find_todos project "." false 500 =
     Returned
       [PDict [("file", PStr "/p/a.py"); ("line_no", PInt 1);
               ("line", PStr "# TODO: one")];
        PDict [("file", PStr "/p/a.py"); ("line_no", PInt 3);
               ("line", PStr "# FIXME two")];
        PDict [("file", PStr "/p/b.py"); ("line_no", PInt 2);
               ("line", PStr "y = 2  # TODO three")]]
  /\ find_todos project "." true 0 = Returned []
  /\ find_todos project "/p/b.py" true 500 =
     Returned
       [PDict [("file", PStr "/p/b.py"); ("line_no", PInt 2);
               ("line", PStr "y = 2  # TODO three")]].
Proof.
  vm_compute. repeat split; reflexivity.
Qed.

(** A root with a null character: the recursive search raises the
    [ValueError] of the walk, whatever the limit. *)
Example null_in_root :
  find_todos project (String "a" (String "000" "b")) true 500
  = Raised embedded_null
  /\ find_todos project (String "a" (String "000" "b")) true 0
     = Raised embedded_null.
Proof.
  vm_compute. split; reflexivity.
Qed.

End TodoSearchExamples.
